(** * Coverage scripts of keen-eye: a shallow embedding

    The repository holds six stand-alone Python scripts that read Cobertura
    style coverage reports ([packages/package/classes/class/lines/line]) and
    print summaries.  This development embeds each script as a Rocq function
    and proves (or refutes) the properties stated about them.

    Modelling conventions.
    - An XML document is the tree the scripts walk: a report is the list of
      its [package] elements ([root.findall('.//package')]), a package the
      list of its [class] elements, a class the list of the [line] elements
      below it.  The attributes the scripts read are record fields and are
      present; [hits] is the integer that [int(l.get('hits', 0))] yields and
      a line-rate the number that [float] yields.  A report in which such a
      conversion raises has no counterpart here: [Xml r] is a report whose
      attributes the scripts convert.  Properties of whole runs are stated
      for the outcome of the run (what a run that raises, or one that ends
      normally, has printed) or under a hypothesis on the reports it reads.
    - The file system is a function from paths to [Absent], [Garbage] (a file
      that is not well-formed XML) or [Xml r].
    - Python [int] is [Z].  Percentages are computed by the scripts in
      binary floating point; here they are exact rationals ([Q]), so that
      [covered / total * 100] is the mathematical quotient.  Division by
      zero raises, as in Python.
    - A [dict] is an association list in insertion order with unique keys.
    - [print] appends a structured line to the output; column padding and
      the [.1f] rounding of the f-strings are not modelled.
    - An uncaught exception ends the run: a run is the output printed so far
      together with [Ok v] or [Raise e]. *)

From Stdlib Require Import ZArith QArith Qround Lqa String Ascii List Lia
  Permutation Sorted.
From stdpp Require Import base list strings.

Open Scope string_scope.
Open Scope list_scope.
Open Scope Z_scope.

(** ** Exceptions and runs *)

Inductive exn : Type :=
| FileNotFoundError
| ParseError
| ZeroDivisionError
| IndexError.

Inductive result (A : Type) : Type :=
| Ok (a : A)
| Raise (e : exn).
Arguments Ok {A} a.
Arguments Raise {A} e.

Definition rbind {A B} (r : result A) (k : A -> result B) : result B :=
  match r with
  | Ok a => k a
  | Raise e => Raise e
  end.

(** ** Strings *)

(** [sub in s] *)
Fixpoint contains (sub s : string) : bool :=
  String.prefix sub s ||
  match s with
  | EmptyString => false
  | String _ r => contains sub r
  end.

(** [os.path.basename] (POSIX): what follows the last ["/"]. *)
Fixpoint basename (p : string) : string :=
  match p with
  | EmptyString => EmptyString
  | String c r =>
      if contains "/" r then basename r
      else if Ascii.eqb c "/" then r
      else p
  end.

(** [s.replace(old, new)] for a non-empty [old]: the occurrences are
    replaced from left to right, without overlap. *)
Fixpoint replace_aux (old new : string) (skip : nat) (s : string) : string :=
  match s with
  | EmptyString => EmptyString
  | String c r =>
      match skip with
      | S k => replace_aux old new k r
      | O =>
          if String.prefix old s
          then String.append new (replace_aux old new (String.length old - 1) r)
          else String c (replace_aux old new O r)
      end
  end.

Definition replace (old new s : string) : string := replace_aux old new 0 s.

(** [s.split('/')] and the path component [parts[i]]. *)
Fixpoint split_slash_aux (cur : string) (s : string) : list string :=
  match s with
  | EmptyString => [cur]
  | String c r =>
      if Ascii.eqb c "/" then cur :: split_slash_aux EmptyString r
      else split_slash_aux (String.append cur (String c EmptyString)) r
  end.

Definition split_slash (s : string) : list string :=
  split_slash_aux EmptyString s.

(** ** The coverage document *)

Record Line : Type := { number : string; hits : Z }.

Record Class : Type :=
  { cls_name : string; filename : string; lines : list Line }.

Record Package : Type :=
  { pkg_name : string; pkg_line_rate : Q; classes : list Class }.

Record CoverageReport : Type :=
  { line_rate : Q; packages : list Package }.

Inductive file : Type :=
| Absent
| Garbage
| Xml (root : CoverageReport).

Definition filesystem : Type := string -> file.

(** [os.path.exists] *)
Definition path_exists (fs : filesystem) (p : string) : bool :=
  match fs p with
  | Absent => false
  | _ => true
  end.

(** [ET.parse(p).getroot()] *)
Definition ET_parse (fs : filesystem) (p : string) : result CoverageReport :=
  match fs p with
  | Absent => Raise FileNotFoundError
  | Garbage => Raise ParseError
  | Xml root => Ok root
  end.

(** ** Dictionaries *)

Definition dict (V : Type) : Type := list (string * V).

Fixpoint dict_get {V} (k : string) (d : dict V) : option V :=
  match d with
  | [] => None
  | (k', v) :: d' => if String.eqb k k' then Some v else dict_get k d'
  end.

(** [d[k] = v]: an existing key keeps its position, a new key goes last. *)
Fixpoint dict_set {V} (k : string) (v : V) (d : dict V) : dict V :=
  match d with
  | [] => [(k, v)]
  | (k', v') :: d' =>
      if String.eqb k k' then (k, v) :: d' else (k', v') :: dict_set k v d'
  end.

Definition dict_values {V} (d : dict V) : list V := map snd d.

(** ** Counting the lines of a class *)

Definition is_hit (l : Line) : bool := 0 <? hits l.

(** [len(lines)] *)
Definition count_total (ls : list Line) : Z := Z.of_nat (length ls).

(** [sum(1 for l in lines if int(l.get('hits', 0)) > 0)] *)
Definition count_covered (ls : list Line) : Z :=
  Z.of_nat (length (List.filter is_hit ls)).

(** The value of [covered / total * 100] for [total <> 0], in lowest terms
    (so that equal percentages are equal terms). *)
Definition percent (covered total : Z) : Q :=
  Qred (inject_Z covered / inject_Z total * 100)%Q.

(** [(covered / total * 100) if total > 0 else 0] *)
Definition pct (covered total : Z) : Q :=
  if 0 <? total then percent covered total else 0%Q.

(** [covered / total * 100] where nothing guards the division. *)
Definition pct_unguarded (covered total : Z) : result Q :=
  if total =? 0 then Raise ZeroDivisionError
  else Ok (percent covered total).

(** [int(q)]: truncation towards zero. *)
Definition Qtrunc (q : Q) : Z := Z.quot (Qnum q) (Zpos (Qden q)).

Definition Qlt_bool (a b : Q) : bool := negb (Qle_bool b a).

(** ** [sorted]: Python's sort is stable

    [sorted lt l] sorts by a strict order [lt] on the elements (the order of
    their keys).  An element is inserted in front of the first element that
    is not smaller, so equal keys keep their input order; a stable sort has
    only one possible result, hence this is the list Python builds. *)

Section Sorted.
Context {A : Type} (lt : A -> A -> bool).

Fixpoint insert_sorted (x : A) (l : list A) : list A :=
  match l with
  | [] => [x]
  | y :: l' => if lt y x then y :: insert_sorted x l' else x :: l
  end.

Definition sorted (l : list A) : list A := foldr insert_sorted [] l.

(** [x] may stand in front of [y] in a sorted list: [y] is not smaller. *)
Definition le_of (x y : A) : Prop := lt y x = false.

(** [a] and [x] have equal keys: neither is smaller. *)
Definition tied (a x : A) : bool := negb (lt a x) && negb (lt x a).

End Sorted.

(** ** Printed lines *)

Inductive printed : Type :=
| Rule (c : string) (n : nat)
| Text (s : string)
| Blank
| Columns (cols : list string)
| AssemblyRow (status short_name : string) (coverage : Q) (covered total : Z)
| SummaryRow (label : string) (overall : Q) (covered total : Z)
| DetailHead (short_name : string) (coverage : Q)
| FileRow (name : string) (coverage : Q) (uncovered : Z) (marker : string)
| ProjectRow (project : string) (coverage : Q) (covered total : Z)
    (status : string)
| UncoveredRow (name : string) (uncovered : Z) (marker : string)
| GeneratedNote (generated_uncovered : Z)
| ErrorLine (path : string) (e : exn)
| ErrorOnly (e : exn)
| BarRow (proj : string) (pct : Q) (bar : Z)
| ProjectHead (test_proj : string)
| PackageRow (name : string) (actual_rate : Q) (lines_covered lines_valid : Z)
| TargetHead (name : string)
| ClassHead (cls_name short_file : string)
| ClassCoverageRow (rate : Q) (covered total uncovered_count : Z)
| UncoveredLines (numbers : list string)
| OverallLine (covered_lines total_lines : Z) (pct : Q)
| NeedLine (more : Z).

(** The percentage that a line of analyze_all_coverage shows, if any. *)
Definition shown_percentage (p : printed) : option Q :=
  match p with
  | AssemblyRow _ _ coverage _ _ => Some coverage
  | SummaryRow _ overall _ _ => Some overall
  | DetailHead _ coverage => Some coverage
  | FileRow _ coverage _ _ => Some coverage
  | _ => None
  end.

(** [q] is a percentage. *)
Definition in_range (q : Q) : Prop := (0 <= q <= 100)%Q.

(** ** Runs: output and exceptions *)

Definition io (A : Type) : Type := (list printed * result A)%type.

Definition io_ret {A} (a : A) : io A := ([], Ok a).

Definition io_bind {A B} (k : A -> io B) (m : io A) : io B :=
  match m with
  | (out, Ok a) => let '(out', r) := k a in (out ++ out', r)
  | (out, Raise e) => (out, Raise e)
  end.

#[export] Instance io_mret : MRet io := @io_ret.
#[export] Instance io_mbind : MBind io := @io_bind.

Definition print (p : printed) : io unit := ([p], Ok tt).

Definition lift {A} (r : result A) : io A := ([], r).

(** [try: m except Exception as e: h e] *)
Definition try_except {A} (m : io A) (h : exn -> io A) : io A :=
  match m with
  | (out, Raise e) => let '(out', r) := h e in (out ++ out', r)
  | _ => m
  end.

(** [for x in l: body x] *)
Fixpoint for_each {A} (l : list A) (body : A -> io unit) : io unit :=
  match l with
  | [] => mret tt
  | x :: l' => body x ;; for_each l' body
  end.

#[export] Instance result_mret : MRet result := @Ok.
#[export] Instance result_mbind : MBind result :=
  fun A B k r => rbind r k.

(** ** Merging entries that share a name

    Both [analyze_all_coverage.main] and
    [analyze_project_coverage.analyze_project_coverage] run the loop
<<
    seen = {}
    for f in fs:
        if f['name'] not in seen: seen[f['name']] = f
        else: seen[f['name']][k] += f[k]      # for some keys k
>>
    The entries are Python objects: [seen] holds references into the list it
    walks and the update is in place.  The store is the list of entries
    (every entry of the list is a distinct object, made by its own
    [append({...})]), a reference is a position in it. *)

Section Dedup.
Context {E : Type} `{Inhabited E}.
Context (name : E -> string) (add : E -> E -> E).

Definition dedup_step (st : list E * dict nat) (r : nat)
  : list E * dict nat :=
  let '(heap, seen) := st in
  let f := heap !!! r in
  match dict_get (name f) seen with
  | None => (heap, dict_set (name f) r seen)
  | Some r0 => (<[r0 := add (heap !!! r0) f]> heap, seen)
  end.

Definition dedup_loop (rs : list nat) (heap : list E) : list E * dict nat :=
  foldl dedup_step (heap, ([] : dict nat)) rs.

(** What the loop computes, on values: the entry [f] joins the list of
    merged entries [acc], in the first entry with its name if there is
    one, at the end otherwise. *)
Fixpoint merge_into (f : E) (acc : list E) : list E :=
  match acc with
  | [] => [f]
  | g :: acc' =>
      if String.eqb (name f) (name g) then add g f :: acc'
      else g :: merge_into f acc'
  end.

Definition merged (l : list E) : list E :=
  foldl (fun acc f => merge_into f acc) [] l.

(** [seen] maps the name of each object it refers to, to that object, and
    refers to no object twice. *)
Definition seen_ok (heap : list E) (seen : dict nat) : Prop :=
  Forall (fun kr => kr.1 = name (heap !!! kr.2) /\ (kr.2 < length heap)%nat)
    seen
  /\ NoDup (dict_values seen).

(** The entries of [l] named [n]. *)
Definition named (n : string) (l : list E) : list E :=
  List.filter (fun e => String.eqb (name e) n) l.

End Dedup.

(** [sum(m(e) for e in l)] *)
Definition sum_of {E} (m : E -> Z) (l : list E) : Z :=
  foldr (fun e acc => m e + acc) 0 l.

(** [status] of the overview tables. *)
Definition status_marker (coverage : Q) : string :=
  if Qle_bool 95 coverage then "[OK]"
  else if Qle_bool 85 coverage then "[--]"
  else "[!!]".

(** [" [generated]" if '.g.cs' in name else ""] *)
Definition generated_marker (is_generated : bool) : string :=
  if is_generated then " [generated]" else "".

(** * analyze_all_coverage.py *)

Module analyze_all_coverage.

(** An element of [results[pkg]['files']]. *)
Record file_entry : Type :=
  { f_name : string;
    f_total : Z;
    f_covered : Z;
    f_uncovered : Z;
    f_coverage : Q }.

(** A value of [results]: [{'total': .., 'covered': .., 'files': [..]}]. *)
Record assembly : Type :=
  { a_total : Z; a_covered : Z; a_files : list file_entry }.

Definition empty_assembly : assembly :=
  {| a_total := 0; a_covered := 0; a_files := [] |}.

#[export] Instance file_entry_inhabited : Inhabited file_entry :=
  populate {| f_name := ""; f_total := 0; f_covered := 0;
              f_uncovered := 0; f_coverage := 0 |}.

(** Lines 47-57: the entry appended for a class with an uncovered line. *)
Definition class_entry (filename : string) (total covered : Z) : file_entry :=
  {| f_name := basename filename;
     f_total := total;
     f_covered := covered;
     f_uncovered := total - covered;
     f_coverage := pct covered total |}.

(** Lines 31-57: the body of [for cls in classes]. *)
Definition add_class (pkg_name : string) (results : dict assembly)
    (cls : Class) : dict assembly :=
  match lines cls with
  | [] => results
  | _ =>
      let total := count_total (lines cls) in
      let covered := count_covered (lines cls) in
      let d := default empty_assembly (dict_get pkg_name results) in
      let files :=
        if covered <? total
        then a_files d ++ [class_entry (filename cls) total covered]
        else a_files d in
      dict_set pkg_name
        {| a_total := a_total d + total;
           a_covered := a_covered d + covered;
           a_files := files |}
        results
  end.

(** [project_filter and project_filter not in pkg_name] *)
Definition filtered_out (project_filter : option string) (pkg_name : string)
  : bool :=
  match project_filter with
  | None => false
  | Some pf => negb (String.eqb pf "") && negb (contains pf pkg_name)
  end.

(** Lines 19-57: the body of [for pkg in root.findall('.//package')]. *)
Definition add_package (project_filter : option string)
    (results : dict assembly) (pkg : Package) : dict assembly :=
  if contains "Tests" (pkg_name pkg) then results
  else if filtered_out project_filter (pkg_name pkg) then results
  else foldl (add_class (pkg_name pkg)) results (classes pkg).

Definition analyze_coverage (fs : filesystem) (coverage_file : string)
    (project_filter : option string) : result (option (dict assembly)) :=
  if negb (path_exists fs coverage_file) then Ok None
  else
    root ← ET_parse fs coverage_file;
    Ok (Some (foldl (add_package project_filter) [] (packages root))).

(** Lines 71-74: one report added to [all_results]. *)
Definition merge_assembly (all_results : dict assembly)
    (item : string * assembly) : dict assembly :=
  let '(pkg_name, data) := item in
  let d := default empty_assembly (dict_get pkg_name all_results) in
  dict_set pkg_name
    {| a_total := a_total d + a_total data;
       a_covered := a_covered d + a_covered data;
       a_files := a_files d ++ a_files data |}
    all_results.

(** Lines 68-74. *)
Fixpoint collect (fs : filesystem) (coverage_files : list string)
    (all_results : dict assembly) : result (dict assembly) :=
  match coverage_files with
  | [] => Ok all_results
  | coverage_file :: rest =>
      results ← analyze_coverage fs coverage_file None;
      match results with
      | Some ((_ :: _) as results) =>
          collect fs rest (foldl merge_assembly all_results results)
      | _ => collect fs rest all_results
      end
  end.

(** The sort key of line 85, and the order it induces. *)
Definition assembly_key (x : string * assembly) : Q :=
  pct (a_covered (snd x)) (a_total (snd x)).

Definition by_coverage (x y : string * assembly) : bool :=
  Qlt_bool (assembly_key x) (assembly_key y).

(** The order of [key=lambda x: -x['uncovered']] on references. *)
Definition by_uncovered (heap : list file_entry) (r1 r2 : nat) : bool :=
  - f_uncovered (heap !!! r1) <? - f_uncovered (heap !!! r2).

(** The same order on the entries themselves. *)
Definition more_uncovered (x y : file_entry) : bool :=
  - f_uncovered x <? - f_uncovered y.

(** Lines 144-146: [g] after the three [+=] with the values of [f]. *)
Definition add_counts (g f : file_entry) : file_entry :=
  {| f_name := f_name g;
     f_total := f_total g + f_total f;
     f_covered := f_covered g + f_covered f;
     f_uncovered := f_uncovered g + f_uncovered f;
     f_coverage := f_coverage g |}.

(** Lines 136-149: the store after the merge and the references of
    [sorted_files], in order. *)
Definition dedup_files (files : list file_entry) : list file_entry * list nat :=
  let sorted_files := sorted (by_uncovered files) (seq 0 (length files)) in
  let '(heap, seen_files) := dedup_loop f_name add_counts sorted_files files in
  (heap, sorted (by_uncovered heap) (dict_values seen_files)).

(** The entries of [sorted_files] after line 149. *)
Definition sorted_files (files : list file_entry) : list file_entry :=
  let '(heap, refs) := dedup_files files in map (fun r => heap !!! r) refs.

(** Lines 152-155. *)
Definition file_row (f : file_entry) : printed :=
  FileRow (f_name f) (f_coverage f) (f_uncovered f)
    (generated_marker (contains ".g.cs" (f_name f))).

(** Lines 94-111: one row of the overview; the totals are threaded. *)
Definition overview_row (acc : list printed * (Z * Z))
    (x : string * assembly) : list printed * (Z * Z) :=
  let '(out, (total_all, covered_all)) := acc in
  let '(pkg_name, data) := x in
  if a_total data =? 0 then acc
  else
    let coverage := percent (a_covered data) (a_total data) in
    (out ++ [AssemblyRow (status_marker coverage)
               (replace "KeenEyes." "" pkg_name) coverage
               (a_covered data) (a_total data)],
     (total_all + a_total data, covered_all + a_covered data)).

(** Lines 123-155: the detail block of one assembly. *)
Definition detail_block (x : string * assembly) : list printed :=
  let '(pkg_name, data) := x in
  if a_total data =? 0 then []
  else
    let coverage := percent (a_covered data) (a_total data) in
    if Qle_bool 90 coverage then []
    else
      [DetailHead (replace "KeenEyes." "" pkg_name) coverage; Rule "-" 40]
      ++ map file_row (take 10 (sorted_files (a_files data))).

(** Lines 76-160: everything [main] prints once [all_results] is built. *)
Definition report (all_results : dict assembly) : list printed :=
  let sorted_assemblies := sorted by_coverage all_results in
  let '(rows, (total_all, covered_all)) :=
    foldl overview_row ([], (0, 0)) sorted_assemblies in
  [Rule "=" 80; Text "KEENEYES CODE COVERAGE ANALYSIS"; Rule "=" 80; Blank;
   Columns ["Assembly"; "Coverage"; "Lines"]; Rule "-" 75]
  ++ rows
  ++ [Rule "-" 75;
      SummaryRow "OVERALL" (pct covered_all total_all) covered_all total_all;
      Blank;
      Rule "=" 80; Text "ASSEMBLIES BELOW 90% - DETAILS"; Rule "=" 80]
  ++ concat (map detail_block sorted_assemblies)
  ++ [Blank; Rule "=" 80;
      Text "LEGEND: [OK] >= 95%  |  [--] 85-95%  |  [!!] < 85%"; Rule "=" 80].

(** [main], given what [glob] returned. *)
Definition main (fs : filesystem) (coverage_files : list string) : io unit :=
  all_results ← lift (collect fs coverage_files []);
  for_each (report all_results) print.

End analyze_all_coverage.

(** * analyze_project_coverage.py *)

Module analyze_project_coverage.

Definition PROJECT_MAPPING : list (string * string) :=
  [("KeenEyes.Core.Tests", "KeenEyes.Core");
   ("KeenEyes.Physics.Tests", "KeenEyes.Physics");
   ("KeenEyes.UI.Tests", "KeenEyes.UI");
   ("KeenEyes.Animation.Tests", "KeenEyes.Animation");
   ("KeenEyes.Replay.Tests", "KeenEyes.Replay");
   ("KeenEyes.Parallelism.Tests", "KeenEyes.Parallelism");
   ("KeenEyes.Spatial.Tests", "KeenEyes.Spatial");
   ("KeenEyes.Particles.Tests", "KeenEyes.Particles");
   ("KeenEyes.Network.Tests", "KeenEyes.Network");
   ("KeenEyes.Debugging.Tests", "KeenEyes.Debugging");
   ("KeenEyes.Common.Tests", "KeenEyes.Common");
   ("KeenEyes.Logging.Tests", "KeenEyes.Logging");
   ("KeenEyes.Persistence.Tests", "KeenEyes.Persistence");
   ("KeenEyes.Generators.Tests", "KeenEyes.Generators");
   ("KeenEyes.Testing.Tests", "KeenEyes.Testing");
   ("KeenEyes.Graphics.Tests", "KeenEyes.Graphics");
   ("KeenEyes.Input.Abstractions.Tests", "KeenEyes.Input.Abstractions");
   ("KeenEyes.Network.Abstractions.Tests", "KeenEyes.Network.Abstractions")].

(** An element of [uncovered_files]. *)
Record uncovered_file : Type :=
  { u_name : string; u_uncovered : Z; u_coverage : Q; u_generated : bool }.

#[export] Instance uncovered_file_inhabited : Inhabited uncovered_file :=
  populate {| u_name := ""; u_uncovered := 0; u_coverage := 0;
              u_generated := false |}.

(** The dictionary the function returns. *)
Record project_data : Type :=
  { p_total : Z; p_covered : Z; p_coverage : Q;
    p_uncovered_files : list uncovered_file }.

(** The locals [total], [covered], [uncovered_files] of the loops. *)
Definition counters : Type := (Z * Z * list uncovered_file)%type.

(** Lines 49-70: the body of [for cls in pkg.findall('.//class')]. *)
Definition add_class (acc : counters) (cls : Class) : counters :=
  let '(total, covered, uncovered_files) := acc in
  match lines cls with
  | [] => acc
  | _ =>
      let file_total := count_total (lines cls) in
      let file_covered := count_covered (lines cls) in
      let file_uncovered := file_total - file_covered in
      (total + file_total, covered + file_covered,
       if 0 <? file_uncovered
       then uncovered_files ++
            [{| u_name := basename (filename cls);
                u_uncovered := file_uncovered;
                u_coverage := pct file_covered file_total;
                u_generated := contains ".g.cs" (basename (filename cls)) |}]
       else uncovered_files)
  end.

(** Lines 42-70. *)
Definition add_package (target_assembly : string) (acc : counters)
    (pkg : Package) : counters :=
  if negb (contains target_assembly (pkg_name pkg))
     || contains "Tests" (pkg_name pkg)
  then acc
  else foldl add_class acc (classes pkg).

(** The order of [key=lambda x: -x['uncovered']] on references. *)
Definition by_uncovered (heap : list uncovered_file) (r1 r2 : nat) : bool :=
  - u_uncovered (heap !!! r1) <? - u_uncovered (heap !!! r2).

(** The same order on the entries themselves. *)
Definition more_uncovered (x y : uncovered_file) : bool :=
  - u_uncovered x <? - u_uncovered y.

(** Line 81: [g] after [g['uncovered'] += f['uncovered']]. *)
Definition add_uncovered (g f : uncovered_file) : uncovered_file :=
  {| u_name := u_name g;
     u_uncovered := u_uncovered g + u_uncovered f;
     u_coverage := u_coverage g;
     u_generated := u_generated g |}.

(** Lines 75-87: [sorted(file_map.values(), key=...)[:5]]. *)
Definition top_uncovered (uncovered_files : list uncovered_file)
  : list uncovered_file :=
  let '(heap, file_map) :=
    dedup_loop u_name add_uncovered
      (seq 0 (length uncovered_files)) uncovered_files in
  map (fun r => heap !!! r)
    (take 5 (sorted (by_uncovered heap) (dict_values file_map))).

Definition analyze_project_coverage (fs : filesystem)
    (coverage_file target_assembly : string) : result (option project_data) :=
  if negb (path_exists fs coverage_file) then Ok None
  else
    root ← ET_parse fs coverage_file;
    let '(total, covered, uncovered_files) :=
      foldl (add_package target_assembly) (0, 0, []) (packages root) in
    if total =? 0 then Ok None
    else
      Ok (Some {| p_total := total;
                  p_covered := covered;
                  p_coverage := pct covered total;
                  p_uncovered_files := top_uncovered uncovered_files |}).

Definition coverage_path (test_project : string) : string :=
  String.append "tests/"
    (String.append test_project "/bin/Debug/net10.0/TestResults/coverage.xml").

(** Lines 98-106. *)
Fixpoint collect (fs : filesystem) (mapping : list (string * string))
    (results : list (string * project_data))
  : result (list (string * project_data)) :=
  match mapping with
  | [] => Ok results
  | (test_project, source_assembly) :: rest =>
      data ← analyze_project_coverage fs (coverage_path test_project)
               source_assembly;
      match data with
      | Some data =>
          collect fs rest
            (results ++ [(replace "KeenEyes." "" source_assembly, data)])
      | None => collect fs rest results
      end
  end.

Definition by_coverage (x y : string * project_data) : bool :=
  Qlt_bool (p_coverage (snd x)) (p_coverage (snd y)).

(** Lines 117-129. *)
Definition overview_row (acc : list printed * (Z * Z))
    (r : string * project_data) : list printed * (Z * Z) :=
  let '(out, (total_all, covered_all)) := acc in
  let d := snd r in
  (out ++ [ProjectRow (fst r) (p_coverage d) (p_covered d) (p_total d)
             (status_marker (p_coverage d))],
   (total_all + p_total d, covered_all + p_covered d)).

(** Lines 152-158: the rows of one project and [generated_uncovered]. *)
Definition file_rows (fs : list uncovered_file) : list printed * Z :=
  foldl (fun acc f =>
           (fst acc ++ [UncoveredRow (u_name f) (u_uncovered f)
                          (generated_marker (u_generated f))],
            if u_generated f then snd acc + u_uncovered f else snd acc))
        ([], 0) fs.

(** Lines 141-161. *)
Definition detail_block (r : string * project_data) : list printed :=
  let d := snd r in
  if Qle_bool 95 (p_coverage d) then []
  else
    let '(rows, generated_uncovered) := file_rows (p_uncovered_files d) in
    [DetailHead (fst r) (p_coverage d); Rule "-" 50] ++ rows
    ++ (if 0 <? generated_uncovered
        then [GeneratedNote generated_uncovered] else []).

Definition report (results : list (string * project_data)) : list printed :=
  let results := sorted by_coverage results in
  let '(rows, (total_all, covered_all)) :=
    foldl overview_row ([], (0, 0)) results in
  [Columns ["Project"; "Coverage"; "Lines"; "Status"]; Rule "-" 70]
  ++ rows
  ++ [Rule "-" 70;
      SummaryRow "TOTAL" (pct covered_all total_all) covered_all total_all;
      Blank; Rule "=" 80; Text "PROJECTS BELOW 95% - TOP UNCOVERED FILES";
      Rule "=" 80]
  ++ concat (map detail_block results)
  ++ [Blank; Rule "=" 80;
      Text "LEGEND: [OK] >= 95%  |  [--] 85-95%  |  [!!] < 85%"; Rule "=" 80].

(** [main]: the banner is printed before the first file is read. *)
Definition main_with (fs : filesystem) (mapping : list (string * string))
  : io unit :=
  for_each [Rule "=" 80; Text "KEENEYES PER-PROJECT CODE COVERAGE";
            Rule "=" 80; Blank] print ;;
  results ← lift (collect fs mapping []);
  for_each (report results) print.

Definition main (fs : filesystem) : io unit := main_with fs PROJECT_MAPPING.

End analyze_project_coverage.

(** [parts[1]] of [f.replace('\\', '/').split('/')] *)
Definition backslash : string := String (ascii_of_nat 92) EmptyString.

Definition path_parts (f : string) : list string :=
  split_slash (replace backslash "/" f).

Definition second_part (f : string) : result string :=
  match path_parts f with
  | _ :: p :: _ => Ok p
  | _ => Raise IndexError
  end.

(** * check_coverage.py *)

Module check_coverage.

(** Lines 6-15: the body of the loop over the globbed files. *)
Definition step (fs : filesystem) (results : list (string * Q)) (f : string)
  : io (list (string * Q)) :=
  parts1 ← lift (second_part f);
  let proj := replace ".Tests" "" parts1 in
  try_except
    (root ← lift (ET_parse fs f);
     let rate := line_rate root in
     mret (results ++ [(proj, (rate * 100)%Q)]))
    (fun e => print (ErrorLine f e) ;; mret results).

Fixpoint loop (fs : filesystem) (files : list string)
    (results : list (string * Q)) : io (list (string * Q)) :=
  match files with
  | [] => mret results
  | f :: rest => results ← step fs results f; loop fs rest results
  end.

Definition by_pct (x y : string * Q) : bool := Qlt_bool (snd x) (snd y).

Definition bar_row (x : string * Q) : printed :=
  BarRow (fst x) (snd x) (Qtrunc (snd x / 5)).

(** The whole script, given what [glob] returned. *)
Definition main (fs : filesystem) (files : list string) : io unit :=
  results ← loop fs files [];
  let results := sorted by_pct results in
  print (Text "Coverage by Project (lowest first):") ;;
  print (Rule "=" 50) ;;
  for_each results (fun x => print (bar_row x)) ;;
  print (Rule "=" 50).

End check_coverage.

(** * check_coverage_detailed.py *)

Module check_coverage_detailed.

(** Lines 18-24: the lines of a package and those that were hit. *)
Definition count_package (package : Package) : Z * Z :=
  foldl (fun acc cls =>
           foldl (fun acc line =>
                    (fst acc + 1,
                     if is_hit line then snd acc + 1 else snd acc))
                 acc (lines cls))
        (0, 0) (classes package).

(** Lines 13-27: the body of [for package in root.findall('.//package')]. *)
Definition package_rows (package : Package) : list printed :=
  let name := pkg_name package in
  let rate := (pkg_line_rate package * 100)%Q in
  if contains "KeenEyes" name && negb (contains ".Tests" name) then
    let '(lines_valid, lines_covered) := count_package package in
    if 0 <? lines_valid
    then [PackageRow name (percent lines_covered lines_valid)
            lines_covered lines_valid]
    else []
  else [].

(** Lines 5-29: the body of the loop over the globbed files. *)
Definition step (fs : filesystem) (f : string) : io unit :=
  test_proj ← lift (second_part f);
  print (ProjectHead test_proj) ;;
  print (Rule "-" 60) ;;
  try_except
    (root ← lift (ET_parse fs f);
     for_each (concat (map package_rows (packages root))) print)
    (fun e => print (ErrorOnly e)).

Definition main (fs : filesystem) (files : list string) : io unit :=
  for_each files (step fs).

End check_coverage_detailed.

(** * find_uncovered.py *)

Module find_uncovered.

Definition default_coverage_file : string :=
  "tests/KeenEyes.Network.Abstractions.Tests/bin/Debug/net10.0/TestResults/coverage.xml".

Definition default_target_assembly : string := "KeenEyes.Network.Abstractions".

(** Lines 20-29: [total], [covered] and [uncovered_lines] of a class. *)
Definition count_class (cls : Class) : Z * Z * list string :=
  foldl (fun acc line =>
           let '(total, covered, uncovered_lines) := acc in
           if is_hit line then (total + 1, covered + 1, uncovered_lines)
           else (total + 1, covered, uncovered_lines ++ [number line]))
        (0, 0, []) (lines cls).

(** [filename.split('/')[-1] if filename else ''] *)
Definition short_file (filename : string) : string :=
  if String.eqb filename "" then ""
  else List.last (split_slash filename) "".

(** Lines 15-39: the body of [for cls in package.findall('.//class')]. *)
Definition class_rows (cls : Class) : list printed :=
  let filename := replace backslash "/" (filename cls) in
  let '(total, covered, uncovered_lines) := count_class cls in
  if 0 <? total then
    let rate := percent covered total in
    if Qlt_bool rate 100 then
      [ClassHead (cls_name cls) (short_file filename);
       ClassCoverageRow rate covered total (total - covered)]
      ++ (match uncovered_lines with
          | [] => []
          | _ => if (length uncovered_lines <=? 20)%nat
                 then [UncoveredLines (take 20 uncovered_lines)] else []
          end)
    else []
  else [].

(** Lines 10-39: the body of [for package in root.findall('.//package')]. *)
Definition package_rows (target_assembly : string) (package : Package)
  : list printed :=
  if String.eqb (pkg_name package) target_assembly
  then [TargetHead (pkg_name package); Rule "=" 70]
       ++ concat (map class_rows (classes package))
  else [].

(** The script; [argv] is [sys.argv[1:]]. *)
Definition main (fs : filesystem) (argv : list string) : io unit :=
  let coverage_file := nth 0 argv default_coverage_file in
  let target_assembly := nth 1 argv default_target_assembly in
  root ← lift (ET_parse fs coverage_file);
  for_each (concat (map (package_rows target_assembly) (packages root))) print.

End find_uncovered.

(** * analyze_core_detailed.py *)

Module analyze_core_detailed.

Definition coverage_path : string :=
  "tests/KeenEyes.Core.Tests/bin/Debug/net10.0/TestResults/coverage-core.xml".

(** Line 11 and line 37. *)
Definition selected (name : string) : bool :=
  contains "KeenEyes.Core" name && negb (contains "Tests" name).

(** Lines 14-25: a tuple [(coverage, uncovered, basename)], if appended. *)
Definition class_tuple (cls : Class) : list (Q * Z * string) :=
  match lines cls with
  | [] => []
  | _ =>
      let total := count_total (lines cls) in
      let covered := count_covered (lines cls) in
      let uncovered := total - covered in
      let coverage := pct covered total in
      if (0 <? uncovered) && Qlt_bool coverage 100
      then [(coverage, uncovered, basename (filename cls))]
      else []
  end.

(** The order of [key=lambda x: (x[0], -x[1])]: tuples compare
    lexicographically. *)
Definition by_key (x y : Q * Z * string) : bool :=
  let '(cx, ux, _) := x in
  let '(cy, uy, _) := y in
  Qlt_bool cx cy || (Qeq_bool cx cy && (- ux <? - uy)).

Definition class_data (pkg : Package) : list (Q * Z * string) :=
  sorted by_key (concat (map class_tuple (classes pkg))).

(** Lines 9-30: the body of the first [for pkg in packages]. *)
Definition package_rows (pkg : Package) : list printed :=
  if selected (pkg_name pkg) then
    Text "Classes needing coverage improvement (sorted by coverage %, then by uncovered lines):"
    :: map (fun '(cov, uncov, fname) => FileRow fname cov uncov "")
         (take 25 (class_data pkg))
  else [].

(** Lines 33-42: [total_lines] and [covered_lines]. *)
Definition overall_counts (packages : list Package) : Z * Z :=
  foldl (fun acc pkg =>
           if selected (pkg_name pkg) then
             foldl (fun acc cls =>
                      foldl (fun acc line =>
                               (fst acc + 1,
                                if is_hit line then snd acc + 1 else snd acc))
                            acc (lines cls))
                   acc (classes pkg)
           else acc)
        (0, 0) packages.

(** [int(total_lines * 0.95)] *)
Definition target_lines (total_lines : Z) : Z :=
  Qtrunc (inject_Z total_lines * (95 # 100)).

Definition main (fs : filesystem) : io unit :=
  root ← lift (ET_parse fs coverage_path);
  let packages := packages root in
  for_each (concat (map package_rows packages)) print ;;
  let '(total_lines, covered_lines) := overall_counts packages in
  overall ← lift (pct_unguarded covered_lines total_lines);
  print (OverallLine covered_lines total_lines overall) ;;
  print (NeedLine (target_lines total_lines - covered_lines)).

End analyze_core_detailed.

(** * The aggregates, as the specification words them

    The definitions below do not follow the code: they say which
    [ClassCoverage] entries of the input a [FileAggregate] is about, so that
    what the scripts compute can be compared with it. *)

Module aggregates.
Import analyze_all_coverage.

(** What [all_results] holds for a package ([empty_assembly] if nothing). *)
Definition asm_of (pkg : string) (d : dict assembly) : assembly :=
  default empty_assembly (dict_get pkg d).

Definition files_of (pkg : string) (d : dict assembly) : list file_entry :=
  a_files (asm_of pkg d).

(** Two accumulations, one after the other. *)
Definition asm_app (a b : assembly) : assembly :=
  {| a_total := a_total a + a_total b;
     a_covered := a_covered a + a_covered b;
     a_files := a_files a ++ a_files b |}.

(** A [ClassCoverage] with at least one line entry: its base name and its
    counts. *)
Definition class_occurrence (cls : Class) : list file_entry :=
  match lines cls with
  | [] => []
  | _ => [class_entry (filename cls) (count_total (lines cls))
            (count_covered (lines cls))]
  end.

(** The occurrences in the packages named [pkg] of one report, of all the
    reports read.  Test assemblies are excluded. *)
Definition package_occurrences (pkg : string) (p : Package) : list file_entry :=
  if negb (contains "Tests" (pkg_name p)) && String.eqb pkg (pkg_name p)
  then concat (map class_occurrence (classes p))
  else [].

Definition report_occurrences (pkg : string) (root : CoverageReport)
  : list file_entry :=
  concat (map (package_occurrences pkg) (packages root)).

Definition file_occurrences (fs : filesystem) (pkg : string) (f : string)
  : list file_entry :=
  match fs f with
  | Xml root => report_occurrences pkg root
  | _ => []
  end.

Definition occurrences (fs : filesystem) (coverage_files : list string)
    (pkg : string) : list file_entry :=
  concat (map (file_occurrences fs pkg) coverage_files).

(** The occurrence has a line that was not hit. *)
Definition has_uncovered (e : file_entry) : bool := f_covered e <? f_total e.

(** The [AssemblyAggregate] of a list of occurrences: the counts are summed
    and the occurrences with a line that was not hit are listed. *)
Definition asm_spec (occs : list file_entry) : assembly :=
  {| a_total := sum_of f_total occs;
     a_covered := sum_of f_covered occs;
     a_files := List.filter has_uncovered occs |}.

(** The [FileAggregate] of [n] in the detail view of an assembly: its
    [total], [covered] and [uncovered]. *)
Definition file_aggregate (files : list file_entry) (n : string)
  : option (Z * Z * Z) :=
  match named f_name n (sorted_files files) with
  | e :: _ => Some (f_total e, f_covered e, f_uncovered e)
  | [] => None
  end.

(** The order that "descending by uncovered line count, ties broken by
    coverage percentage ascending" describes. *)
Definition claimed_before (x y : file_entry) : Prop :=
  f_uncovered y < f_uncovered x
  \/ (f_uncovered x = f_uncovered y /\ (f_coverage x <= f_coverage y)%Q).

(** The counts of an assembly are ordered and its entries carry
    percentages. *)
Definition assembly_ok (data : assembly) : Prop :=
  0 <= a_covered data <= a_total data
  /\ Forall (fun e => in_range (f_coverage e)) (a_files data).

(** The sums over a list of occurrences, if there are any. *)
Definition summed (l : list file_entry) : option (Z * Z * Z) :=
  match l with
  | [] => None
  | _ => Some (sum_of f_total l, sum_of f_covered l, sum_of f_uncovered l)
  end.

End aggregates.

(** * The input without its test assemblies *)

(** ['Tests' in pkg_name] *)
Definition is_test_assembly (p : Package) : bool :=
  contains "Tests" (pkg_name p).

Definition without_tests (ps : list Package) : list Package :=
  List.filter (fun p => negb (is_test_assembly p)) ps.

Definition strip_tests (x : file) : file :=
  match x with
  | Xml root =>
      Xml {| line_rate := line_rate root;
             packages := without_tests (packages root) |}
  | _ => x
  end.

(** The same files, the packages of test assemblies removed from each
    report. *)
Definition without_test_assemblies (fs : filesystem) : filesystem :=
  fun p => strip_tests (fs p).

(** * Concrete inputs *)

Module scenarios.

(** [hit] lines that were executed, then [miss] lines that were not. *)
Definition some_lines (hit miss : nat) : list Line :=
  repeat {| number := "1"; hits := 1 |} hit
  ++ repeat {| number := "2"; hits := 0 |} miss.

Definition one_class (file : string) (hit miss : nat) : Class :=
  {| cls_name := "C"; filename := file; lines := some_lines hit miss |}.

Definition one_package (name : string) (cs : list Class) : CoverageReport :=
  {| line_rate := 1;
     packages := [{| pkg_name := name; pkg_line_rate := 1; classes := cs |}] |}.

(** Two reports of package "Sample": "A.cs" with 10 lines of 10 hit in the
    first, with 5 lines of 10 hit in the second. *)
Definition run1 : string := "tests/One.Tests/TestResults/coverage.xml".
Definition run2 : string := "tests/Two.Tests/TestResults/coverage.xml".

Definition two_runs : filesystem :=
  fun p =>
    if String.eqb p run1 then Xml (one_package "Sample" [one_class "src/A.cs" 10 0])
    else if String.eqb p run2 then Xml (one_package "Sample" [one_class "src/A.cs" 5 5])
    else Absent.

(** One report: "A.cs" with 5 lines of 10 hit, then "B.cs" with none of
    its 5 lines hit.  Both have 5 uncovered lines. *)
Definition tie : filesystem :=
  fun p =>
    if String.eqb p run1
    then Xml (one_package "Sample"
                [one_class "src/A.cs" 5 5; one_class "src/B.cs" 0 5])
    else Absent.

(** Two reports of package "Sample": "A.cs" with 5 of 10 lines hit in the
    first and 8 of 10 in the second. *)
Definition two_partial : filesystem :=
  fun p =>
    if String.eqb p run1 then Xml (one_package "Sample" [one_class "src/A.cs" 5 5])
    else if String.eqb p run2 then Xml (one_package "Sample" [one_class "src/A.cs" 8 2])
    else Absent.

(** A file that is not XML, next to a well-formed report. *)
Definition one_bad : filesystem :=
  fun p =>
    if String.eqb p run1 then Garbage
    else if String.eqb p run2 then Xml (one_package "Sample" [one_class "src/A.cs" 5 5])
    else Absent.

(** A report about a test assembly only. *)
Definition tests_only : filesystem :=
  fun p =>
    if String.eqb p run1
    then Xml (one_package "Sample.Tests" [one_class "test/T.cs" 1 1])
    else Absent.

(** A report about an assembly whose name holds "Tests" but not ".Tests". *)
Definition integration_tests : filesystem :=
  fun p =>
    if String.eqb p run1
    then Xml (one_package "KeenEyes.IntegrationTests"
                [one_class "test/T.cs" 1 1])
    else Absent.

(** No file at all. *)
Definition nothing : filesystem := fun _ => Absent.

(** The report of [analyze_core_detailed] holds no line of KeenEyes.Core. *)
Definition core_empty : filesystem :=
  fun p =>
    if String.eqb p analyze_core_detailed.coverage_path
    then Xml (one_package "Sample" [one_class "src/A.cs" 5 5])
    else Absent.

(** Two entries named "A.cs" in one assembly: 5 of 10 and 8 of 10 lines hit. *)
Definition twice : filesystem :=
  fun p =>
    if String.eqb p run1
    then Xml (one_package "Sample"
                [one_class "src/A.cs" 5 5; one_class "gen/A.cs" 8 2])
    else Absent.

(** What [analyze_project_coverage] returns for [twice]. *)
Definition twice_data : analyze_project_coverage.project_data :=
  {| analyze_project_coverage.p_total := 20;
     analyze_project_coverage.p_covered := 13;
     analyze_project_coverage.p_coverage := 65;
     analyze_project_coverage.p_uncovered_files :=
       [{| analyze_project_coverage.u_name := "A.cs";
           analyze_project_coverage.u_uncovered := 7;
           analyze_project_coverage.u_coverage := 50;
           analyze_project_coverage.u_generated := false |}] |}.

(** [all_results] of [analyze_all_coverage.main] for a list of files. *)
Definition all_results_of (fs : filesystem) (coverage_files : list string)
  : dict analyze_all_coverage.assembly :=
  match analyze_all_coverage.collect fs coverage_files [] with
  | Ok all_results => all_results
  | Raise _ => []
  end.

End scenarios.

(** * What the results of analyze_all_coverage satisfy *)

Module invariants.
Import analyze_all_coverage.

(** An entry of [data['files']], as lines 47-57 build it. *)
Definition entry_inv (e : file_entry) : Prop :=
  contains "/" (f_name e) = false
  /\ 0 <= f_covered e
  /\ 1 <= f_uncovered e
  /\ f_uncovered e = f_total e - f_covered e
  /\ f_coverage e = pct (f_covered e) (f_total e).

(** The counts of an accumulation and its entries. *)
Definition counts_inv (a : assembly) : Prop :=
  0 <= a_covered a <= a_total a
  /\ sum_of f_uncovered (a_files a) = a_total a - a_covered a
  /\ Forall entry_inv (a_files a).

(** A value of [results] or of [all_results]. *)
Definition assembly_inv (a : assembly) : Prop := 1 <= a_total a /\ counts_inv a.

(** Line 111: the row of an assembly. *)
Definition assembly_row (x : string * assembly) : printed :=
  AssemblyRow (status_marker (percent (a_covered x.2) (a_total x.2)))
    (replace "KeenEyes." "" x.1) (percent (a_covered x.2) (a_total x.2))
    (a_covered x.2) (a_total x.2).

Definition is_assembly_row (p : printed) : bool :=
  match p with
  | AssemblyRow _ _ _ _ _ => true
  | _ => false
  end.

Definition is_summary_row (p : printed) : bool :=
  match p with
  | SummaryRow _ _ _ _ => true
  | _ => false
  end.

Definition is_detail_head (p : printed) : bool :=
  match p with
  | DetailHead _ _ => true
  | _ => false
  end.

(** The percentages of the assembly rows of an output, in order. *)
Definition row_coverages (out : list printed) : list Q :=
  omap (fun p => match p with
                 | AssemblyRow _ _ coverage _ _ => Some coverage
                 | _ => None
                 end) out.

(** The fixed lines of the report. *)
Definition report_head : list printed :=
  [Rule "=" 80; Text "KEENEYES CODE COVERAGE ANALYSIS"; Rule "=" 80; Blank;
   Columns ["Assembly"; "Coverage"; "Lines"]; Rule "-" 75].

Definition report_middle (covered_all total_all : Z) : list printed :=
  [Rule "-" 75;
   SummaryRow "OVERALL" (pct covered_all total_all) covered_all total_all;
   Blank;
   Rule "=" 80; Text "ASSEMBLIES BELOW 90% - DETAILS"; Rule "=" 80].

Definition report_foot : list printed :=
  [Blank; Rule "=" 80;
   Text "LEGEND: [OK] >= 95%  |  [--] 85-95%  |  [!!] < 85%"; Rule "=" 80].

(** The locals of analyze_project_coverage after some classes. *)
Definition counters_inv (acc : analyze_project_coverage.counters) : Prop :=
  let '(total, covered, uncovered_files) := acc in
  0 <= covered <= total
  /\ sum_of analyze_project_coverage.u_uncovered uncovered_files
     = total - covered
  /\ Forall (fun u =>
               contains "/" (analyze_project_coverage.u_name u) = false
               /\ 1 <= analyze_project_coverage.u_uncovered u
               /\ analyze_project_coverage.u_generated u
                  = contains ".g.cs" (analyze_project_coverage.u_name u)
               /\ in_range (analyze_project_coverage.u_coverage u))
       uncovered_files.

(** The banner of analyze_project_coverage. *)
Definition project_banner : list printed :=
  [Rule "=" 80; Text "KEENEYES PER-PROJECT CODE COVERAGE"; Rule "=" 80; Blank].

End invariants.

(** * What check_coverage and check_coverage_detailed print per file *)

Module per_file.

(** The error line of a file that does not parse. *)
Definition error_line (fs : filesystem) (f : string) : list printed :=
  match fs f with
  | Xml _ => []
  | Garbage => [ErrorLine f ParseError]
  | Absent => [ErrorLine f FileNotFoundError]
  end.

(** The project and percentage of a file that parses. *)
Definition project_rate (fs : filesystem) (f : string) : list (string * Q) :=
  match fs f, second_part f with
  | Xml root, Ok part =>
      [(replace ".Tests" "" part, (line_rate root * 100)%Q)]
  | _, _ => []
  end.

(** The lines of check_coverage_detailed for one file. *)
Definition detailed_block (fs : filesystem) (f : string) : list printed :=
  match second_part f with
  | Ok test_proj =>
      [ProjectHead test_proj; Rule "-" 60]
      ++ match fs f with
         | Xml root =>
             concat (map check_coverage_detailed.package_rows (packages root))
         | Garbage => [ErrorOnly ParseError]
         | Absent => [ErrorOnly FileNotFoundError]
         end
  | Raise _ => []
  end.

Definition is_package_row (p : printed) : bool :=
  match p with
  | PackageRow _ _ _ _ => true
  | _ => false
  end.

(** The numbers of the lines of a class that were not hit, in order. *)
Definition unhit_numbers (ls : list Line) : list string :=
  map number (List.filter (fun l => negb (is_hit l)) ls).

End per_file.

(** * Facts about the building blocks *)

(** ** [sorted] *)

Section SortedFacts.
Context {A : Type} (lt : A -> A -> bool).

Lemma insert_sorted_perm (x : A) (l : list A) :
  insert_sorted lt x l ≡ₚ x :: l.
Proof.
  induction l as [|y l IH]; simpl; [done|].
  destruct (lt y x); [|done].
  rewrite IH. apply Permutation_swap.
Qed.

Lemma sorted_perm (l : list A) : sorted lt l ≡ₚ l.
Proof.
  induction l as [|x l IH]; simpl; [done|].
  rewrite insert_sorted_perm. by rewrite IH.
Qed.

Lemma sorted_length (l : list A) : length (sorted lt l) = length l.
Proof. by rewrite (sorted_perm l). Qed.

Hypothesis lt_asym : forall x y, lt x y = true -> lt y x = false.
Hypothesis le_trans : forall x y z, le_of lt x y -> le_of lt y z -> le_of lt x z.

Lemma insert_sorted_ordered (x : A) (l : list A) :
  StronglySorted (le_of lt) l -> StronglySorted (le_of lt) (insert_sorted lt x l).
Proof.
  induction 1 as [|y l Hl IH Hy]; simpl.
  - repeat constructor.
  - destruct (lt y x) eqn:Hyx.
    + constructor; [done|].
      rewrite (insert_sorted_perm x l). constructor; [|done].
      by apply lt_asym.
    + constructor; [by constructor|]. constructor; [done|].
      eapply Forall_impl; [exact Hy|]. intros z Hz. by eapply le_trans.
Qed.

Lemma sorted_ordered (l : list A) : StronglySorted (le_of lt) (sorted lt l).
Proof.
  induction l as [|x l IH]; simpl; [constructor|].
  by apply insert_sorted_ordered.
Qed.

Lemma insert_sorted_stable (a x : A) (l : list A) :
  List.filter (tied lt a) (insert_sorted lt x l) = List.filter (tied lt a) (x :: l).
Proof.
  induction l as [|y l IH]; [done|].
  cbn [insert_sorted]. destruct (lt y x) eqn:Hyx; [|done].
  cbn [List.filter] in *. rewrite IH.
  destruct (tied lt a x) eqn:Hax, (tied lt a y) eqn:Hay; try done.
  exfalso. unfold tied in *.
  apply andb_prop in Hax as [Hax1 Hax2], Hay as [Hay1 Hay2].
  apply negb_true_iff in Hax1, Hax2, Hay1, Hay2.
  assert (le_of lt x y) as Hxy by (eapply le_trans; [exact Hax1 | exact Hay2]).
  unfold le_of in Hxy. congruence.
Qed.

(** Stability: entries with equal keys keep their input order. *)
Lemma sorted_stable (a : A) (l : list A) :
  List.filter (tied lt a) (sorted lt l) = List.filter (tied lt a) l.
Proof.
  induction l as [|x l IH]; [done|].
  cbn [sorted foldr]. rewrite insert_sorted_stable.
  cbn [List.filter]. fold (sorted lt l). by rewrite IH.
Qed.

End SortedFacts.

(** Sorting references by the key of what they point to is sorting the
    objects. *)
Lemma sorted_map {A B} (f : A -> B) (lt : B -> B -> bool) (l : list A) :
  map f (sorted (fun a b => lt (f a) (f b)) l) = sorted lt (map f l).
Proof.
  induction l as [|x l IH]; [done|].
  cbn [sorted foldr map]. fold (sorted (fun a b => lt (f a) (f b)) l).
  fold (sorted lt (map f l)). rewrite <- IH.
  generalize (sorted (fun a b => lt (f a) (f b)) l) as s.
  induction s as [|y s IHs]; [done|].
  simpl. destruct (lt (f y) (f x)); simpl; [by rewrite IHs|done].
Qed.

(** ** Dictionaries *)

Lemma dict_get_set {V} (k k' : string) (v : V) (d : dict V) :
  dict_get k (dict_set k' v d) = if String.eqb k k' then Some v else dict_get k d.
Proof.
  induction d as [|[k0 v0] d IH]; cbn [dict_get dict_set].
  - done.
  - destruct (String.eqb k' k0) eqn:E0; cbn [dict_get].
    + apply String.eqb_eq in E0 as ->. by destruct (String.eqb k k0).
    + rewrite IH. destruct (String.eqb k k0) eqn:E1; [|done].
      apply String.eqb_eq in E1 as ->. by rewrite String.eqb_sym, E0.
Qed.

Lemma dict_set_fresh {V} (k : string) (v : V) (d : dict V) :
  dict_get k d = None -> dict_set k v d = d ++ [(k, v)].
Proof.
  induction d as [|[k0 v0] d IH]; cbn [dict_get dict_set app]; [done|].
  destruct (String.eqb k k0); [done|]. intros Hd. by rewrite IH.
Qed.

(** ** The merge loop computes [merged] *)

Section DedupFacts.
Context {E : Type} `{Inhabited E}.
Context (name : E -> string) (add : E -> E -> E).
Hypothesis name_add : forall g f, name (add g f) = name g.

Lemma lookup_values_insert_fresh (heap : list E) (rs : list nat) r x :
  r ∉ rs -> map (fun r' => <[r:=x]> heap !!! r') rs = map (fun r' => heap !!! r') rs.
Proof.
  intros Hr. apply map_ext_in. intros r' Hr'.
  apply list_lookup_total_insert_ne. intros ->. by apply Hr, list_elem_of_In.
Qed.

Lemma dict_values_cons {V} (k : string) (v : V) (d : dict V) :
  dict_values ((k, v) :: d) = v :: dict_values d.
Proof. done. Qed.

Lemma merge_into_seen (heap : list E) (seen : dict nat) (f : E) (r0 : nat) :
  seen_ok name heap seen -> dict_get (name f) seen = Some r0 ->
  r0 ∈ dict_values seen /\
  merge_into name add f (map (fun r' => heap !!! r') (dict_values seen))
  = map (fun r' => <[r0:=add (heap !!! r0) f]> heap !!! r') (dict_values seen).
Proof.
  intros [Hkeys Hnd]. revert Hkeys Hnd.
  induction seen as [|[k r1] seen IH]; intros Hkeys Hnd Hget; [done|].
  cbn [dict_get] in Hget. rewrite dict_values_cons in *.
  apply Forall_cons in Hkeys as [[Hk Hr1] Hkeys].
  apply NoDup_cons in Hnd as [Hr1nin Hnd]. cbn [fst snd] in Hk, Hr1.
  cbn [map merge_into].
  destruct (String.eqb (name f) k) eqn:Ek.
  - injection Hget as <-. split; [left|].
    rewrite <- Hk, Ek.
    rewrite list_lookup_total_insert_eq by done.
    by rewrite lookup_values_insert_fresh.
  - destruct (IH Hkeys Hnd Hget) as [Hin Heq]. split; [by right|].
    rewrite <- Hk, Ek, Heq.
    rewrite list_lookup_total_insert_ne; [done|].
    by intros <-.
Qed.

Lemma merge_into_fresh (heap : list E) (seen : dict nat) (f : E) :
  seen_ok name heap seen -> dict_get (name f) seen = None ->
  merge_into name add f (map (fun r' => heap !!! r') (dict_values seen))
  = map (fun r' => heap !!! r') (dict_values seen) ++ [f].
Proof.
  intros [Hkeys _]. revert Hkeys.
  induction seen as [|[k r1] seen IH]; intros Hkeys Hget; [done|].
  cbn [dict_get] in Hget. rewrite dict_values_cons.
  apply Forall_cons in Hkeys as [[Hk Hr1] Hkeys]. cbn [fst snd] in Hk.
  cbn [map merge_into app]. rewrite <- Hk.
  destruct (String.eqb (name f) k); [done|]. by rewrite IH.
Qed.

Lemma dedup_step_merge (heap : list E) (seen : dict nat) (r : nat) :
  seen_ok name heap seen -> r ∉ dict_values seen -> (r < length heap)%nat ->
  let '(heap', seen') := dedup_step name add (heap, seen) r in
  map (fun r' => heap' !!! r') (dict_values seen')
  = merge_into name add (heap !!! r) (map (fun r' => heap !!! r') (dict_values seen))
  /\ seen_ok name heap' seen'
  /\ length heap' = length heap
  /\ (forall r', r' ∉ dict_values seen -> heap' !!! r' = heap !!! r')
  /\ dict_values seen' ⊆ r :: dict_values seen
  /\ dict_values seen ⊆ dict_values seen'.
Proof.
  intros Hok Hr Hlt. unfold dedup_step.
  set (f := heap !!! r).
  destruct (dict_get (name f) seen) as [r0|] eqn:Hget.
  - (* the name was seen: the first object with that name is updated *)
    destruct (merge_into_seen heap seen f r0 Hok Hget) as [Hin Heq].
    destruct Hok as [Hkeys Hnd].
    split; [by rewrite Heq|].
    split; [|split; [apply length_insert|split; [|split; [|done]]]].
    + split; [|done]. eapply Forall_impl; [exact Hkeys|].
      intros [k r1] [Hk Hr1]; cbn [fst snd] in *. rewrite length_insert.
      split; [|done].
      destruct (decide (r0 = r1)) as [->|Hne].
      * rewrite list_lookup_total_insert_eq by done. by rewrite name_add.
      * by rewrite list_lookup_total_insert_ne.
    + intros r' Hr'. apply list_lookup_total_insert_ne. by intros ->.
    + by apply list_subseteq_cons.
  - (* a new name: the object is referenced last *)
    rewrite (dict_set_fresh _ _ _ Hget).
    assert (dict_values (seen ++ [(name f, r)]) = dict_values seen ++ [r]) as ->.
    { unfold dict_values. by rewrite map_app. }
    rewrite map_app. cbn [map].
    split; [by rewrite merge_into_fresh|].
    destruct Hok as [Hkeys Hnd].
    split; [|split; [done|split; [done|split]]].
    + split.
      * apply Forall_app. split; [done|]. by repeat constructor.
      * assert (dict_values (seen ++ [(name f, r)]) = dict_values seen ++ [r]) as ->.
        { unfold dict_values. by rewrite map_app. }
        apply NoDup_app. split; [done|].
        split; [|apply NoDup_singleton].
        intros x Hx ->%list_elem_of_singleton. done.
    + intros x [Hx| ->%list_elem_of_singleton]%elem_of_app; [by right|left].
    + intros x Hx. apply elem_of_app. by left.
Qed.

Lemma dedup_loop_merged_gen (rs : list nat) (heap : list E) (seen : dict nat) :
  NoDup rs -> Forall (fun r => (r < length heap)%nat) rs ->
  seen_ok name heap seen ->
  (forall r, r ∈ rs -> r ∉ dict_values seen) ->
  let '(heap', seen') := foldl (dedup_step name add) (heap, seen) rs in
  map (fun r' => heap' !!! r') (dict_values seen')
  = foldl (fun acc f => merge_into name add f acc)
      (map (fun r' => heap !!! r') (dict_values seen))
      (map (fun r' => heap !!! r') rs)
  /\ length heap' = length heap
  /\ (forall r', r' ∉ dict_values seen' -> heap' !!! r' = heap !!! r')
  /\ dict_values seen' ⊆ rs ++ dict_values seen
  /\ dict_values seen ⊆ dict_values seen'
  /\ seen_ok name heap' seen'.
Proof.
  revert heap seen. induction rs as [|r rs IH]; intros heap seen Hnd Hlt Hok Hfresh.
  - simpl. repeat split; try done. apply Hok. apply Hok.
  - apply NoDup_cons in Hnd as [Hr Hnd]. apply Forall_cons in Hlt as [Hr_lt Hlt].
    cbn [foldl map].
    pose proof (dedup_step_merge heap seen r Hok) as Hstep.
    destruct (dedup_step name add (heap, seen) r) as [heap1 seen1].
    destruct Hstep as (Hmap & Hok1 & Hlen & Hframe & Hsub & Hmono);
      [apply Hfresh; left|done|].
    specialize (IH heap1 seen1 Hnd).
    destruct (foldl (dedup_step name add) (heap1, seen1) rs) as [heap' seen'].
    destruct IH as (Hmap' & Hlen' & Hframe' & Hsub' & Hmono' & Hok').
    { by rewrite Hlen. }
    { done. }
    { intros r' Hr' Hin. apply Hsub in Hin.
      apply elem_of_cons in Hin as [->|Hin]; [done|].
      eapply Hfresh; [right; exact Hr'|done]. }
    assert (forall r', r' ∈ rs -> heap1 !!! r' = heap !!! r') as Hrs.
    { intros r' Hr'. apply Hframe. apply Hfresh. by right. }
    split; [|split; [congruence|split; [|split; [|split; [|done]]]]].
    + rewrite Hmap', Hmap. f_equal.
      apply map_ext_in. intros r' Hr'. apply Hrs. by apply list_elem_of_In.
    + intros r' Hr'. rewrite Hframe' by done. apply Hframe.
      intros Hin. apply Hr'. by apply Hmono', Hmono.
    + intros x Hx. apply Hsub' in Hx.
      apply elem_of_app in Hx as [Hx|Hx]; [right; by apply elem_of_app; left|].
      apply Hsub in Hx. apply elem_of_cons in Hx as [->|Hx]; [left|].
      right. apply elem_of_app. by right.
    + intros x Hx. by apply Hmono', Hmono.
Qed.
Lemma dedup_loop_merged (rs : list nat) (heap heap' : list E) (seen' : dict nat) :
  NoDup rs -> Forall (fun r => (r < length heap)%nat) rs ->
  dedup_loop name add rs heap = (heap', seen') ->
  map (fun r' => heap' !!! r') (dict_values seen')
  = merged name add (map (fun r' => heap !!! r') rs)
  /\ length heap' = length heap
  /\ (forall r', r' ∉ dict_values seen' -> heap' !!! r' = heap !!! r')
  /\ dict_values seen' ⊆ rs
  /\ seen_ok name heap' seen'.
Proof.
  intros Hnd Hlt Hloop. unfold dedup_loop in Hloop. unfold merged.
  assert (seen_ok name heap []) as Hok0.
  { split; [constructor|]. unfold dict_values. simpl. constructor. }
  assert (forall r, r ∈ rs -> r ∉ dict_values (V:=nat) []) as Hfresh.
  { intros r _ Hin. unfold dict_values in Hin. simpl in Hin.
    by apply elem_of_nil in Hin. }
  pose proof (dedup_loop_merged_gen rs heap [] Hnd Hlt Hok0 Hfresh) as Hgen.
  rewrite Hloop in Hgen.
  destruct Hgen as (Hmap & Hlen & Hframe & Hsub & _ & Hok).
  repeat split; try done; try apply Hok.
  intros x Hx. apply Hsub in Hx. by rewrite app_nil_r in Hx.
Qed.

End DedupFacts.

(** ** What [merged] holds *)

Lemma sum_of_cons {E} (m : E -> Z) (x : E) (l : list E) :
  sum_of m (x :: l) = m x + sum_of m l.
Proof. done. Qed.

Lemma sum_of_app {E} (m : E -> Z) (l k : list E) :
  sum_of m (l ++ k) = sum_of m l + sum_of m k.
Proof. induction l as [|x l IH]; simpl; [done|]. rewrite IH. lia. Qed.

Lemma sum_of_perm {E} (m : E -> Z) (l k : list E) :
  l ≡ₚ k -> sum_of m l = sum_of m k.
Proof. induction 1; simpl; lia. Qed.

Lemma filter_perm {E} (p : E -> bool) (l k : list E) :
  l ≡ₚ k -> List.filter p l ≡ₚ List.filter p k.
Proof.
  induction 1 as [|x l k _ IH|x y l|l k j _ IH1 _ IH2]; simpl.
  - done.
  - destruct (p x); [by constructor|done].
  - destruct (p x), (p y); try done. apply Permutation_swap.
  - by etransitivity.
Qed.

Section MergedFacts.
Context {E : Type}.
Context (name : E -> string) (add : E -> E -> E).
Hypothesis name_add : forall g f, name (add g f) = name g.

Lemma named_app (n : string) (l k : list E) :
  named name n (l ++ k) = named name n l ++ named name n k.
Proof. apply List.filter_app. Qed.

Lemma named_perm (n : string) (l k : list E) :
  l ≡ₚ k -> named name n l ≡ₚ named name n k.
Proof. apply filter_perm. Qed.

Lemma elem_of_named (n : string) (e : E) (l : list E) :
  e ∈ named name n l <-> e ∈ l /\ name e = n.
Proof.
  unfold named. rewrite !list_elem_of_In, filter_In.
  by rewrite String.eqb_eq.
Qed.

Lemma merge_into_fresh_name (f : E) (acc : list E) :
  name f ∉ map name acc -> merge_into name add f acc = acc ++ [f].
Proof.
  induction acc as [|g acc IH]; [done|].
  cbn [map merge_into app]. intros Hnin.
  apply not_elem_of_cons in Hnin as [Hne Hnin].
  apply String.eqb_neq in Hne. rewrite Hne. by rewrite IH.
Qed.

Lemma merge_into_seen_name (f : E) (acc : list E) :
  name f ∈ map name acc ->
  map name (merge_into name add f acc) = map name acc.
Proof.
  induction acc as [|g acc IH]; cbn [map merge_into].
  - by intros ?%elem_of_nil.
  - intros Hin. destruct (String.eqb (name f) (name g)) eqn:Eg.
    + cbn [map]. by rewrite name_add.
    + cbn [map]. rewrite IH; [done|].
      apply elem_of_cons in Hin as [Heq|Hin]; [|done].
      apply String.eqb_neq in Eg. done.
Qed.

Lemma merge_into_NoDup (f : E) (acc : list E) :
  NoDup (map name acc) -> NoDup (map name (merge_into name add f acc)).
Proof.
  intros Hnd. destruct (decide (name f ∈ map name acc)) as [Hin|Hnin].
  - by rewrite merge_into_seen_name.
  - rewrite merge_into_fresh_name by done. rewrite map_app.
    apply NoDup_app. split; [done|]. split; [|apply NoDup_singleton].
    intros x Hx ->%list_elem_of_singleton. done.
Qed.

Lemma merged_gen_NoDup (l acc : list E) :
  NoDup (map name acc) ->
  NoDup (map name (foldl (fun acc f => merge_into name add f acc) acc l)).
Proof.
  revert acc. induction l as [|f l IH]; intros acc Hnd; [done|].
  cbn [foldl]. by apply IH, merge_into_NoDup.
Qed.

(** No two merged entries share a name. *)
Lemma merged_NoDup (l : list E) : NoDup (map name (merged name add l)).
Proof. apply merged_gen_NoDup. constructor. Qed.

Lemma merge_into_names (f : E) (acc : list E) (n : string) :
  n ∈ map name (merge_into name add f acc) <-> n = name f \/ n ∈ map name acc.
Proof.
  destruct (decide (name f ∈ map name acc)) as [Hin|Hnin].
  - rewrite merge_into_seen_name by done. split; [by right|].
    by intros [->|?].
  - rewrite merge_into_fresh_name by done. rewrite map_app, elem_of_app.
    cbn [map]. rewrite list_elem_of_singleton. tauto.
Qed.

Lemma merged_gen_names (l acc : list E) (n : string) :
  n ∈ map name (foldl (fun acc f => merge_into name add f acc) acc l)
  <-> n ∈ map name acc \/ n ∈ map name l.
Proof.
  revert acc. induction l as [|f l IH]; intros acc; cbn [foldl map].
  - split; [by left|]. intros [?|?%elem_of_nil]; done.
  - rewrite IH, merge_into_names, elem_of_cons. tauto.
Qed.

(** The merged names are the names of the entries. *)
Lemma merged_names (l : list E) (n : string) :
  n ∈ map name (merged name add l) <-> n ∈ map name l.
Proof.
  unfold merged. rewrite merged_gen_names. cbn [map].
  split; [by intros [?%elem_of_nil|?]|by right].
Qed.

Section Summed.
Context (m : E -> Z).
Hypothesis m_add : forall g f, m (add g f) = m g + m f.

Lemma merge_into_sum (f : E) (acc : list E) (n : string) :
  sum_of m (named name n (merge_into name add f acc))
  = sum_of m (named name n acc) + sum_of m (named name n [f]).
Proof.
  induction acc as [|g acc IH].
  - cbn [merge_into named List.filter]. simpl. lia.
  - cbn [merge_into]. destruct (String.eqb (name f) (name g)) eqn:Eg.
    + apply String.eqb_eq in Eg.
      unfold named. cbn [List.filter]. rewrite name_add, Eg.
      destruct (String.eqb (name g) n); rewrite ?sum_of_cons, ?m_add;
        cbn [sum_of foldr]; lia.
    + remember (sum_of m (named name n [f])) as s eqn:Hs. clear Hs.
      unfold named in *. cbn [List.filter].
      destruct (String.eqb (name g) n); rewrite ?sum_of_cons; lia.
Qed.

Lemma merged_gen_sum (l acc : list E) (n : string) :
  sum_of m (named name n (foldl (fun acc f => merge_into name add f acc) acc l))
  = sum_of m (named name n acc) + sum_of m (named name n l).
Proof.
  revert acc. induction l as [|f l IH]; intros acc; cbn [foldl].
  - simpl. lia.
  - rewrite IH, merge_into_sum.
    change (f :: l) with ([f] ++ l). rewrite (named_app n [f] l), sum_of_app. lia.
Qed.

(** A summed field of the merged entry named [n] is the sum of that field
    over the entries named [n]. *)
Lemma merged_sum (l : list E) (n : string) :
  sum_of m (named name n (merged name add l)) = sum_of m (named name n l).
Proof. unfold merged. by rewrite merged_gen_sum. Qed.

End Summed.

Lemma named_absent (l : list E) (n : string) :
  n ∉ map name l -> named name n l = [].
Proof.
  induction l as [|x l IH]; [done|].
  cbn [map]. intros [Hne Hnin]%not_elem_of_cons.
  unfold named in *. cbn [List.filter].
  assert (String.eqb (name x) n = false) as ->; [|by apply IH].
  apply String.eqb_neq. by intros <-.
Qed.

(** A list with distinct names has at most one entry per name. *)
Lemma named_unique (l : list E) (e : E) :
  NoDup (map name l) -> e ∈ l -> named name (name e) l = [e].
Proof.
  induction l as [|x l IH]; [by intros _ ?%elem_of_nil|].
  cbn [map]. intros [Hx Hnd]%NoDup_cons Hin.
  apply elem_of_cons in Hin as [->|Hin].
  - unfold named. cbn [List.filter]. rewrite String.eqb_refl. f_equal.
    by apply named_absent.
  - unfold named in *. cbn [List.filter].
    destruct (String.eqb (name x) (name e)) eqn:Ex.
    + apply String.eqb_eq in Ex. exfalso. apply Hx. rewrite Ex.
      by apply list_elem_of_fmap_2.
    + by apply IH.
Qed.

Lemma merged_entry_sum (m : E -> Z) (l : list E) (e : E) :
  (forall g f, m (add g f) = m g + m f) ->
  e ∈ merged name add l -> m e = sum_of m (named name (name e) l).
Proof.
  intros m_add Hin. rewrite <- (merged_sum m m_add).
  rewrite named_unique; [simpl; lia|apply merged_NoDup|done].
Qed.

Section Kept.
Context {K : Type} (k : E -> K).
Hypothesis k_add : forall g f, k (add g f) = k g.

Lemma merge_into_head (f : E) (acc : list E) (n : string) :
  k <$> head (named name n (merge_into name add f acc))
  = k <$> head (named name n (acc ++ [f])).
Proof.
  induction acc as [|g acc IH]; [done|].
  cbn [merge_into app]. destruct (String.eqb (name f) (name g)) eqn:Eg.
  - apply String.eqb_eq in Eg. unfold named. cbn [List.filter].
    rewrite name_add. destruct (String.eqb (name g) n) eqn:En.
    + simpl. by rewrite k_add.
    + rewrite List.filter_app. cbn [List.filter].
      rewrite Eg, En. by rewrite app_nil_r.
  - unfold named in *. cbn [List.filter].
    destruct (String.eqb (name g) n); [done|exact IH].
Qed.

Lemma head_app_fmap (x x' z : list E) :
  k <$> head x = k <$> head x' -> k <$> head (x ++ z) = k <$> head (x' ++ z).
Proof. destruct x, x'; simpl; try done. Qed.

Lemma merged_gen_head (l acc : list E) (n : string) :
  k <$> head (named name n (foldl (fun acc f => merge_into name add f acc) acc l))
  = k <$> head (named name n (acc ++ l)).
Proof.
  revert acc. induction l as [|f l IH]; intros acc; cbn [foldl].
  - by rewrite app_nil_r.
  - rewrite IH. rewrite (named_app n (merge_into name add f acc) l).
    change (f :: l) with ([f] ++ l). rewrite app_assoc.
    rewrite (named_app n (acc ++ [f]) l).
    apply head_app_fmap, merge_into_head.
Qed.

(** A field the merge leaves alone has, in the merged entry named [n], the
    value it has in the first entry named [n]. *)
Lemma merged_head (l : list E) (n : string) :
  k <$> head (named name n (merged name add l)) = k <$> head (named name n l).
Proof. unfold merged. by rewrite merged_gen_head. Qed.

Lemma merged_entry_kept (l : list E) (e : E) :
  e ∈ merged name add l ->
  exists f, head (named name (name e) l) = Some f /\ k e = k f.
Proof.
  intros Hin. pose proof (merged_head l (name e)) as Hh.
  rewrite named_unique in Hh; [|apply merged_NoDup|done].
  simpl in Hh. destruct (head (named name (name e) l)) as [f|]; [|done].
  exists f. split; [done|]. by injection Hh.
Qed.

End Kept.
End MergedFacts.

(** ** References into a list *)

Lemma map_lookup_total_seq {E} `{Inhabited E} (l : list E) :
  map (fun r => l !!! r) (seq 0 (length l)) = l.
Proof.
  induction l as [|x l IH]; [done|].
  cbn [length seq map]. f_equal.
  rewrite <- fmap_S_seq. rewrite <- list_fmap_compose.
  rewrite <- IH at 2. done.
Qed.

Lemma sorted_refs_ok {E} (lt : nat -> nat -> bool) (l : list E) :
  NoDup (sorted lt (seq 0 (length l)))
  /\ Forall (fun r => (r < length l)%nat) (sorted lt (seq 0 (length l))).
Proof.
  split.
  - rewrite sorted_perm. apply NoDup_seq.
  - rewrite sorted_perm. apply Forall_forall. intros r Hr.
    apply elem_of_seq in Hr. lia.
Qed.

(** * analyze_all_coverage.py: the detail view *)

Module analyze_all_coverage_facts.
Import analyze_all_coverage.

Lemma name_add_counts g f : f_name (add_counts g f) = f_name g.
Proof. done. Qed.

(** The store-and-references loop of lines 136-149 computes, on values:
    sort, merge by name, sort again. *)
Lemma sorted_files_eq (files : list file_entry) :
  sorted_files files
  = sorted more_uncovered
      (merged f_name add_counts (sorted more_uncovered files)).
Proof.
  unfold sorted_files, dedup_files.
  destruct (sorted_refs_ok (by_uncovered files) files) as [Hnd Hlt].
  destruct (dedup_loop f_name add_counts
              (sorted (by_uncovered files) (seq 0 (length files))) files)
    as [heap seen] eqn:Hloop.
  destruct (dedup_loop_merged f_name add_counts name_add_counts _ _ _ _
              Hnd Hlt Hloop) as (Hmap & _).
  change (by_uncovered heap)
    with (fun a b => more_uncovered (heap !!! a) (heap !!! b)).
  rewrite (sorted_map (fun r => heap !!! r) more_uncovered).
  rewrite Hmap.
  change (by_uncovered files)
    with (fun a b => more_uncovered (files !!! a) (files !!! b)).
  rewrite (sorted_map (fun r => files !!! r) more_uncovered).
  by rewrite map_lookup_total_seq.
Qed.

End analyze_all_coverage_facts.

(** * analyze_all_coverage.py: what is accumulated *)

Module aggregates_facts.
Import analyze_all_coverage aggregates.

Lemma asm_app_empty_r a : asm_app a empty_assembly = a.
Proof.
  destruct a. unfold asm_app. simpl. rewrite app_nil_r. f_equal; lia.
Qed.

Lemma asm_app_empty_l a : asm_app empty_assembly a = a.
Proof. by destruct a. Qed.

Lemma asm_app_assoc a b c : asm_app (asm_app a b) c = asm_app a (asm_app b c).
Proof. unfold asm_app. simpl. rewrite app_assoc. f_equal; lia. Qed.

Lemma asm_spec_app l k : asm_spec (l ++ k) = asm_app (asm_spec l) (asm_spec k).
Proof.
  unfold asm_spec, asm_app. simpl.
  by rewrite !sum_of_app, List.filter_app.
Qed.

Lemma asm_of_set pkg k v d :
  asm_of pkg (dict_set k v d) = if String.eqb pkg k then v else asm_of pkg d.
Proof. unfold asm_of. rewrite dict_get_set. by destruct (String.eqb pkg k). Qed.

Lemma asm_of_add_class pkg pn results cls :
  asm_of pkg (add_class pn results cls)
  = asm_app (asm_of pkg results)
      (if String.eqb pkg pn then asm_spec (class_occurrence cls)
       else empty_assembly).
Proof.
  unfold add_class, class_occurrence.
  destruct (lines cls) as [|l ls] eqn:Hl.
  - destruct (String.eqb pkg pn); by rewrite asm_app_empty_r.
  - rewrite asm_of_set. destruct (String.eqb pkg pn) eqn:Ep.
    + apply String.eqb_eq in Ep as ->.
      unfold asm_app, asm_spec, asm_of, has_uncovered, class_entry.
      cbn [a_total a_covered a_files sum_of foldr List.filter
           f_total f_covered].
      destruct (count_covered (l :: ls) <? count_total (l :: ls));
        rewrite ?app_nil_r; f_equal; first [lia | done].
    + by rewrite asm_app_empty_r.
Qed.

Lemma asm_of_add_classes pkg pn classes results :
  asm_of pkg (foldl (add_class pn) results classes)
  = asm_app (asm_of pkg results)
      (if String.eqb pkg pn
       then asm_spec (concat (map class_occurrence classes))
       else empty_assembly).
Proof.
  revert results. induction classes as [|cls classes IH]; intros results.
  - cbn [foldl map concat]. destruct (String.eqb pkg pn);
      by rewrite asm_app_empty_r.
  - cbn [foldl map concat]. rewrite IH, asm_of_add_class, asm_app_assoc.
    destruct (String.eqb pkg pn).
    + by rewrite asm_spec_app.
    + by rewrite !asm_app_empty_r.
Qed.

Lemma asm_of_add_package pkg results p :
  asm_of pkg (add_package None results p)
  = asm_app (asm_of pkg results) (asm_spec (package_occurrences pkg p)).
Proof.
  unfold add_package, package_occurrences, filtered_out.
  destruct (contains "Tests" (pkg_name p)); cbn [negb andb].
  - by rewrite asm_app_empty_r.
  - rewrite asm_of_add_classes. by destruct (String.eqb pkg (pkg_name p)).
Qed.

Lemma asm_of_add_packages pkg ps results :
  asm_of pkg (foldl (add_package None) results ps)
  = asm_app (asm_of pkg results)
      (asm_spec (concat (map (package_occurrences pkg) ps))).
Proof.
  revert results. induction ps as [|p ps IH]; intros results.
  - cbn [foldl map concat]. by rewrite asm_app_empty_r.
  - cbn [foldl map concat].
    by rewrite IH, asm_of_add_package, asm_app_assoc, asm_spec_app.
Qed.

(** ** Dictionaries have one value per key *)

Lemma dict_set_keys {V} k (v : V) d :
  NoDup (map fst d) -> NoDup (map fst (dict_set k v d))
  /\ (forall k', k' ∈ map fst (dict_set k v d) <-> k' = k \/ k' ∈ map fst d).
Proof.
  induction d as [|[k0 v0] d IH]; cbn [dict_set map fst].
  - intros _. split; [apply NoDup_singleton|].
    intros k'. rewrite list_elem_of_singleton. split; [by left|].
    by intros [?|?%elem_of_nil].
  - intros [Hk0 Hnd]%NoDup_cons. destruct (IH Hnd) as [IH1 IH2].
    destruct (String.eqb k k0) eqn:Ek; cbn [map fst].
    + apply String.eqb_eq in Ek as ->. split; [by apply NoDup_cons|].
      intros k'. rewrite elem_of_cons. tauto.
    + apply String.eqb_neq in Ek. split.
      * apply NoDup_cons. split; [|done]. rewrite IH2. by intros [?|?].
      * intros k'. rewrite !elem_of_cons, IH2. tauto.
Qed.

Lemma dict_get_absent {V} k (d : dict V) :
  k ∉ map fst d -> dict_get k d = None.
Proof.
  induction d as [|[k0 v0] d IH]; [done|].
  cbn [map fst dict_get]. intros [Hne Hnin]%not_elem_of_cons.
  apply String.eqb_neq in Hne. rewrite Hne. by apply IH.
Qed.

Lemma add_class_keys pn results cls :
  NoDup (map fst results) -> NoDup (map fst (add_class pn results cls)).
Proof.
  intros Hnd. unfold add_class. destruct (lines cls); [done|].
  by apply dict_set_keys.
Qed.

Lemma add_package_keys pf results p :
  NoDup (map fst results) -> NoDup (map fst (add_package pf results p)).
Proof.
  intros Hnd. unfold add_package.
  destruct (contains "Tests" (pkg_name p)); [done|].
  destruct (filtered_out pf (pkg_name p)); [done|].
  revert results Hnd. induction (classes p) as [|cls cs IH]; intros results Hnd.
  - done.
  - cbn [foldl]. by apply IH, add_class_keys.
Qed.

Lemma add_packages_keys pf ps results :
  NoDup (map fst results) ->
  NoDup (map fst (foldl (add_package pf) results ps)).
Proof.
  revert results. induction ps as [|p ps IH]; intros results Hnd; [done|].
  cbn [foldl]. by apply IH, add_package_keys.
Qed.

Lemma asm_of_merge_assembly pkg all k v :
  asm_of pkg (merge_assembly all (k, v))
  = asm_app (asm_of pkg all) (if String.eqb pkg k then v else empty_assembly).
Proof.
  unfold merge_assembly. rewrite asm_of_set.
  destruct (String.eqb pkg k) eqn:Ek.
  - by apply String.eqb_eq in Ek as ->.
  - by rewrite asm_app_empty_r.
Qed.

Lemma asm_of_nil pkg : asm_of pkg [] = empty_assembly.
Proof. done. Qed.

Lemma asm_of_cons pkg k v (r : dict assembly) :
  asm_of pkg ((k, v) :: r) = if String.eqb pkg k then v else asm_of pkg r.
Proof. unfold asm_of. cbn [dict_get]. by destruct (String.eqb pkg k). Qed.

Lemma asm_of_absent k (r : dict assembly) :
  k ∉ map fst r -> asm_of k r = empty_assembly.
Proof. intros Hk. unfold asm_of. by rewrite dict_get_absent. Qed.

Lemma asm_of_merge pkg (r all : dict assembly) :
  NoDup (map fst r) ->
  asm_of pkg (foldl merge_assembly all r)
  = asm_app (asm_of pkg all) (asm_of pkg r).
Proof.
  revert all. induction r as [|[k v] r IH]; intros all Hnd.
  - cbn [foldl]. by rewrite asm_of_nil, asm_app_empty_r.
  - cbn [map fst] in Hnd. apply NoDup_cons in Hnd as [Hk Hnd].
    cbn [foldl]. rewrite IH, asm_of_merge_assembly, asm_of_cons by done.
    destruct (String.eqb pkg k) eqn:Ek.
    + apply String.eqb_eq in Ek as ->.
      by rewrite (asm_of_absent k r Hk), asm_app_empty_r.
    + by rewrite asm_app_empty_r.
Qed.

(** [analyze_coverage] on a well-formed report: per package, the sums over
    the occurrences and the list of those with a line that was not hit. *)
Lemma analyze_coverage_xml fs f root :
  fs f = Xml root ->
  exists r, analyze_coverage fs f None = Ok (Some r)
    /\ NoDup (map fst r)
    /\ forall pkg, asm_of pkg r = asm_spec (report_occurrences pkg root).
Proof.
  intros Hf. unfold analyze_coverage, path_exists, ET_parse. rewrite Hf.
  cbn [negb mbind result_mbind rbind].
  eexists. split; [done|]. split.
  - apply add_packages_keys. constructor.
  - intros pkg. rewrite asm_of_add_packages. apply asm_app_empty_l.
Qed.

Lemma analyze_coverage_absent fs f pf :
  fs f = Absent -> analyze_coverage fs f pf = Ok None.
Proof. intros Hf. unfold analyze_coverage, path_exists. by rewrite Hf. Qed.

Lemma analyze_coverage_garbage fs f pf :
  fs f = Garbage -> analyze_coverage fs f pf = Raise ParseError.
Proof.
  intros Hf. unfold analyze_coverage, path_exists, ET_parse. by rewrite Hf.
Qed.

(** [all_results] after the loop over the coverage files. *)
Lemma collect_spec fs coverage_files all all_results pkg :
  collect fs coverage_files all = Ok all_results ->
  asm_of pkg all_results
  = asm_app (asm_of pkg all) (asm_spec (occurrences fs coverage_files pkg)).
Proof.
  revert all. induction coverage_files as [|f rest IH]; intros all.
  - cbn [collect]. intros [= <-]. unfold occurrences. cbn [map concat].
    by rewrite asm_app_empty_r.
  - cbn [collect]. unfold occurrences. cbn [map concat].
    fold (occurrences fs rest pkg). rewrite asm_spec_app.
    unfold file_occurrences at 1. destruct (fs f) as [| |root] eqn:Hf.
    + rewrite analyze_coverage_absent by done.
      cbn [mbind result_mbind rbind]. intros Hc.
      rewrite (IH _ Hc). by rewrite asm_app_empty_l.
    + by rewrite analyze_coverage_garbage.
    + destruct (analyze_coverage_xml fs f root Hf) as (r & -> & Hnd & Hr).
      cbn [mbind result_mbind rbind]. destruct r as [|x r].
      * intros Hc. rewrite (IH _ Hc). rewrite <- Hr. done.
      * intros Hc. rewrite (IH _ Hc).
        rewrite asm_of_merge by done. rewrite Hr.
        by rewrite asm_app_assoc.
Qed.

(** The loop ends normally unless it meets a file that is not XML. *)
Lemma collect_ok fs coverage_files all :
  Forall (fun f => fs f <> Garbage) coverage_files ->
  exists all_results, collect fs coverage_files all = Ok all_results.
Proof.
  revert all. induction coverage_files as [|f rest IH]; intros all Hg.
  - by eexists.
  - apply Forall_cons in Hg as [Hf Hg]. cbn [collect].
    destruct (fs f) as [| |root] eqn:Ef; [|done|].
    + rewrite analyze_coverage_absent by done.
      cbn [mbind result_mbind rbind]. by apply IH.
    + destruct (analyze_coverage_xml fs f root Ef) as (r & -> & _).
      cbn [mbind result_mbind rbind]. destruct r; by apply IH.
Qed.

Lemma collect_garbage fs coverage_files all :
  Exists (fun f => fs f = Garbage) coverage_files ->
  collect fs coverage_files all = Raise ParseError.
Proof.
  revert all. induction coverage_files as [|f rest IH]; intros all Hg.
  - by apply Exists_nil in Hg.
  - cbn [collect]. destruct (fs f) as [| |root] eqn:Ef.
    + rewrite analyze_coverage_absent by done.
      cbn [mbind result_mbind rbind]. apply IH.
      apply Exists_cons in Hg as [Hg|Hg]; [congruence|done].
    + by rewrite analyze_coverage_garbage.
    + destruct (analyze_coverage_xml fs f root Ef) as (r & -> & _).
      cbn [mbind result_mbind rbind].
      apply Exists_cons in Hg as [Hg|Hg]; [congruence|].
      destruct r; by apply IH.
Qed.

End aggregates_facts.

(** * analyze_all_coverage.py: the FileAggregates *)

Module file_aggregate_facts.
Import analyze_all_coverage aggregates analyze_all_coverage_facts
  aggregates_facts.

Lemma summed_perm (l k : list file_entry) : l ≡ₚ k -> summed l = summed k.
Proof.
  intros Hp. destruct l as [|x l], k as [|y k]; [done| | |].
  - by apply Permutation_nil_cons in Hp.
  - symmetry in Hp. by apply Permutation_nil_cons in Hp.
  - unfold summed.
    by rewrite (sum_of_perm f_total _ _ Hp), (sum_of_perm f_covered _ _ Hp),
      (sum_of_perm f_uncovered _ _ Hp).
Qed.

Lemma named_sorted_files (files : list file_entry) (n : string) :
  named f_name n (sorted_files files)
  ≡ₚ named f_name n (merged f_name add_counts (sorted more_uncovered files)).
Proof. rewrite sorted_files_eq. apply named_perm, sorted_perm. Qed.

Lemma elem_of_sorted_files (files : list file_entry) (e : file_entry) :
  e ∈ sorted_files files
  <-> e ∈ merged f_name add_counts (sorted more_uncovered files).
Proof. rewrite sorted_files_eq. by rewrite sorted_perm. Qed.

(** The counts of a listed file are the sums over the entries with its
    name. *)
Lemma sorted_files_sums (files : list file_entry) (e : file_entry) :
  e ∈ sorted_files files ->
  f_total e = sum_of f_total (named f_name (f_name e) files)
  /\ f_covered e = sum_of f_covered (named f_name (f_name e) files)
  /\ f_uncovered e = sum_of f_uncovered (named f_name (f_name e) files).
Proof.
  intros He%elem_of_sorted_files.
  pose proof (named_perm f_name (f_name e) _ _ (sorted_perm more_uncovered files))
    as Hp.
  rewrite <- !(sum_of_perm _ _ _ Hp).
  split; [|split];
    by apply (merged_entry_sum f_name add_counts name_add_counts).
Qed.

(** The FileAggregate of a name: the sums over the entries of that name in
    [data['files']], none if there is no such entry. *)
Lemma file_aggregate_spec (files : list file_entry) (n : string) :
  file_aggregate files n = summed (named f_name n files).
Proof.
  unfold file_aggregate.
  destruct (decide (n ∈ map f_name files)) as [Hin|Hnin].
  - assert (n ∈ map f_name (merged f_name add_counts (sorted more_uncovered files)))
      as Hm.
    { apply (merged_names f_name add_counts name_add_counts).
      by rewrite (sorted_perm more_uncovered files). }
    apply list_elem_of_fmap in Hm as (e & -> & He).
    pose proof (named_sorted_files files (f_name e)) as Hp.
    rewrite (named_unique f_name
               (merged f_name add_counts (sorted more_uncovered files)) e)
      in Hp;
      [|apply (merged_NoDup f_name add_counts name_add_counts)|done].
    apply Permutation_singleton_r in Hp. rewrite Hp.
    destruct (sorted_files_sums files e) as (-> & -> & ->).
    { by apply elem_of_sorted_files. }
    apply list_elem_of_fmap in Hin as (e' & Hn & He').
    assert (e' ∈ named f_name (f_name e) files) as Hne.
    { apply elem_of_named. by split. }
    unfold summed.
    destruct (named f_name (f_name e) files) as [|x l] eqn:E; [|done].
    by apply elem_of_nil in Hne.
  - rewrite (named_absent f_name files n Hnin).
    pose proof (named_sorted_files files n) as Hp.
    rewrite (named_absent f_name
               (merged f_name add_counts (sorted more_uncovered files)) n)
      in Hp.
    + apply Permutation_nil_r in Hp. by rewrite Hp.
    + rewrite (merged_names f_name add_counts name_add_counts).
      by rewrite (sorted_perm more_uncovered files).
Qed.

Lemma named_filter (p : file_entry -> bool) (n : string) (l : list file_entry) :
  named f_name n (List.filter p l) = List.filter p (named f_name n l).
Proof.
  unfold named. induction l as [|x l IH]; [done|].
  cbn [List.filter]. destruct (p x) eqn:Hp, (String.eqb (f_name x) n) eqn:Hn;
    cbn [List.filter]; rewrite ?Hp, ?Hn, IH; done.
Qed.

Lemma collect_files fs coverage_files all_results pkg :
  collect fs coverage_files [] = Ok all_results ->
  files_of pkg all_results
  = List.filter has_uncovered (occurrences fs coverage_files pkg).
Proof.
  intros Hc. unfold files_of. rewrite (collect_spec _ _ _ _ pkg Hc).
  by rewrite asm_of_nil, asm_app_empty_l.
Qed.

Lemma occurrences_perm fs (l k : list string) pkg :
  l ≡ₚ k -> occurrences fs l pkg ≡ₚ occurrences fs k pkg.
Proof.
  intros Hp. unfold occurrences.
  induction Hp as [|x l k _ IH|x y l|l k j _ IH1 _ IH2]; cbn [map concat].
  - done.
  - by rewrite IH.
  - rewrite !app_assoc. f_equiv. apply Permutation_app_comm.
  - by etransitivity.
Qed.

Lemma collect_ok_inv fs coverage_files all all_results :
  collect fs coverage_files all = Ok all_results ->
  Forall (fun f => fs f <> Garbage) coverage_files.
Proof.
  intros Hc. apply Forall_forall. intros f Hf Hg.
  rewrite collect_garbage in Hc; [done|].
  apply Exists_exists. by exists f.
Qed.

End file_aggregate_facts.

(** ** The orders of the two detail lists *)

Module order_facts.
Import analyze_all_coverage.

Lemma more_uncovered_asym x y :
  more_uncovered x y = true -> more_uncovered y x = false.
Proof. unfold more_uncovered. lia. Qed.

Lemma more_uncovered_le x y :
  le_of more_uncovered x y <-> f_uncovered y <= f_uncovered x.
Proof. unfold le_of, more_uncovered. lia. Qed.

Lemma more_uncovered_trans x y z :
  le_of more_uncovered x y -> le_of more_uncovered y z ->
  le_of more_uncovered x z.
Proof. rewrite !more_uncovered_le. lia. Qed.

Lemma more_uncovered_tied a x :
  tied more_uncovered a x = (f_uncovered x =? f_uncovered a).
Proof. unfold tied, more_uncovered. lia. Qed.

Import analyze_core_detailed.

Lemma Qlt_bool_iff a b : Qlt_bool a b = true <-> (a < b)%Q.
Proof.
  unfold Qlt_bool. rewrite negb_true_iff, <- not_true_iff_false, Qle_bool_iff.
  split; [apply Qnot_le_lt|apply Qlt_not_le].
Qed.

(** [x] may precede [y]: lower coverage, or the same coverage and at least
    as many uncovered lines. *)
Lemma by_key_le (x y : Q * Z * string) :
  le_of by_key x y <->
  (x.1.1 < y.1.1)%Q \/ (x.1.1 == y.1.1)%Q /\ y.1.2 <= x.1.2.
Proof.
  destruct x as [[cx ux] nx], y as [[cy uy] ny]. unfold le_of, by_key.
  cbn [fst snd].
  rewrite orb_false_iff, andb_false_iff, <- !not_true_iff_false.
  rewrite Qlt_bool_iff, Qeq_bool_iff, Z.ltb_lt.
  split.
  - intros [Hn [Hne|Hu]].
    + left. lra.
    + destruct (Qlt_le_dec cx cy); [by left|right]. split; [lra|lia].
  - intros [Hlt|[Heq Hu]].
    + split; [lra|]. left. lra.
    + split; [lra|]. right. lia.
Qed.

Lemma by_key_asym x y : by_key x y = true -> by_key y x = false.
Proof.
  intros Hxy. change (le_of by_key x y). apply by_key_le.
  destruct x as [[cx ux] nx], y as [[cy uy] ny]. unfold by_key in Hxy.
  cbn [fst snd].
  apply orb_true_iff in Hxy as [Hlt|[Heq Hu]%andb_true_iff].
  - left. by apply Qlt_bool_iff.
  - right. apply Qeq_bool_iff in Heq. split; [done|lia].
Qed.

Lemma by_key_trans x y z :
  le_of by_key x y -> le_of by_key y z -> le_of by_key x z.
Proof.
  rewrite !by_key_le. intros [H1|[H1 U1]] [H2|[H2 U2]].
  - left. lra.
  - left. lra.
  - left. lra.
  - right. split; [lra|lia].
Qed.

End order_facts.

(** ** What the merge loop leaves alone *)

Section DedupFrame.
Context {E K : Type} `{Inhabited E}.
Context (name : E -> string) (add : E -> E -> E) (k : E -> K).
Hypothesis k_add : forall g f, k (add g f) = k g.

Lemma dedup_step_kept (heap : list E) (seen : dict nat) (r r' : nat) :
  k ((dedup_step name add (heap, seen) r).1 !!! r') = k (heap !!! r').
Proof.
  unfold dedup_step.
  destruct (dict_get (name (heap !!! r)) seen) as [r0|]; [|done].
  cbn [fst]. destruct (decide (r0 = r')) as [->|Hne].
  - destruct (decide (r' < length heap)%nat) as [Hlt|Hge].
    + by rewrite list_lookup_total_insert_eq, k_add.
    + by rewrite list_insert_ge by lia.
  - by rewrite list_lookup_total_insert_ne.
Qed.

Lemma dedup_fold_kept (rs : list nat) (heap : list E) (seen : dict nat) r' :
  k ((foldl (dedup_step name add) (heap, seen) rs).1 !!! r') = k (heap !!! r').
Proof.
  revert heap seen. induction rs as [|r rs IH]; intros heap seen; [done|].
  cbn [foldl].
  destruct (dedup_step name add (heap, seen) r) as [heap1 seen1] eqn:Hs.
  rewrite IH. change heap1 with (heap1, seen1).1. rewrite <- Hs.
  apply dedup_step_kept.
Qed.

(** A field that [add] copies from its first argument keeps, in every
    object of the store, the value it had before the loop. *)
Lemma dedup_loop_kept (rs : list nat) (heap : list E) (r' : nat) :
  k ((dedup_loop name add rs heap).1 !!! r') = k (heap !!! r').
Proof. apply dedup_fold_kept. Qed.

End DedupFrame.

(** ** What [main] prints *)

Lemma for_each_print (l : list printed) : for_each l print = (l, Ok tt).
Proof.
  induction l as [|x l IH]; [done|].
  cbn [for_each]. rewrite IH. done.
Qed.

Lemma for_each_rows {A} (row : A -> printed) (l : list A) :
  for_each l (fun x => print (row x)) = (map row l, Ok tt).
Proof.
  induction l as [|x l IH]; [done|].
  cbn [for_each map]. rewrite IH. done.
Qed.

Module report_facts.
Import analyze_all_coverage aggregates aggregates_facts.

Lemma main_ok fs coverage_files all_results :
  collect fs coverage_files [] = Ok all_results ->
  main fs coverage_files = (report all_results, Ok tt).
Proof.
  intros Hc. unfold main. rewrite Hc.
  unfold lift, mbind, io_mbind, io_bind. by rewrite for_each_print.
Qed.

Lemma main_raise fs coverage_files e :
  collect fs coverage_files [] = Raise e ->
  main fs coverage_files = ([], Raise e).
Proof. intros Hc. unfold main. by rewrite Hc. Qed.

Lemma overview_rows_shape (l : list (string * assembly)) acc :
  Forall (fun p => exists s n c a b, p = AssemblyRow s n c a b) acc.1 ->
  Forall (fun p => exists s n c a b, p = AssemblyRow s n c a b)
    (foldl overview_row acc l).1.
Proof.
  revert acc. induction l as [|[k data] l IH]; intros acc Hacc; [done|].
  cbn [foldl]. apply IH. destruct acc as [out [t c]]. unfold overview_row.
  destruct (a_total data =? 0); [done|]. cbn [fst] in *.
  apply Forall_app. split; [done|]. repeat constructor. by repeat eexists.
Qed.

(** A file row of the report comes from the detail block of an assembly: it
    shows one of the first ten entries of [sorted_files]. *)
Lemma report_file_rows (all_results : dict assembly) n c u m :
  FileRow n c u m ∈ report all_results ->
  exists pkg_name data e,
    (pkg_name, data) ∈ all_results
    /\ e ∈ take 10 (sorted_files (a_files data))
    /\ FileRow n c u m = file_row e.
Proof.
  unfold report.
  pose proof (overview_rows_shape (sorted by_coverage all_results) ([], (0, 0)))
    as Hrows.
  destruct (foldl overview_row ([], (0, 0)) (sorted by_coverage all_results))
    as [rows [total_all covered_all]].
  cbn [fst] in Hrows. specialize (Hrows (List.Forall_nil _)).
  rewrite !elem_of_app. intros [Hin|[Hin|[Hin|[Hin|Hin]]]].
  - repeat (apply elem_of_cons in Hin as [Hin|Hin]; [discriminate|]).
    by apply elem_of_nil in Hin.
  - rewrite Forall_forall in Hrows.
    destruct (Hrows _ Hin) as (? & ? & ? & ? & ? & ?). discriminate.
  - repeat (apply elem_of_cons in Hin as [Hin|Hin]; [discriminate|]).
    by apply elem_of_nil in Hin.
  - apply list_elem_of_In, in_concat in Hin as (block & Hblock & Hrow).
    apply list_elem_of_In in Hblock, Hrow.
    apply list_elem_of_fmap in Hblock as ([k data] & -> & Hx).
    rewrite (sorted_perm by_coverage all_results) in Hx.
    exists k, data. unfold detail_block in Hrow.
    destruct (a_total data =? 0); [by apply elem_of_nil in Hrow|].
    destruct (Qle_bool 90 _); [by apply elem_of_nil in Hrow|].
    apply elem_of_app in Hrow as [Hrow|Hrow].
    + repeat (apply elem_of_cons in Hrow as [Hrow|Hrow]; [discriminate|]).
      by apply elem_of_nil in Hrow.
    + apply list_elem_of_fmap in Hrow as (e & He & Hin). by exists e.
  - repeat (apply elem_of_cons in Hin as [Hin|Hin]; [discriminate|]).
    by apply elem_of_nil in Hin.
Qed.

(** ** Every value of [all_results] is the aggregate of its key *)

Lemma merge_assembly_keys (r all : dict assembly) :
  NoDup (map fst all) -> NoDup (map fst (foldl merge_assembly all r)).
Proof.
  revert all. induction r as [|[k v] r IH]; intros all Hnd; [done|].
  cbn [foldl]. apply IH. unfold merge_assembly. by apply dict_set_keys.
Qed.

Lemma collect_keys fs coverage_files all all_results :
  NoDup (map fst all) ->
  collect fs coverage_files all = Ok all_results ->
  NoDup (map fst all_results).
Proof.
  revert all. induction coverage_files as [|f rest IH]; intros all Hnd.
  - cbn [collect]. by intros [= <-].
  - cbn [collect]. destruct (analyze_coverage fs f None) as [[r|]|e]; [| |done].
    + cbn [mbind result_mbind rbind]. destruct r as [|x r]; [by apply IH|].
      apply IH. by apply merge_assembly_keys.
    + cbn [mbind result_mbind rbind]. by apply IH.
Qed.

Lemma asm_of_item (d : dict assembly) k v :
  NoDup (map fst d) -> (k, v) ∈ d -> asm_of k d = v.
Proof.
  induction d as [|[k0 v0] d IH]; [by intros _ ?%elem_of_nil|].
  cbn [map fst]. intros [Hk0 Hnd]%NoDup_cons Hin. rewrite asm_of_cons.
  apply elem_of_cons in Hin as [[= -> ->]|Hin].
  - by rewrite String.eqb_refl.
  - destruct (String.eqb k k0) eqn:Ek; [|by apply IH].
    apply String.eqb_eq in Ek as ->. exfalso. apply Hk0.
    by apply (list_elem_of_fmap_2 fst) in Hin.
Qed.

Lemma collect_item fs coverage_files all_results pkg_name data :
  collect fs coverage_files [] = Ok all_results ->
  (pkg_name, data) ∈ all_results ->
  data = asm_spec (occurrences fs coverage_files pkg_name).
Proof.
  intros Hc Hin.
  rewrite <- (asm_of_item all_results pkg_name data); [| |done].
  - rewrite (collect_spec _ _ _ _ pkg_name Hc).
    by rewrite asm_of_nil, asm_app_empty_l.
  - eapply collect_keys; [|done]. constructor.
Qed.

End report_facts.

Lemma sum_of_pos {E} (m : E -> Z) (l : list E) :
  Forall (fun e => 1 <= m e) l -> l <> [] -> 1 <= sum_of m l.
Proof.
  intros Hall Hne. destruct l as [|x l]; [done|].
  apply Forall_cons in Hall as [Hx Hall]. rewrite sum_of_cons.
  assert (0 <= sum_of m l); [|lia].
  clear Hne Hx. induction Hall as [|y l Hy _ IH]; [done|].
  rewrite sum_of_cons. lia.
Qed.

Lemma Forall_named {E} (name : E -> string) (P : E -> Prop) n (l : list E) :
  Forall P l -> Forall P (named name n l).
Proof.
  rewrite !Forall_forall. intros Hall e He. apply Hall.
  by apply elem_of_named in He as [He _].
Qed.

(** A merged entry sums at least one entry: a field that is at least 1 in
    every entry is at least 1 in every merged entry. *)
Lemma merged_entry_pos {E} (name : E -> string) (add : E -> E -> E)
    (m : E -> Z) (l : list E) (e : E) :
  (forall g f, name (add g f) = name g) ->
  (forall g f, m (add g f) = m g + m f) ->
  Forall (fun e => 1 <= m e) l ->
  e ∈ merged name add l -> 1 <= m e.
Proof.
  intros name_add m_add Hall He.
  rewrite (merged_entry_sum name add name_add m l e m_add He).
  apply sum_of_pos; [by apply Forall_named|].
  assert (name e ∈ map name l) as Hn.
  { apply (merged_names name add name_add). by apply list_elem_of_fmap_2. }
  apply list_elem_of_fmap in Hn as (f & Hf & Hin).
  intros Hnil. assert (f ∈ named name (name e) l) as Hfn.
  { apply elem_of_named. by split. }
  rewrite Hnil in Hfn. by apply elem_of_nil in Hfn.
Qed.

(** * analyze_project_coverage.py *)

Module project_facts.
Import analyze_project_coverage.

Lemma name_add_uncovered g f : u_name (add_uncovered g f) = u_name g.
Proof. done. Qed.

(** Lines 75-87 on values: merge by name, sort, keep five. *)
Lemma top_uncovered_eq (uncovered_files : list uncovered_file) :
  top_uncovered uncovered_files
  = take 5 (sorted more_uncovered
              (merged u_name add_uncovered uncovered_files)).
Proof.
  unfold top_uncovered.
  destruct (dedup_loop u_name add_uncovered
              (seq 0 (length uncovered_files)) uncovered_files)
    as [heap file_map] eqn:Hloop.
  assert (Forall (fun r => (r < length uncovered_files)%nat)
            (seq 0 (length uncovered_files))) as Hlt.
  { apply Forall_forall. intros r Hr%elem_of_seq. lia. }
  destruct (dedup_loop_merged u_name add_uncovered name_add_uncovered
              _ _ _ _ (NoDup_seq 0 (length uncovered_files)) Hlt Hloop)
    as (Hmap & _).
  change (map (fun r => heap !!! r)) with (fmap (M:=list) (fun r => heap !!! r)).
  rewrite fmap_take.
  change (by_uncovered heap)
    with (fun a b => more_uncovered (heap !!! a) (heap !!! b)).
  change (fmap (M:=list) (fun r => heap !!! r)) with (map (fun r => heap !!! r)).
  rewrite (sorted_map (fun r => heap !!! r) more_uncovered).
  rewrite Hmap. by rewrite map_lookup_total_seq.
Qed.

(** Lines 62-70: an entry is appended only for a class with a line that
    was not hit. *)
Lemma add_class_uncovered (acc : counters) (cls : Class) :
  Forall (fun u => 1 <= u_uncovered u) acc.2 ->
  Forall (fun u => 1 <= u_uncovered u) (add_class acc cls).2.
Proof.
  destruct acc as [[total covered] uncovered_files]. unfold add_class.
  destruct (lines cls) as [|l ls]; [done|]. cbn [snd]. intros Hall.
  destruct (0 <? count_total (l :: ls) - count_covered (l :: ls)) eqn:Hu;
    [|done].
  apply Forall_app. split; [done|]. repeat constructor. cbn [u_uncovered]. lia.
Qed.

Lemma add_package_uncovered target (acc : counters) (pkg : Package) :
  Forall (fun u => 1 <= u_uncovered u) acc.2 ->
  Forall (fun u => 1 <= u_uncovered u) (add_package target acc pkg).2.
Proof.
  unfold add_package. destruct (_ || _); [done|].
  revert acc. induction (classes pkg) as [|cls cs IH]; intros acc Hall; [done|].
  cbn [foldl]. by apply IH, add_class_uncovered.
Qed.

Lemma add_packages_uncovered target (acc : counters) (ps : list Package) :
  Forall (fun u => 1 <= u_uncovered u) acc.2 ->
  Forall (fun u => 1 <= u_uncovered u) (foldl (add_package target) acc ps).2.
Proof.
  revert acc. induction ps as [|p ps IH]; intros acc Hall; [done|].
  cbn [foldl]. by apply IH, add_package_uncovered.
Qed.

Lemma elem_of_top_uncovered (uncovered_files : list uncovered_file) e :
  e ∈ top_uncovered uncovered_files ->
  e ∈ merged u_name add_uncovered uncovered_files.
Proof.
  rewrite top_uncovered_eq. intros He%subseteq_take.
  by rewrite (sorted_perm more_uncovered) in He.
Qed.

End project_facts.

(** * The claims *)

Import analyze_all_coverage aggregates scenarios.

(** ** C1: entries with the same base name are summed *)

(** C1, as stated, fails on its own scenario.  Two reports of package
    "Sample" hold "A.cs" with 10 of 10 lines hit and "A.cs" with 5 of 10
    lines hit.  The sums over the two occurrences are total 20 and covered
    15, but the aggregate of "A.cs" has total 10 and covered 5: the fully
    covered occurrence was never recorded (line 47). *)
Lemma two_runs_file_aggregate :
  collect two_runs [run1; run2] [] = Ok (all_results_of two_runs [run1; run2])
  /\ summed (named f_name "A.cs" (occurrences two_runs [run1; run2] "Sample"))
     = Some (20, 15, 5)
  /\ file_aggregate (files_of "Sample" (all_results_of two_runs [run1; run2]))
       "A.cs"
     = Some (10, 5, 5)
  /\ file_aggregate (files_of "Sample" (all_results_of two_runs [run1; run2]))
       "A.cs"
     <> summed (named f_name "A.cs"
                  (occurrences two_runs [run1; run2] "Sample"))
  /\ In (FileRow "A.cs" 50 5 "") (fst (main two_runs [run1; run2])).
Proof. vm_compute. repeat split; try reflexivity; [discriminate|tauto]. Qed.

(** C1 (amended).  When the same base name occurs in several ClassCoverage
    entries of an assembly, within one report or across the reports read,
    the FileAggregate of that name holds the sums of total, covered and
    uncovered over the occurrences that have at least one line not hit; a
    name without such an occurrence has no FileAggregate.  The totals of
    the assembly are the sums over all occurrences.  In the scenario of two
    reports of "Sample" with "A.cs" at 10/10 and at 5/10, the aggregate of
    "A.cs" has total 10, covered 5, uncovered 5, and the assembly has total
    20 and covered 15. *)
Theorem file_aggregate_sums_uncovered_occurrences
    (fs : filesystem) (coverage_files : list string)
    (all_results : dict assembly) (pkg n : string) :
  collect fs coverage_files [] = Ok all_results ->
  file_aggregate (files_of pkg all_results) n
  = summed (List.filter has_uncovered
              (named f_name n (occurrences fs coverage_files pkg)))
  /\ a_total (asm_of pkg all_results)
     = sum_of f_total (occurrences fs coverage_files pkg)
  /\ a_covered (asm_of pkg all_results)
     = sum_of f_covered (occurrences fs coverage_files pkg).
Proof.
  intros Hc. split.
  - rewrite file_aggregate_facts.file_aggregate_spec.
    rewrite (file_aggregate_facts.collect_files _ _ _ _ Hc).
    by rewrite file_aggregate_facts.named_filter.
  - rewrite (aggregates_facts.collect_spec _ _ _ _ pkg Hc).
    by rewrite aggregates_facts.asm_of_nil, aggregates_facts.asm_app_empty_l.
Qed.

Lemma file_aggregate_sums_two_runs :
  file_aggregate (files_of "Sample" (all_results_of two_runs [run1; run2]))
    "A.cs"
  = Some (10, 5, 5)
  /\ a_total (asm_of "Sample" (all_results_of two_runs [run1; run2])) = 20
  /\ a_covered (asm_of "Sample" (all_results_of two_runs [run1; run2])) = 15.
Proof.
  destruct (file_aggregate_sums_uncovered_occurrences
              two_runs [run1; run2] (all_results_of two_runs [run1; run2])
              "Sample" "A.cs") as (H1 & H2 & H3).
  - vm_compute. reflexivity.
  - rewrite H1, H2, H3. vm_compute. repeat split; reflexivity.
Defined.

(** ** C7: the order of the reports does not matter *)

(** C7.  Whatever the order in which the coverage files are processed, the
    run ends the same way and, for every assembly, the totals of the
    assembly and the total, covered and uncovered counts of every
    FileAggregate are the same. *)
Theorem aggregates_do_not_depend_on_order
    (fs : filesystem) (coverage_files coverage_files' : list string)
    (all_results : dict assembly) :
  Permutation coverage_files coverage_files' ->
  collect fs coverage_files [] = Ok all_results ->
  exists all_results',
    collect fs coverage_files' [] = Ok all_results'
    /\ forall pkg,
         a_total (asm_of pkg all_results') = a_total (asm_of pkg all_results)
         /\ a_covered (asm_of pkg all_results')
            = a_covered (asm_of pkg all_results)
         /\ forall n,
              file_aggregate (files_of pkg all_results') n
              = file_aggregate (files_of pkg all_results) n.
Proof.
  intros Hp Hc.
  destruct (aggregates_facts.collect_ok fs coverage_files' []) as [ar' Hc'].
  { rewrite <- Hp. by eapply file_aggregate_facts.collect_ok_inv. }
  exists ar'. split; [done|]. intros pkg.
  pose proof (file_aggregate_facts.occurrences_perm fs _ _ pkg Hp) as Ho.
  rewrite (aggregates_facts.collect_spec _ _ _ _ pkg Hc).
  rewrite (aggregates_facts.collect_spec _ _ _ _ pkg Hc').
  rewrite aggregates_facts.asm_of_nil, !aggregates_facts.asm_app_empty_l.
  cbn [asm_spec a_total a_covered].
  split; [by rewrite (sum_of_perm f_total _ _ Ho)|].
  split; [by rewrite (sum_of_perm f_covered _ _ Ho)|].
  intros n. rewrite !file_aggregate_facts.file_aggregate_spec.
  rewrite (file_aggregate_facts.collect_files _ _ _ _ Hc).
  rewrite (file_aggregate_facts.collect_files _ _ _ _ Hc').
  apply file_aggregate_facts.summed_perm, named_perm, filter_perm.
  by symmetry.
Qed.

Lemma aggregates_do_not_depend_on_order_two_partial :
  exists all_results',
    collect two_partial [run2; run1] [] = Ok all_results'
    /\ forall pkg,
         a_total (asm_of pkg all_results')
         = a_total (asm_of pkg (all_results_of two_partial [run1; run2]))
         /\ a_covered (asm_of pkg all_results')
            = a_covered (asm_of pkg (all_results_of two_partial [run1; run2]))
         /\ forall n,
              file_aggregate (files_of pkg all_results') n
              = file_aggregate
                  (files_of pkg (all_results_of two_partial [run1; run2])) n.
Proof.
  apply (aggregates_do_not_depend_on_order two_partial [run1; run2]).
  - apply perm_swap.
  - vm_compute. reflexivity.
Defined.

(** ** C6: the order of the files of an assembly *)

Lemma StronglySorted_weaken {A} (R R' : A -> A -> Prop) (l : list A) :
  (forall x y, R x y -> R' x y) -> StronglySorted R l -> StronglySorted R' l.
Proof.
  intros HR. induction 1 as [|x l Hl IH Hx]; constructor; [done|].
  eapply Forall_impl; [exact Hx|]. intros y. apply HR.
Qed.

(** C6, as stated, fails.  "A.cs" (5 of 10 lines hit, 50%) is recorded
    before "B.cs" (0 of 5 lines hit, 0%); both have 5 uncovered lines.  The
    detail view lists "A.cs" first: the tie is not broken by coverage
    ascending. *)
Lemma tie_not_broken_by_coverage :
  map file_row (sorted_files (files_of "Sample" (all_results_of tie [run1])))
  = [FileRow "A.cs" 50 5 ""; FileRow "B.cs" 0 5 ""]
  /\ ~ StronglySorted claimed_before
         (sorted_files (files_of "Sample" (all_results_of tie [run1]))).
Proof.
  split; [vm_compute; reflexivity|].
  intros Hs.
  assert (sorted_files (files_of "Sample" (all_results_of tie [run1]))
          = [class_entry "src/A.cs" 10 5; class_entry "src/B.cs" 5 0]) as E
    by (vm_compute; reflexivity).
  rewrite E in Hs. apply StronglySorted_inv in Hs as [_ Hf].
  apply Forall_cons in Hf as [[Hlt|[_ Hle]] _].
  - vm_compute in Hlt. discriminate.
  - vm_compute in Hle. by apply Hle.
Qed.

(** C6 (amended).  Within an assembly's detail view of analyze_all_coverage
    the FileAggregates are ordered descending by (merged) uncovered line
    count and the order is stable: entries with the same uncovered count
    stay in the order of the deduplicated list, that is the order in which
    the deduplication pass first met their names, whatever their coverage
    percentages.  The class list of analyze_core_detailed is ordered
    ascending by coverage percentage, ties broken by uncovered line count
    descending, and that order is stable with respect to the order of the
    classes in the report. *)
Theorem detail_lists_are_stably_sorted :
  (forall files : list file_entry,
     StronglySorted (fun x y => f_uncovered y <= f_uncovered x)
       (sorted_files files)
     /\ forall u,
          List.filter (fun e => f_uncovered e =? u) (sorted_files files)
          = List.filter (fun e => f_uncovered e =? u)
              (merged f_name add_counts (sorted more_uncovered files)))
  /\ (forall pkg : Package,
        StronglySorted
          (fun x y => (x.1.1 < y.1.1)%Q
                      \/ ((x.1.1 == y.1.1)%Q /\ y.1.2 <= x.1.2))
          (analyze_core_detailed.class_data pkg)
        /\ forall a,
             List.filter (tied analyze_core_detailed.by_key a)
               (analyze_core_detailed.class_data pkg)
             = List.filter (tied analyze_core_detailed.by_key a)
                 (concat (map analyze_core_detailed.class_tuple (classes pkg)))).
Proof.
  split.
  - intros files. rewrite analyze_all_coverage_facts.sorted_files_eq. split.
    + eapply StronglySorted_weaken;
        [|apply sorted_ordered;
          [apply order_facts.more_uncovered_asym
          |apply order_facts.more_uncovered_trans]].
      intros x y. by rewrite order_facts.more_uncovered_le.
    + intros u.
      set (a := {| f_name := ""; f_total := 0; f_covered := 0;
                   f_uncovered := u; f_coverage := 0 |}).
      rewrite !(filter_ext (fun e => f_uncovered e =? u)
                           (tied more_uncovered a)).
      * apply sorted_stable. apply order_facts.more_uncovered_trans.
      * intros e. by rewrite order_facts.more_uncovered_tied.
      * intros e. by rewrite order_facts.more_uncovered_tied.
  - intros pkg. unfold analyze_core_detailed.class_data. split.
    + eapply StronglySorted_weaken;
        [|apply sorted_ordered;
          [apply order_facts.by_key_asym|apply order_facts.by_key_trans]].
      intros x y. by rewrite order_facts.by_key_le.
    + intros a. apply sorted_stable. apply order_facts.by_key_trans.
Qed.

(** ** C9: only occurrences with an uncovered line are recorded *)

Lemma class_occurrence_shape (cls : Class) :
  Forall (fun e => f_uncovered e = f_total e - f_covered e)
    (class_occurrence cls).
Proof.
  unfold class_occurrence. destruct (lines cls); repeat constructor.
Qed.

Lemma occurrences_shape fs coverage_files pkg :
  Forall (fun e => f_uncovered e = f_total e - f_covered e)
    (occurrences fs coverage_files pkg).
Proof.
  unfold occurrences. apply Forall_concat, Forall_map, Forall_forall.
  intros f _. unfold file_occurrences. destruct (fs f); [done|done|].
  unfold report_occurrences. apply Forall_concat, Forall_map, Forall_forall.
  intros p _. unfold package_occurrences. destruct (_ && _); [|done].
  apply Forall_concat, Forall_map, Forall_forall.
  intros cls _. apply class_occurrence_shape.
Qed.

Lemma recorded_files_uncovered fs coverage_files pkg :
  Forall (fun e => 1 <= f_uncovered e)
    (List.filter has_uncovered (occurrences fs coverage_files pkg)).
Proof.
  pose proof (occurrences_shape fs coverage_files pkg) as Hs.
  rewrite Forall_forall in Hs. apply Forall_forall.
  intros e [He Hu]%list_elem_of_In%filter_In.
  apply list_elem_of_In in He. rewrite (Hs e He).
  unfold has_uncovered in Hu. lia.
Qed.

(** C9.  A per-file entry is recorded only for a class occurrence with at
    least one line that was not hit: [add_class] appends the entry of the
    class exactly when [covered < total], in analyze_all_coverage and in
    analyze_project_coverage, so a fully covered occurrence leaves the list
    of entries (hence the merged entry of its file) as it was; every file
    row that [main] prints in a detail view, and every entry of
    [uncovered_files] that analyze_project_coverage returns, has at least
    one uncovered line. *)
Theorem only_occurrences_with_uncovered_lines_are_recorded :
  (forall pn results cls pkg,
     files_of pkg (add_class pn results cls)
     = files_of pkg results
       ++ (if String.eqb pkg pn
           then List.filter has_uncovered (class_occurrence cls) else []))
  /\ (forall pn results cls pkg,
        count_covered (lines cls) = count_total (lines cls) ->
        files_of pkg (add_class pn results cls) = files_of pkg results)
  /\ (forall fs coverage_files n c u m,
        FileRow n c u m ∈ (main fs coverage_files).1 -> 1 <= u)
  /\ (forall acc cls,
        count_covered (lines cls) = count_total (lines cls) ->
        (analyze_project_coverage.add_class acc cls).2 = acc.2)
  /\ (forall fs coverage_file target_assembly data,
        analyze_project_coverage.analyze_project_coverage
          fs coverage_file target_assembly = Ok (Some data) ->
        Forall (fun f => 1 <= analyze_project_coverage.u_uncovered f)
          (analyze_project_coverage.p_uncovered_files data)).
Proof.
  assert (forall pn results cls pkg,
            files_of pkg (add_class pn results cls)
            = files_of pkg results
              ++ (if String.eqb pkg pn
                  then List.filter has_uncovered (class_occurrence cls)
                  else [])) as Hrec.
  { intros pn results cls pkg. unfold files_of.
    rewrite aggregates_facts.asm_of_add_class.
    by destruct (String.eqb pkg pn). }
  split; [exact Hrec|]. split; [|split; [|split]].
  - intros pn results cls pkg Hfull. rewrite Hrec.
    destruct (String.eqb pkg pn); [|by rewrite app_nil_r].
    unfold class_occurrence. destruct (lines cls) as [|l ls]; [by rewrite app_nil_r|].
    cbn [List.filter]. unfold has_uncovered, class_entry. cbn [f_covered f_total].
    rewrite Hfull, Z.ltb_irrefl. by rewrite app_nil_r.
  - intros fs coverage_files n c u m Hrow.
    destruct (collect fs coverage_files []) as [all_results|e] eqn:Hc.
    + rewrite (report_facts.main_ok _ _ _ Hc) in Hrow. cbn [fst] in Hrow.
      apply report_facts.report_file_rows
        in Hrow as (pkg & data & e & Hitem & He & Heq).
      injection Heq as -> -> -> ->.
      rewrite (report_facts.collect_item _ _ _ _ _ Hc Hitem) in He.
      cbn [asm_spec a_files] in He. apply subseteq_take in He.
      apply file_aggregate_facts.elem_of_sorted_files in He.
      eapply (merged_entry_pos f_name add_counts f_uncovered);
        [done|done| |exact He].
      rewrite (sorted_perm more_uncovered). apply recorded_files_uncovered.
    + rewrite (report_facts.main_raise _ _ _ Hc) in Hrow.
      by apply elem_of_nil in Hrow.
  - intros [[total covered] uncovered_files] cls Hfull.
    unfold analyze_project_coverage.add_class.
    destruct (lines cls) as [|l ls]; [done|]. cbn [snd].
    rewrite Hfull, Z.sub_diag. done.
  - intros fs coverage_file target_assembly data.
    unfold analyze_project_coverage.analyze_project_coverage.
    destruct (negb (path_exists fs coverage_file)); [done|].
    destruct (ET_parse fs coverage_file) as [root|e]; [|done].
    cbn [mbind result_mbind rbind].
    pose proof (project_facts.add_packages_uncovered target_assembly
                  (0, 0, []) (packages root) (List.Forall_nil _)) as Hall.
    destruct (foldl (analyze_project_coverage.add_package target_assembly)
                (0, 0, []) (packages root))
      as [[total covered] uncovered_files].
    cbn [snd] in Hall. destruct (total =? 0); [done|].
    intros [= <-]. cbn [analyze_project_coverage.p_uncovered_files].
    apply Forall_forall. intros e He%project_facts.elem_of_top_uncovered.
    by eapply (merged_entry_pos analyze_project_coverage.u_name
                 analyze_project_coverage.add_uncovered
                 analyze_project_coverage.u_uncovered).
Qed.

Lemma only_occurrences_with_uncovered_lines_are_recorded_twice :
  files_of "Sample" (add_class "Sample" [] (one_class "src/A.cs" 3 0)) = []
  /\ 1 <= 7
  /\ (analyze_project_coverage.add_class (0, 0, []) (one_class "src/A.cs" 3 0)).2
     = []
  /\ Forall (fun f => 1 <= analyze_project_coverage.u_uncovered f)
       (analyze_project_coverage.p_uncovered_files twice_data).
Proof.
  destruct only_occurrences_with_uncovered_lines_are_recorded
    as (_ & Hfull & Hrows & Hpfull & Hproj).
  split; [|split; [|split]].
  - apply (Hfull "Sample" [] (one_class "src/A.cs" 3 0) "Sample").
    vm_compute. reflexivity.
  - apply (Hrows twice [run1] "A.cs" 50%Q 7 "").
    vm_compute. apply list_elem_of_In. vm_compute. tauto.
  - apply (Hpfull (0, 0, []) (one_class "src/A.cs" 3 0)).
    vm_compute. reflexivity.
  - apply (Hproj twice run1 "Sample"). vm_compute. reflexivity.
Defined.

(** ** C10: the merge updates counts only *)

(** C10.  The merge of entries that share a base name updates in place the
    entry that the pass met first, and only its counts:
    - in analyze_all_coverage, no object of the store changes its name or
      its coverage percentage, and an object that is not the first of its
      name does not change at all; a listed entry has the summed total,
      covered and uncovered counts of the entries of its name and the
      coverage percentage of the first of them (in the order of line 136),
      and [file_row] prints that percentage, which is in general not the
      percentage of the summed counts;
    - in analyze_project_coverage, a returned entry has the summed
      uncovered count and the coverage percentage and generated flag of the
      first entry of its name. *)
Theorem merge_updates_counts_of_first_entry_only :
  (forall files heap refs,
     dedup_files files = (heap, refs) ->
     length heap = length files
     /\ (forall r, f_name (heap !!! r) = f_name (files !!! r)
                   /\ f_coverage (heap !!! r) = f_coverage (files !!! r))
     /\ (forall r, r ∉ refs -> heap !!! r = files !!! r))
  /\ (forall files e,
        e ∈ sorted_files files ->
        exists first,
          head (named f_name (f_name e) (sorted more_uncovered files))
          = Some first
          /\ f_coverage e = f_coverage first
          /\ f_total e = sum_of f_total (named f_name (f_name e) files)
          /\ f_covered e = sum_of f_covered (named f_name (f_name e) files)
          /\ f_uncovered e
             = sum_of f_uncovered (named f_name (f_name e) files))
  /\ (forall e,
        file_row e
        = FileRow (f_name e) (f_coverage e) (f_uncovered e)
            (generated_marker (contains ".g.cs" (f_name e))))
  /\ (exists files e,
        e ∈ sorted_files files
        /\ ~ (f_coverage e == pct (f_covered e) (f_total e))%Q)
  /\ (forall uncovered_files e,
        e ∈ analyze_project_coverage.top_uncovered uncovered_files ->
        exists first,
          head (named analyze_project_coverage.u_name
                  (analyze_project_coverage.u_name e) uncovered_files)
          = Some first
          /\ analyze_project_coverage.u_coverage e
             = analyze_project_coverage.u_coverage first
          /\ analyze_project_coverage.u_generated e
             = analyze_project_coverage.u_generated first
          /\ analyze_project_coverage.u_uncovered e
             = sum_of analyze_project_coverage.u_uncovered
                 (named analyze_project_coverage.u_name
                    (analyze_project_coverage.u_name e) uncovered_files)).
Proof.
  split; [|split; [|split; [done|split]]].
  - intros files heap refs. unfold dedup_files.
    destruct (sorted_refs_ok (by_uncovered files) files) as [Hnd Hlt].
    pose proof (dedup_loop_kept f_name add_counts f_name (fun _ _ => eq_refl)
                  (sorted (by_uncovered files) (seq 0 (length files))) files)
      as Hname.
    pose proof (dedup_loop_kept f_name add_counts f_coverage
                  (fun _ _ => eq_refl)
                  (sorted (by_uncovered files) (seq 0 (length files))) files)
      as Hcov.
    destruct (dedup_loop f_name add_counts
                (sorted (by_uncovered files) (seq 0 (length files))) files)
      as [heap' seen] eqn:Hloop.
    intros [= <- <-].
    destruct (dedup_loop_merged f_name add_counts
                analyze_all_coverage_facts.name_add_counts _ _ _ _
                Hnd Hlt Hloop) as (_ & Hlen & Hframe & _).
    split; [done|]. split; [by split|].
    intros r Hr. apply Hframe. by rewrite (sorted_perm _ _) in Hr.
  - intros files e He.
    destruct (file_aggregate_facts.sorted_files_sums files e He)
      as (Ht & Hc & Hu).
    apply file_aggregate_facts.elem_of_sorted_files in He.
    destruct (merged_entry_kept f_name add_counts
                analyze_all_coverage_facts.name_add_counts f_coverage
                (fun _ _ => eq_refl) _ e He) as (first & Hfirst & Hcov).
    by exists first.
  - exists (files_of "Sample" (all_results_of twice [run1])).
    exists {| f_name := "A.cs"; f_total := 20; f_covered := 13;
              f_uncovered := 7; f_coverage := 50 |}.
    split.
    + apply list_elem_of_In. vm_compute. tauto.
    + vm_compute. discriminate.
  - intros uncovered_files e He%project_facts.elem_of_top_uncovered.
    destruct (merged_entry_kept analyze_project_coverage.u_name
                analyze_project_coverage.add_uncovered
                project_facts.name_add_uncovered
                (fun u => (analyze_project_coverage.u_coverage u,
                           analyze_project_coverage.u_generated u))
                (fun _ _ => eq_refl) _ e He) as (first & Hfirst & Hkept).
    exists first. injection Hkept as Hcov Hgen.
    repeat split; try done.
    by apply (merged_entry_sum analyze_project_coverage.u_name
                analyze_project_coverage.add_uncovered
                project_facts.name_add_uncovered).
Qed.

Lemma merge_updates_counts_of_first_entry_only_twice :
  exists first,
    head (named f_name "A.cs"
            (sorted more_uncovered
               (files_of "Sample" (all_results_of twice [run1]))))
    = Some first
    /\ f_coverage first = 50%Q
    /\ In (FileRow "A.cs" 50 7 "") (main twice [run1]).1.
Proof.
  destruct merge_updates_counts_of_first_entry_only as (_ & Hlisted & _).
  destruct (Hlisted (files_of "Sample" (all_results_of twice [run1]))
              {| f_name := "A.cs"; f_total := 20; f_covered := 13;
                 f_uncovered := 7; f_coverage := 50 |})
    as (first & Hfirst & Hcov & _).
  - apply list_elem_of_In. vm_compute. tauto.
  - exists first. split; [exact Hfirst|]. split; [by rewrite <- Hcov|].
    vm_compute. tauto.
Defined.

(** ** C5: test assemblies *)

Module test_assembly_facts.

Lemma path_exists_without fs p :
  path_exists (without_test_assemblies fs) p = path_exists fs p.
Proof.
  unfold path_exists, without_test_assemblies. by destruct (fs p).
Qed.

Lemma ET_parse_without fs p :
  ET_parse (without_test_assemblies fs) p
  = root ← ET_parse fs p;
    Ok {| line_rate := line_rate root;
          packages := without_tests (packages root) |}.
Proof. unfold ET_parse, without_test_assemblies. by destruct (fs p). Qed.

(** A loop that skips test assemblies runs the same without them. *)
Lemma foldl_without_tests {S} (step : S -> Package -> S) (ps : list Package) s :
  (forall s p, is_test_assembly p = true -> step s p = s) ->
  foldl step s (without_tests ps) = foldl step s ps.
Proof.
  intros Hskip. revert s. induction ps as [|p ps IH]; intros s; [done|].
  unfold without_tests in *. cbn [List.filter foldl].
  destruct (is_test_assembly p) eqn:Ht; cbn [negb foldl].
  - by rewrite (Hskip s p Ht).
  - apply IH.
Qed.

Lemma map_without_tests {B} (rows : Package -> list B) (ps : list Package) :
  (forall p, is_test_assembly p = true -> rows p = []) ->
  concat (map rows (without_tests ps)) = concat (map rows ps).
Proof.
  intros Hskip. induction ps as [|p ps IH]; [done|].
  unfold without_tests in *. cbn [List.filter map concat].
  destruct (is_test_assembly p) eqn:Ht; cbn [negb map concat].
  - by rewrite (Hskip p Ht).
  - by rewrite IH.
Qed.

Lemma analyze_coverage_without fs f pf :
  analyze_coverage (without_test_assemblies fs) f pf = analyze_coverage fs f pf.
Proof.
  unfold analyze_coverage. rewrite path_exists_without, ET_parse_without.
  destruct (negb (path_exists fs f)); [done|].
  destruct (ET_parse fs f) as [root|e]; [|done].
  cbn [mbind result_mbind rbind packages]. do 2 f_equal.
  apply foldl_without_tests. intros s p Ht. unfold add_package.
  unfold is_test_assembly in Ht. by rewrite Ht.
Qed.

Lemma collect_without fs coverage_files all :
  collect (without_test_assemblies fs) coverage_files all
  = collect fs coverage_files all.
Proof.
  revert all. induction coverage_files as [|f rest IH]; intros all; [done|].
  cbn [collect]. rewrite analyze_coverage_without.
  destruct (analyze_coverage fs f None) as [[[|x r]|]|e];
    cbn [mbind result_mbind rbind]; by rewrite ?IH.
Qed.

Lemma analyze_project_coverage_without fs f target :
  analyze_project_coverage.analyze_project_coverage
    (without_test_assemblies fs) f target
  = analyze_project_coverage.analyze_project_coverage fs f target.
Proof.
  unfold analyze_project_coverage.analyze_project_coverage.
  rewrite path_exists_without, ET_parse_without.
  destruct (negb (path_exists fs f)); [done|].
  destruct (ET_parse fs f) as [root|e]; [|done].
  cbn [mbind result_mbind rbind packages].
  rewrite foldl_without_tests; [done|].
  intros s p Ht. unfold analyze_project_coverage.add_package.
  unfold is_test_assembly in Ht. rewrite Ht. by rewrite orb_true_r.
Qed.

Lemma project_collect_without fs mapping results :
  analyze_project_coverage.collect (without_test_assemblies fs) mapping results
  = analyze_project_coverage.collect fs mapping results.
Proof.
  revert results.
  induction mapping as [|[test_project source_assembly] rest IH];
    intros results; [done|].
  cbn [analyze_project_coverage.collect].
  rewrite analyze_project_coverage_without.
  destruct (analyze_project_coverage.analyze_project_coverage _ _ _)
    as [[data|]|e]; cbn [mbind result_mbind rbind]; by rewrite ?IH.
Qed.

Lemma selected_test p :
  is_test_assembly p = true -> analyze_core_detailed.selected (pkg_name p) = false.
Proof.
  unfold is_test_assembly, analyze_core_detailed.selected. intros ->.
  by rewrite andb_false_r.
Qed.

Lemma core_main_without fs :
  analyze_core_detailed.main (without_test_assemblies fs)
  = analyze_core_detailed.main fs.
Proof.
  unfold analyze_core_detailed.main. rewrite ET_parse_without.
  destruct (ET_parse fs analyze_core_detailed.coverage_path) as [root|e];
    [|done].
  unfold lift. cbn [mbind result_mbind rbind io_mbind io_bind packages].
  rewrite map_without_tests.
  2:{ intros p Ht. unfold analyze_core_detailed.package_rows.
      by rewrite selected_test. }
  unfold analyze_core_detailed.overall_counts.
  rewrite foldl_without_tests; [done|].
  intros s p Ht. by rewrite selected_test.
Qed.

End test_assembly_facts.

(** C5, as stated, fails.  find_uncovered reports the package whose name is
    the target assembly; asked for "Sample.Tests", it prints the classes and
    the uncovered lines of that test assembly.  check_coverage_detailed
    excludes the names that contain ".Tests": it reports
    "KeenEyes.IntegrationTests". *)
Lemma test_assembly_is_reported :
  contains "Tests" "Sample.Tests" = true
  /\ find_uncovered.main tests_only [run1; "Sample.Tests"]
     = ([TargetHead "Sample.Tests"; Rule "=" 70; ClassHead "C" "T.cs";
         ClassCoverageRow 50 1 2 1; UncoveredLines ["2"]], Ok tt)
  /\ contains "Tests" "KeenEyes.IntegrationTests" = true
  /\ check_coverage_detailed.main integration_tests [run1]
     = ([ProjectHead "One.Tests"; Rule "-" 60;
         PackageRow "KeenEyes.IntegrationTests" 50 1 2], Ok tt).
Proof. vm_compute. repeat split; reflexivity. Qed.

(** C5 (amended).  In analyze_all_coverage (for every project filter), in
    analyze_project_coverage (for every target assembly and mapping) and in
    analyze_core_detailed, a package whose name contains "Tests" contributes
    nothing: what the functions return and everything the scripts print is
    what they return and print for the same files with those packages
    removed.  (find_uncovered selects the package whose name equals the
    target assembly, and check_coverage_detailed excludes the names that
    contain ".Tests".) *)
Theorem test_assemblies_contribute_nothing (fs : filesystem) :
  (forall coverage_file project_filter,
     analyze_coverage (without_test_assemblies fs) coverage_file project_filter
     = analyze_coverage fs coverage_file project_filter)
  /\ (forall coverage_files,
        main (without_test_assemblies fs) coverage_files
        = main fs coverage_files)
  /\ (forall coverage_file target_assembly,
        analyze_project_coverage.analyze_project_coverage
          (without_test_assemblies fs) coverage_file target_assembly
        = analyze_project_coverage.analyze_project_coverage
            fs coverage_file target_assembly)
  /\ (forall mapping,
        analyze_project_coverage.main_with (without_test_assemblies fs) mapping
        = analyze_project_coverage.main_with fs mapping)
  /\ analyze_core_detailed.main (without_test_assemblies fs)
     = analyze_core_detailed.main fs.
Proof.
  split; [|split; [|split; [|split]]].
  - intros. apply test_assembly_facts.analyze_coverage_without.
  - intros. unfold main. by rewrite test_assembly_facts.collect_without.
  - intros. apply test_assembly_facts.analyze_project_coverage_without.
  - intros. unfold analyze_project_coverage.main_with.
    by rewrite test_assembly_facts.project_collect_without.
  - apply test_assembly_facts.core_main_without.
Qed.

(** ** C2: a file that is not XML *)

Module parse_error_facts.

(** analyze_all_coverage: [ET.parse] is called outside any [try]; the
    first file that is not XML ends [main] before anything is printed. *)
Lemma main_aborts fs coverage_files :
  Exists (fun f => fs f = Garbage) coverage_files ->
  main fs coverage_files = ([], Raise ParseError).
Proof.
  intros Hg. apply report_facts.main_raise.
  by apply aggregates_facts.collect_garbage.
Qed.

(** check_coverage: the [try] of lines 9-15 turns the error into a line
    that names the file, and the loop goes on. *)
Lemma check_coverage_step fs results f part :
  second_part f = Ok part ->
  check_coverage.step fs results f
  = match fs f with
    | Xml root =>
        ([], Ok (results ++ [(replace ".Tests" "" part,
                              (line_rate root * 100)%Q)]))
    | Garbage => ([ErrorLine f ParseError], Ok results)
    | Absent => ([ErrorLine f FileNotFoundError], Ok results)
    end.
Proof.
  intros Hp. unfold check_coverage.step, ET_parse. rewrite Hp.
  by destruct (fs f).
Qed.

Lemma check_coverage_loop_ok fs files results :
  Forall (fun f => exists part, second_part f = Ok part) files ->
  exists out results',
    check_coverage.loop fs files results = (out, Ok results')
    /\ forall f, f ∈ files -> fs f = Garbage -> ErrorLine f ParseError ∈ out.
Proof.
  revert results. induction files as [|f rest IH]; intros results Hparts.
  - exists [], results. split; [done|]. by intros f ?%elem_of_nil.
  - apply Forall_cons in Hparts as [[part Hp] Hparts].
    cbn [check_coverage.loop]. rewrite (check_coverage_step _ _ _ _ Hp).
    destruct (fs f) as [| |root] eqn:Hf;
      cbn [mbind io_mbind io_bind].
    + destruct (IH results Hparts) as (out & results' & -> & Hout).
      eexists _, results'. split; [done|].
      intros f' [->|Hin]%elem_of_cons Hg; [congruence|].
      right. by apply Hout.
    + destruct (IH results Hparts) as (out & results' & -> & Hout).
      eexists _, results'. split; [done|].
      intros f' [->|Hin]%elem_of_cons Hg; [left|].
      right. by apply Hout.
    + destruct (IH (results ++ [(replace ".Tests" "" part,
                                  (line_rate root * 100)%Q)]) Hparts)
        as (out & results' & -> & Hout).
      eexists _, results'. split; [done|].
      intros f' [->|Hin]%elem_of_cons Hg; [congruence|].
      by apply Hout.
Qed.

(** check_coverage ends normally whatever the files hold, and names every
    file that is not XML. *)
Lemma check_coverage_skips fs files :
  Forall (fun f => exists part, second_part f = Ok part) files ->
  exists out,
    check_coverage.main fs files = (out, Ok tt)
    /\ forall f, f ∈ files -> fs f = Garbage -> ErrorLine f ParseError ∈ out.
Proof.
  intros Hparts. unfold check_coverage.main.
  destruct (check_coverage_loop_ok fs files [] Hparts)
    as (out & results & -> & Hout).
  cbn [mbind io_mbind io_bind print].
  destruct (for_each (sorted check_coverage.by_pct results)
              (fun x => print (check_coverage.bar_row x)))
    as [rows r] eqn:Hrows.
  assert (r = Ok tt) as ->.
  { revert rows r Hrows.
    induction (sorted check_coverage.by_pct results) as [|x l IHl];
      intros rows r; cbn [for_each].
    - by intros [= <- <-].
    - destruct (for_each l _) as [rows' r'] eqn:Hl.
      cbn [print mbind io_mbind io_bind]. intros [= <- <-].
      by eapply IHl. }
  eexists. split; [done|]. intros f Hin Hg.
  apply elem_of_app. left. by apply Hout.
Qed.

End parse_error_facts.

(** C2 holds for check_coverage and fails for analyze_all_coverage.  With a
    file that is not XML next to a well-formed report, check_coverage
    prints an error line naming the file and goes on to report the other
    one; analyze_all_coverage.main raises the parse error and prints
    nothing, although the second file is valid. *)
Theorem parse_error_aborts_analyze_all_coverage :
  check_coverage.main one_bad [run1; run2]
  = ([ErrorLine run1 ParseError;
      Text "Coverage by Project (lowest first):"; Rule "=" 50;
      BarRow "Two" 100 20; Rule "=" 50], Ok tt)
  /\ main one_bad [run1; run2] = ([], Raise ParseError)
  /\ main one_bad [run2]
     = (report (all_results_of one_bad [run2]), Ok tt).
Proof. vm_compute. repeat split; reflexivity. Qed.

(** ** C3: a path that does not exist *)

Module missing_file_facts.

Lemma analyze_project_coverage_absent fs f target :
  fs f = Absent ->
  analyze_project_coverage.analyze_project_coverage fs f target = Ok None.
Proof.
  intros Hf. unfold analyze_project_coverage.analyze_project_coverage.
  unfold path_exists. by rewrite Hf.
Qed.

(** The loops of the two scripts that have a loader go on after a path
    that does not exist. *)
Lemma collect_skips_absent fs f rest all :
  fs f = Absent -> collect fs (f :: rest) all = collect fs rest all.
Proof.
  intros Hf. cbn [collect].
  by rewrite aggregates_facts.analyze_coverage_absent.
Qed.

Lemma project_collect_skips_absent fs test_project source rest results :
  fs (analyze_project_coverage.coverage_path test_project) = Absent ->
  analyze_project_coverage.collect fs ((test_project, source) :: rest) results
  = analyze_project_coverage.collect fs rest results.
Proof.
  intros Hf. cbn [analyze_project_coverage.collect].
  by rewrite analyze_project_coverage_absent.
Qed.

(** find_uncovered and analyze_core_detailed parse the path as it is. *)
Lemma find_uncovered_absent fs argv :
  fs (nth 0 argv find_uncovered.default_coverage_file) = Absent ->
  find_uncovered.main fs argv = ([], Raise FileNotFoundError).
Proof. intros Hf. unfold find_uncovered.main, ET_parse. by rewrite Hf. Qed.

Lemma analyze_core_detailed_absent fs :
  fs analyze_core_detailed.coverage_path = Absent ->
  analyze_core_detailed.main fs = ([], Raise FileNotFoundError).
Proof. intros Hf. unfold analyze_core_detailed.main, ET_parse. by rewrite Hf. Qed.

End missing_file_facts.

(** C3 holds for the two functions that load a file for a caller and fails
    for the scripts that parse at module level.  For a path that does not
    exist, [analyze_coverage] and [analyze_project_coverage] return [None]
    and [analyze_all_coverage.main] goes on with the other files;
    find_uncovered and analyze_core_detailed raise [FileNotFoundError]. *)
Theorem missing_path_raises_in_find_uncovered :
  analyze_coverage two_runs "tests/Missing.Tests/TestResults/coverage.xml" None
  = Ok None
  /\ analyze_project_coverage.analyze_project_coverage two_runs
       "tests/Missing.Tests/TestResults/coverage.xml" "Sample"
     = Ok None
  /\ main two_runs ["tests/Missing.Tests/TestResults/coverage.xml"; run2]
     = main two_runs [run2]
  /\ find_uncovered.main two_runs
       ["tests/Missing.Tests/TestResults/coverage.xml"; "Sample"]
     = ([], Raise FileNotFoundError)
  /\ analyze_core_detailed.main two_runs = ([], Raise FileNotFoundError).
Proof. vm_compute. repeat split; reflexivity. Qed.

(** ** C4: percentages *)

Module percentage_facts.

Lemma percent_eq covered total :
  (percent covered total == inject_Z covered / inject_Z total * 100)%Q.
Proof. unfold percent. apply Qred_correct. Qed.

(** The guarded percentage is a percentage. *)
Lemma pct_range covered total :
  0 <= covered <= total -> (0 <= pct covered total <= 100)%Q.
Proof.
  intros [H0 Hle]. unfold pct. destruct (0 <? total) eqn:Ht; [|lra].
  apply Z.ltb_lt in Ht. rewrite percent_eq.
  assert (0 < inject_Z total)%Q as Hpos.
  { change 0%Q with (inject_Z 0). by rewrite <- Zlt_Qlt. }
  assert (0 <= inject_Z covered)%Q as Hc.
  { change 0%Q with (inject_Z 0). by rewrite <- Zle_Qle. }
  assert (inject_Z covered <= inject_Z total)%Q as Hct.
  { by rewrite <- Zle_Qle. }
  assert (0 <= inject_Z covered / inject_Z total <= 1)%Q as [Hq0 Hq1].
  { split.
    - apply Qle_shift_div_l; [done|]. lra.
    - apply Qle_shift_div_r; [done|]. lra. }
  lra.
Qed.

Lemma pct_zero_total covered : pct covered 0 = 0%Q.
Proof. done. Qed.

Lemma count_covered_range ls : 0 <= count_covered ls <= count_total ls.
Proof.
  unfold count_covered, count_total. split; [lia|].
  apply inj_le, List.filter_length_le.
Qed.

(** The file entries of analyze_all_coverage carry a percentage. *)
Lemma class_entry_range cls :
  (0 <= f_coverage (class_entry (filename cls) (count_total (lines cls))
                      (count_covered (lines cls))) <= 100)%Q.
Proof. apply pct_range, count_covered_range. Qed.

(** Line 44 of analyze_core_detailed divides without a guard. *)
Lemma overall_division fs root :
  fs analyze_core_detailed.coverage_path = Xml root ->
  (analyze_core_detailed.overall_counts (packages root)).1 = 0 ->
  (analyze_core_detailed.main fs).2 = Raise ZeroDivisionError.
Proof.
  intros Hf Hz. unfold analyze_core_detailed.main, ET_parse. rewrite Hf.
  unfold lift. cbn [mbind io_mbind io_bind]. rewrite for_each_print.
  destruct (analyze_core_detailed.overall_counts (packages root))
    as [total_lines covered_lines].
  cbn [fst] in Hz. subst total_lines. done.
Qed.

End percentage_facts.

Module range_facts.
Import percentage_facts report_facts aggregates_facts file_aggregate_facts.

Lemma percent_pct covered total :
  0 < total -> percent covered total = pct covered total.
Proof. intros Ht. unfold pct. by rewrite (proj2 (Z.ltb_lt 0 total) Ht). Qed.

Lemma class_occurrence_counts (cls : Class) :
  Forall (fun e => 0 <= f_covered e <= f_total e /\ in_range (f_coverage e))
    (class_occurrence cls).
Proof.
  unfold class_occurrence. destruct (lines cls) as [|l ls]; [done|].
  apply Forall_singleton. cbn [class_entry f_covered f_total f_coverage].
  split; [apply count_covered_range|apply pct_range, count_covered_range].
Qed.

Lemma occurrences_counts fs coverage_files pkg :
  Forall (fun e => 0 <= f_covered e <= f_total e /\ in_range (f_coverage e))
    (occurrences fs coverage_files pkg).
Proof.
  unfold occurrences. apply Forall_concat, Forall_map, Forall_forall.
  intros f _. unfold file_occurrences. destruct (fs f); [done|done|].
  unfold report_occurrences. apply Forall_concat, Forall_map, Forall_forall.
  intros p _. unfold package_occurrences. destruct (_ && _); [|done].
  apply Forall_concat, Forall_map, Forall_forall.
  intros cls _. apply class_occurrence_counts.
Qed.

Lemma sums_ordered (l : list file_entry) :
  Forall (fun e => 0 <= f_covered e <= f_total e /\ in_range (f_coverage e)) l ->
  0 <= sum_of f_covered l <= sum_of f_total l.
Proof.
  induction 1 as [|e l [He _] _ IH]; [done|]. rewrite !sum_of_cons. lia.
Qed.

Lemma collect_assembly_ok fs coverage_files all_results :
  collect fs coverage_files [] = Ok all_results ->
  Forall (fun x => assembly_ok x.2) all_results.
Proof.
  intros Hc. apply Forall_forall. intros [k data] Hin.
  rewrite (collect_item _ _ _ _ _ Hc Hin). cbn [snd].
  pose proof (occurrences_counts fs coverage_files k) as Hocc.
  split; [by apply sums_ordered|]. cbn [asm_spec a_files].
  apply Forall_forall. intros e [He _]%list_elem_of_In%filter_In.
  rewrite Forall_forall in Hocc. by apply Hocc, list_elem_of_In.
Qed.

Lemma overview_rows_range (l : list (string * assembly)) acc :
  Forall (fun x => assembly_ok x.2) l ->
  Forall (fun p => forall c, shown_percentage p = Some c -> in_range c) acc.1 ->
  0 <= acc.2.2 <= acc.2.1 ->
  Forall (fun p => forall c, shown_percentage p = Some c -> in_range c)
    (foldl overview_row acc l).1
  /\ 0 <= (foldl overview_row acc l).2.2 <= (foldl overview_row acc l).2.1.
Proof.
  intros Hl. revert acc. induction Hl as [|[k data] l [Hd _] _ IH];
    intros [out [t c]] Hout Htc; [done|].
  cbn [foldl]. apply IH; unfold overview_row; cbn [fst snd] in *;
    destruct (a_total data =? 0) eqn:Ez; cbn [fst snd]; try done; try lia.
  apply Forall_app. split; [done|]. apply Forall_singleton.
  intros q [= <-]. rewrite percent_pct by lia. by apply pct_range.
Qed.

Lemma sorted_files_range (files : list file_entry) :
  Forall (fun e => in_range (f_coverage e)) files ->
  Forall (fun e => in_range (f_coverage e)) (sorted_files files).
Proof.
  intros Hall. apply Forall_forall. intros e He.
  apply elem_of_sorted_files in He.
  destruct (merged_entry_kept f_name add_counts
              analyze_all_coverage_facts.name_add_counts f_coverage
              (fun _ _ => eq_refl) _ e He) as (first & Hfirst & ->).
  assert (first ∈ files) as Hin.
  { apply head_Some_elem_of in Hfirst.
    apply elem_of_named in Hfirst as [Hfirst _].
    by rewrite (sorted_perm more_uncovered) in Hfirst. }
  rewrite Forall_forall in Hall. by apply Hall.
Qed.

Lemma detail_block_range (x : string * assembly) :
  assembly_ok x.2 ->
  Forall (fun p => forall c, shown_percentage p = Some c -> in_range c)
    (detail_block x).
Proof.
  destruct x as [k data]. intros [Hd Hfiles]. unfold detail_block.
  cbn [snd] in *.
  destruct (a_total data =? 0) eqn:Ez; [done|].
  destruct (Qle_bool 90 _); [done|].
  apply Forall_app. split.
  - apply Forall_cons. split; [|by apply Forall_singleton].
    intros q [= <-]. rewrite percent_pct by lia. by apply pct_range.
  - apply Forall_map, Forall_forall. intros e He%subseteq_take q [= <-].
    pose proof (sorted_files_range _ Hfiles) as Hs.
    rewrite Forall_forall in Hs. by apply Hs.
Qed.

(** Every percentage that analyze_all_coverage prints lies in [0, 100]. *)
Lemma main_percentages_in_range fs coverage_files p c :
  p ∈ (main fs coverage_files).1 -> shown_percentage p = Some c -> in_range c.
Proof.
  destruct (collect fs coverage_files []) as [all_results|e] eqn:Hc.
  2:{ rewrite (main_raise _ _ _ Hc). by intros ?%elem_of_nil. }
  rewrite (main_ok _ _ _ Hc). cbn [fst].
  pose proof (collect_assembly_ok _ _ _ Hc) as Hok.
  assert (Forall (fun x => assembly_ok x.2) (sorted by_coverage all_results))
    as Hsorted by (by rewrite (sorted_perm by_coverage)).
  unfold report.
  destruct (overview_rows_range (sorted by_coverage all_results) ([], (0, 0))
              Hsorted) as [Hrows Htot]; [done|done|].
  destruct (foldl overview_row ([], (0, 0)) (sorted by_coverage all_results))
    as [rows [total_all covered_all]].
  cbn [fst snd] in Hrows, Htot.
  rewrite !elem_of_app. intros [Hin|[Hin|[Hin|[Hin|Hin]]]] Hp.
  - repeat (apply elem_of_cons in Hin as [->|Hin]; [discriminate|]).
    by apply elem_of_nil in Hin.
  - rewrite Forall_forall in Hrows. by apply (Hrows p).
  - repeat (apply elem_of_cons in Hin as [->|Hin];
            [first [discriminate
                   |injection Hp as <-; by apply pct_range]|]).
    by apply elem_of_nil in Hin.
  - apply list_elem_of_In, in_concat in Hin as (block & Hblock & Hrow).
    apply list_elem_of_In in Hblock, Hrow.
    apply list_elem_of_fmap in Hblock as (x & -> & Hx).
    rewrite Forall_forall in Hsorted.
    pose proof (detail_block_range x (Hsorted x Hx)) as Hb.
    rewrite Forall_forall in Hb. by apply (Hb p).
  - repeat (apply elem_of_cons in Hin as [->|Hin]; [discriminate|]).
    by apply elem_of_nil in Hin.
Qed.

End range_facts.

(** C4 holds for the guarded computations and fails at line 44 of
    analyze_core_detailed.  [pct] (the expression
    [(covered / total * 100) if total > 0 else 0] of the other places) is
    0 when total is 0 and lies in [0, 100]; the overall line of
    analyze_core_detailed divides [covered_lines] by [total_lines] without
    the guard: on a report without a line of KeenEyes.Core the script ends
    with [ZeroDivisionError]. *)
Theorem overall_percentage_divides_by_zero :
  (forall covered, pct covered 0 = 0%Q)
  /\ analyze_core_detailed.overall_counts
       (packages (one_package "Sample" [one_class "src/A.cs" 5 5]))
     = (0, 0)
  /\ analyze_core_detailed.main core_empty = ([], Raise ZeroDivisionError).
Proof. vm_compute. repeat split; reflexivity. Qed.

(** ** C8: nothing to report *)

Module empty_result_facts.








End empty_result_facts.




(** * Further properties of the scripts *)

(** ** The deduplication of lines 136-149 and 75-87 *)

Section MergedTotals.
Context {E : Type}.
Context (name : E -> string) (add : E -> E -> E) (m : E -> Z).
Hypothesis m_add : forall g f, m (add g f) = m g + m f.

Lemma merge_into_total (f : E) (acc : list E) :
  sum_of m (merge_into name add f acc) = sum_of m acc + m f.
Proof.
  induction acc as [|g acc IH]; cbn [merge_into].
  - rewrite !sum_of_cons. cbn [sum_of foldr]. lia.
  - destruct (String.eqb (name f) (name g)); rewrite !sum_of_cons, ?m_add, ?IH; lia.
Qed.

Lemma merged_total (l : list E) : sum_of m (merged name add l) = sum_of m l.
Proof.
  unfold merged.
  assert (forall acc, sum_of m (foldl (fun acc f => merge_into name add f acc) acc l)
                      = sum_of m acc + sum_of m l) as Hgen.
  { induction l as [|f l IH]; intros acc; cbn [foldl].
    - cbn [sum_of foldr]. lia.
    - rewrite IH, merge_into_total, sum_of_cons. lia. }
  rewrite Hgen. cbn [sum_of foldr]. lia.
Qed.

End MergedTotals.

(** X1.  The deduplication of analyze_all_coverage neither loses nor
    double-counts a line: the total, covered and uncovered counts of the
    deduplicated, re-sorted list add up to those of the recorded entries. *)
Theorem deduplication_preserves_the_counts (files : list file_entry) :
  sum_of f_total (sorted_files files) = sum_of f_total files
  /\ sum_of f_covered (sorted_files files) = sum_of f_covered files
  /\ sum_of f_uncovered (sorted_files files) = sum_of f_uncovered files.
Proof.
  rewrite analyze_all_coverage_facts.sorted_files_eq.
  repeat split.
  all: rewrite (sum_of_perm _ _ _ (sorted_perm more_uncovered _)).
  all: rewrite (merged_total f_name add_counts) by done.
  all: apply sum_of_perm, sorted_perm.
Qed.

(** X2.  After the deduplication no two entries share a name, and the names
    are those of the recorded entries: a base name that was recorded is
    listed once (before the cut to ten entries), and nothing else is
    listed. *)
Theorem deduplicated_names_are_distinct (files : list file_entry) :
  NoDup (map f_name (sorted_files files))
  /\ (forall n, n ∈ map f_name (sorted_files files) <-> n ∈ map f_name files)
  /\ NoDup (map f_name (take 10 (sorted_files files)))
  /\ (length (take 10 (sorted_files files)) <= 10)%nat.
Proof.
  assert (NoDup (map f_name (sorted_files files))) as Hnd.
  { rewrite analyze_all_coverage_facts.sorted_files_eq.
    rewrite (sorted_perm more_uncovered).
    apply (merged_NoDup f_name add_counts
             analyze_all_coverage_facts.name_add_counts). }
  split; [done|]. split; [|split].
  - intros n. rewrite analyze_all_coverage_facts.sorted_files_eq.
    rewrite (sorted_perm more_uncovered).
    rewrite (merged_names f_name add_counts
               analyze_all_coverage_facts.name_add_counts).
    by rewrite (sorted_perm more_uncovered).
  - change (map f_name) with (fmap (M:=list) f_name).
    rewrite fmap_take. eapply sublist_NoDup; [exact Hnd|apply sublist_take].
  - rewrite length_take. lia.
Qed.

(** ** What analyze_coverage returns and [all_results] holds *)

Lemma dict_set_Forall {V} (R : string * V -> Prop) k v (d : dict V) :
  Forall R d -> R (k, v) -> Forall R (dict_set k v d).
Proof.
  intros Hd Hkv. induction Hd as [|[k0 v0] d H0 Hd IH]; cbn [dict_set].
  - by apply Forall_singleton.
  - destruct (String.eqb k k0); by apply Forall_cons.
Qed.

Lemma dict_get_elem_of {V} k v (d : dict V) :
  dict_get k d = Some v -> (k, v) ∈ d.
Proof.
  induction d as [|[k0 v0] d IH]; [done|]. cbn [dict_get].
  destruct (String.eqb k k0) eqn:Ek.
  - apply String.eqb_eq in Ek as ->. intros [= ->]. left.
  - intros Hg. right. by apply IH.
Qed.

Lemma basename_no_slash p : contains "/" (basename p) = false.
Proof.
  induction p as [|c r IH]; [done|]. cbn [basename].
  destruct (contains "/" r) eqn:Hr; [done|].
  destruct (Ascii.eqb c "/") eqn:Hc; [done|].
  cbn [contains String.prefix]. rewrite Hr.
  destruct (ascii_dec "/" c) as [<-|Hne]; [|done].
  by rewrite Ascii.eqb_refl in Hc.
Qed.

Module invariant_facts.
Import invariants.

Lemma class_entry_inv filename total covered :
  0 <= covered < total -> entry_inv (class_entry filename total covered).
Proof.
  intros Hc. unfold entry_inv, class_entry. cbn.
  split; [apply basename_no_slash|]. repeat split; lia.
Qed.

Lemma counts_inv_empty : counts_inv empty_assembly.
Proof. repeat split; done. Qed.

Lemma counts_inv_get pn (results : dict assembly) :
  Forall (fun kv => assembly_inv kv.2) results ->
  counts_inv (default empty_assembly (dict_get pn results)).
Proof.
  intros Hall. destruct (dict_get pn results) as [a|] eqn:Hg.
  - apply dict_get_elem_of in Hg. rewrite Forall_forall in Hall.
    by destruct (Hall _ Hg).
  - apply counts_inv_empty.
Qed.

Lemma counts_inv_app a b :
  counts_inv a -> counts_inv b -> counts_inv (aggregates.asm_app a b).
Proof.
  intros (Ha1 & Ha2 & Ha3) (Hb1 & Hb2 & Hb3). unfold aggregates.asm_app.
  split; [|split]; cbn [a_total a_covered a_files].
  - lia.
  - rewrite sum_of_app. lia.
  - by apply Forall_app.
Qed.

Lemma add_class_inv pn (results : dict assembly) cls :
  Forall (fun kv => assembly_inv kv.2) results ->
  Forall (fun kv => assembly_inv kv.2) (add_class pn results cls).
Proof.
  intros Hall. unfold add_class.
  destruct (lines cls) as [|l ls] eqn:Hl; [done|].
  apply dict_set_Forall; [done|]. cbn [snd].
  destruct (counts_inv_get pn results Hall) as (Hc & Hs & He).
  pose proof (percentage_facts.count_covered_range (l :: ls)) as Hr.
  assert (1 <= count_total (l :: ls)) as Hpos.
  { unfold count_total. cbn [length]. lia. }
  split; [cbn [a_total]; lia|].
  split; [cbn [a_total a_covered]; lia|]. cbn [a_total a_covered a_files].
  destruct (count_covered (l :: ls) <? count_total (l :: ls)) eqn:Hlt.
  - split.
    + rewrite sum_of_app, sum_of_cons. cbn [sum_of foldr class_entry f_uncovered].
      lia.
    + apply Forall_app. split; [done|]. apply Forall_singleton.
      apply class_entry_inv. lia.
  - split; [lia|done].
Qed.

Lemma add_package_inv pf (results : dict assembly) p :
  Forall (fun kv => assembly_inv kv.2) results ->
  Forall (fun kv => assembly_inv kv.2) (add_package pf results p).
Proof.
  intros Hall. unfold add_package.
  destruct (contains "Tests" (pkg_name p)); [done|].
  destruct (filtered_out pf (pkg_name p)); [done|].
  revert results Hall. induction (classes p) as [|cls cs IH];
    intros results Hall; [done|].
  cbn [foldl]. by apply IH, add_class_inv.
Qed.

Lemma add_packages_inv pf ps (results : dict assembly) :
  Forall (fun kv => assembly_inv kv.2) results ->
  Forall (fun kv => assembly_inv kv.2) (foldl (add_package pf) results ps).
Proof.
  revert results. induction ps as [|p ps IH]; intros results Hall; [done|].
  cbn [foldl]. by apply IH, add_package_inv.
Qed.

Lemma analyze_coverage_inv fs f pf r :
  analyze_coverage fs f pf = Ok (Some r) ->
  Forall (fun kv => assembly_inv kv.2) r.
Proof.
  unfold analyze_coverage. destruct (negb (path_exists fs f)); [done|].
  destruct (ET_parse fs f) as [root|e]; [|done].
  cbn [mbind result_mbind rbind]. intros [= <-].
  by apply add_packages_inv.
Qed.

Lemma merge_assembly_inv (all : dict assembly) x :
  Forall (fun kv => assembly_inv kv.2) all -> assembly_inv x.2 ->
  Forall (fun kv => assembly_inv kv.2) (merge_assembly all x).
Proof.
  intros Hall [Hx1 Hx]. destruct x as [k data]. unfold merge_assembly.
  apply dict_set_Forall; [done|]. cbn [snd] in *.
  pose proof (counts_inv_app _ _ (counts_inv_get k all Hall) Hx) as Happ.
  split; [|exact Happ].
  destruct (counts_inv_get k all Hall) as (Hc & _). cbn [a_total]. lia.
Qed.

Lemma merge_results_inv (r all : dict assembly) :
  Forall (fun kv => assembly_inv kv.2) all ->
  Forall (fun kv => assembly_inv kv.2) r ->
  Forall (fun kv => assembly_inv kv.2) (foldl merge_assembly all r).
Proof.
  intros Hall Hr. revert all Hall.
  induction Hr as [|x r Hx _ IH]; intros all Hall; [done|].
  cbn [foldl]. by apply IH, merge_assembly_inv.
Qed.

Lemma collect_inv fs coverage_files all all_results :
  Forall (fun kv => assembly_inv kv.2) all ->
  collect fs coverage_files all = Ok all_results ->
  Forall (fun kv => assembly_inv kv.2) all_results.
Proof.
  revert all. induction coverage_files as [|f rest IH]; intros all Hall.
  - cbn [collect]. by intros [= <-].
  - cbn [collect].
    destruct (analyze_coverage fs f None) as [[r|]|e] eqn:Ha; [| |done];
      cbn [mbind result_mbind rbind].
    + destruct r as [|x r]; [by apply IH|].
      apply IH. apply merge_results_inv; [done|].
      by eapply analyze_coverage_inv.
    + by apply IH.
Qed.

(** The keys of what analyze_coverage returns. *)
Lemma add_package_keys_ok pf (results : dict assembly) p :
  Forall (fun kv => contains "Tests" kv.1 = false
                    /\ filtered_out pf kv.1 = false) results ->
  Forall (fun kv => contains "Tests" kv.1 = false
                    /\ filtered_out pf kv.1 = false) (add_package pf results p).
Proof.
  intros Hall. unfold add_package.
  destruct (contains "Tests" (pkg_name p)) eqn:Ht; [done|].
  destruct (filtered_out pf (pkg_name p)) eqn:Hf; [done|].
  revert results Hall. induction (classes p) as [|cls cs IH];
    intros results Hall; [done|].
  cbn [foldl]. apply IH. unfold add_class.
  destruct (lines cls); [done|]. by apply dict_set_Forall.
Qed.

End invariant_facts.

(** X3.  The assemblies that analyze_coverage returns are never test
    assemblies and pass the project filter: no key of the result contains
    "Tests", every key contains the filter when a non-empty filter is given,
    and no key occurs twice. *)
Theorem analyze_coverage_keys
    (fs : filesystem) (coverage_file : string) (project_filter : option string)
    (results : dict assembly) :
  analyze_coverage fs coverage_file project_filter = Ok (Some results) ->
  NoDup (map fst results)
  /\ forall pkg_name data,
       (pkg_name, data) ∈ results ->
       contains "Tests" pkg_name = false
       /\ forall pf, project_filter = Some pf -> pf <> "" ->
                     contains pf pkg_name = true.
Proof.
  unfold analyze_coverage. destruct (negb (path_exists fs coverage_file)); [done|].
  destruct (ET_parse fs coverage_file) as [root|e]; [|done].
  cbn [mbind result_mbind rbind]. intros [= <-]. split.
  - apply aggregates_facts.add_packages_keys. constructor.
  - assert (Forall (fun kv => contains "Tests" kv.1 = false
                              /\ filtered_out project_filter kv.1 = false)
              (foldl (add_package project_filter) [] (packages root))) as Hall.
    { generalize (@nil (string * assembly)) (List.Forall_nil
        (fun kv : string * assembly => contains "Tests" kv.1 = false
           /\ filtered_out project_filter kv.1 = false)).
      induction (packages root) as [|p ps IH]; intros results Hall; [done|].
      cbn [foldl]. by apply IH, invariant_facts.add_package_keys_ok. }
    intros pkg_name data Hin. rewrite Forall_forall in Hall.
    destruct (Hall _ Hin) as [Ht Hf]. cbn [fst] in *. split; [done|].
    intros pf -> Hne. unfold filtered_out in Hf.
    apply String.eqb_neq in Hne. rewrite Hne in Hf. cbn [negb andb] in Hf.
    by apply negb_false_iff in Hf.
Qed.

Lemma analyze_coverage_keys_twice :
  NoDup (map fst (all_results_of twice [run1]))
  /\ forall pkg_name data,
       (pkg_name, data) ∈ all_results_of twice [run1] ->
       contains "Tests" pkg_name = false
       /\ forall pf, Some "Sam" = Some pf -> pf <> "" ->
                     contains pf pkg_name = true.
Proof.
  apply (analyze_coverage_keys twice run1 (Some "Sam")).
  vm_compute. reflexivity.
Defined.

(** X4.  In what analyze_coverage returns, every assembly has at least one
    line, its covered count lies between 0 and its total, and the uncovered
    counts of its file entries add up to total - covered; every file entry
    is named by a base name (no "/"), has at least one uncovered line,
    uncovered = total - covered, and carries the percentage of its own
    counts. *)
Theorem analyze_coverage_counts
    (fs : filesystem) (coverage_file : string) (project_filter : option string)
    (results : dict assembly) (pkg_name : string) (data : assembly) :
  analyze_coverage fs coverage_file project_filter = Ok (Some results) ->
  (pkg_name, data) ∈ results ->
  1 <= a_total data
  /\ 0 <= a_covered data <= a_total data
  /\ sum_of f_uncovered (a_files data) = a_total data - a_covered data
  /\ forall e, e ∈ a_files data ->
       contains "/" (f_name e) = false
       /\ 0 <= f_covered e
       /\ 1 <= f_uncovered e
       /\ f_uncovered e = f_total e - f_covered e
       /\ f_coverage e = pct (f_covered e) (f_total e).
Proof.
  intros Ha Hin. pose proof (invariant_facts.analyze_coverage_inv _ _ _ _ Ha) as Hall.
  rewrite Forall_forall in Hall. destruct (Hall _ Hin) as (H1 & Hc & Hs & He).
  cbn [snd] in *. repeat split; try done; try apply Hc.
  all: rewrite Forall_forall in He; by apply He.
Qed.

Lemma analyze_coverage_counts_twice :
  1 <= 20
  /\ 0 <= 13 <= 20
  /\ sum_of f_uncovered
       [class_entry "src/A.cs" 10 5; class_entry "gen/A.cs" 10 8] = 20 - 13
  /\ forall e, e ∈ [class_entry "src/A.cs" 10 5; class_entry "gen/A.cs" 10 8] ->
       contains "/" (f_name e) = false
       /\ 0 <= f_covered e
       /\ 1 <= f_uncovered e
       /\ f_uncovered e = f_total e - f_covered e
       /\ f_coverage e = pct (f_covered e) (f_total e).
Proof.
  apply (analyze_coverage_counts twice run1 None
           (all_results_of twice [run1]) "Sample"
           {| a_total := 20; a_covered := 13;
              a_files := [class_entry "src/A.cs" 10 5;
                          class_entry "gen/A.cs" 10 8] |}).
  - vm_compute. reflexivity.
  - apply list_elem_of_In. vm_compute. tauto.
Defined.

(** ** The report of analyze_all_coverage *)

Module report_shape.
Import invariants invariant_facts.

Lemma overview_rows_eq (l : list (string * assembly)) acc :
  Forall (fun kv => assembly_inv kv.2) l ->
  foldl overview_row acc l
  = (acc.1 ++ map assembly_row l,
     (acc.2.1 + sum_of (fun x => a_total x.2) l,
      acc.2.2 + sum_of (fun x => a_covered x.2) l)).
Proof.
  intros Hl. revert acc.
  induction Hl as [|[k data] l [H1 _] _ IH]; intros [out [t c]].
  - cbn [foldl map fst snd sum_of foldr]. rewrite app_nil_r. do 2 f_equal; lia.
  - cbn [foldl]. unfold overview_row at 2. cbn [snd] in H1.
    assert ((a_total data =? 0) = false) as -> by lia.
    rewrite IH. cbn [fst snd map]. rewrite !sum_of_cons. cbn [fst snd].
    rewrite <- app_assoc. cbn [app]. unfold assembly_row at 2. cbn [fst snd].
    do 2 f_equal; lia.
Qed.

(** The report, once every assembly is known to have a line. *)
Lemma report_eq (all_results : dict assembly) :
  Forall (fun kv => assembly_inv kv.2) all_results ->
  report all_results
  = report_head
    ++ map assembly_row (sorted by_coverage all_results)
    ++ report_middle (sum_of (fun x => a_covered x.2) all_results)
         (sum_of (fun x => a_total x.2) all_results)
    ++ concat (map detail_block (sorted by_coverage all_results))
    ++ report_foot.
Proof.
  intros Hall. unfold report.
  rewrite overview_rows_eq by (by rewrite (sorted_perm by_coverage)).
  cbn [fst snd app].
  rewrite !(sum_of_perm _ _ _ (sorted_perm by_coverage all_results)).
  rewrite !Z.add_0_l. done.
Qed.

Lemma filter_concat_nil {A} (p : A -> bool) (ls : list (list A)) :
  Forall (fun l => List.filter p l = []) ls -> List.filter p (concat ls) = [].
Proof.
  induction 1 as [|l ls Hl _ IH]; [done|].
  cbn [concat]. by rewrite List.filter_app, Hl, IH.
Qed.

Lemma filter_map_all {A B} (p : B -> bool) (f : A -> B) (l : list A) :
  (forall x, p (f x) = true) -> List.filter p (map f l) = map f l.
Proof.
  intros Hp. induction l as [|x l IH]; [done|].
  cbn [map List.filter]. by rewrite Hp, IH.
Qed.

Lemma filter_map_none {A B} (p : B -> bool) (f : A -> B) (l : list A) :
  (forall x, p (f x) = false) -> List.filter p (map f l) = [].
Proof.
  intros Hp. induction l as [|x l IH]; [done|].
  cbn [map List.filter]. by rewrite Hp, IH.
Qed.

Lemma detail_block_rows (p : printed -> bool) x :
  p (Rule "-" 40) = false -> (forall e, p (file_row e) = false) ->
  List.filter p (detail_block x)
  = if (a_total x.2 =? 0) || Qle_bool 90 (percent (a_covered x.2) (a_total x.2))
    then []
    else List.filter p [DetailHead (replace "KeenEyes." "" x.1)
                          (percent (a_covered x.2) (a_total x.2))].
Proof.
  intros Hrule Hrow. destruct x as [k data]. unfold detail_block. cbn [fst snd].
  destruct (a_total data =? 0); [done|]. cbn [orb].
  destruct (Qle_bool 90 _); [done|].
  rewrite List.filter_app, filter_map_none by done.
  cbn [List.filter]. rewrite Hrule. by rewrite app_nil_r.
Qed.

Lemma row_coverages_app l k :
  row_coverages (l ++ k) = row_coverages l ++ row_coverages k.
Proof. apply omap_app. Qed.

Lemma row_coverages_details (l : list (string * assembly)) :
  row_coverages (concat (map detail_block l)) = [].
Proof.
  induction l as [|[k data] l IH]; [done|]. cbn [map concat].
  rewrite row_coverages_app, IH, app_nil_r. unfold detail_block.
  destruct (a_total data =? 0); [done|]. destruct (Qle_bool 90 _); [done|].
  rewrite row_coverages_app. cbn.
  induction (take 10 (sorted_files (a_files data))) as [|e l0 IH0]; done.
Qed.

Lemma row_coverages_rows (l : list (string * assembly)) :
  Forall (fun kv => assembly_inv kv.2) l ->
  row_coverages (map assembly_row l) = map assembly_key l.
Proof.
  induction 1 as [|[k data] l [H1 _] _ IH]; [done|].
  cbn [map]. change (row_coverages (assembly_row (k, data) :: map assembly_row l))
    with (percent (a_covered data) (a_total data)
          :: row_coverages (map assembly_row l)).
  rewrite IH. f_equal. unfold assembly_key. cbn [snd] in *.
  by rewrite range_facts.percent_pct by lia.
Qed.

Lemma elem_of_detail_heads (l : list printed) short_name coverage :
  DetailHead short_name coverage ∈ l
  <-> In (DetailHead short_name coverage) (List.filter is_detail_head l).
Proof. rewrite list_elem_of_In, filter_In. cbn. tauto. Qed.

End report_shape.

Module coverage_order.

Lemma by_coverage_le x y :
  le_of by_coverage x y <-> (assembly_key x <= assembly_key y)%Q.
Proof.
  unfold le_of, by_coverage.
  rewrite <- not_true_iff_false, order_facts.Qlt_bool_iff. split; lra.
Qed.

Lemma by_coverage_asym x y : by_coverage x y = true -> by_coverage y x = false.
Proof.
  intros Hxy%order_facts.Qlt_bool_iff. apply by_coverage_le. lra.
Qed.

Lemma by_coverage_trans x y z :
  le_of by_coverage x y -> le_of by_coverage y z -> le_of by_coverage x z.
Proof. rewrite !by_coverage_le. lra. Qed.

Lemma StronglySorted_map {A B} (R : B -> B -> Prop) (f : A -> B) (l : list A) :
  StronglySorted (fun x y => R (f x) (f y)) l -> StronglySorted R (map f l).
Proof.
  induction 1 as [|x l Hl IH Hx]; cbn [map]; constructor; [done|].
  by apply Forall_map.
Qed.

End coverage_order.

(** X5.  Every assembly of [all_results] has at least one line, so the
    [total == 0] skip of lines 95-96 never fires: the overview of
    analyze_all_coverage has exactly one row per assembly, each showing the
    assembly's own covered and total counts, their percentage and the status
    of that percentage. *)
Theorem overview_has_one_row_per_assembly
    (fs : filesystem) (coverage_files : list string)
    (all_results : dict assembly) :
  collect fs coverage_files [] = Ok all_results ->
  List.filter invariants.is_assembly_row (main fs coverage_files).1
  = map invariants.assembly_row (sorted by_coverage all_results)
  /\ Permutation (sorted by_coverage all_results) all_results
  /\ Forall (fun x => 1 <= a_total x.2 /\ 0 <= a_covered x.2 <= a_total x.2)
       all_results.
Proof.
  intros Hc.
  pose proof (invariant_facts.collect_inv fs coverage_files [] all_results
                (List.Forall_nil _) Hc) as Hinv.
  rewrite (report_facts.main_ok _ _ _ Hc). cbn [fst].
  rewrite (report_shape.report_eq _ Hinv). split; [|split].
  - rewrite !List.filter_app.
    rewrite report_shape.filter_map_all by done.
    rewrite report_shape.filter_concat_nil.
    + cbn. by rewrite app_nil_r.
    + apply Forall_map, Forall_forall. intros x _.
      rewrite report_shape.detail_block_rows by done.
      by destruct (_ || _).
  - apply sorted_perm.
  - eapply Forall_impl; [exact Hinv|]. intros x (H1 & Hc' & _). by split.
Qed.

Lemma overview_has_one_row_per_assembly_twice :
  List.filter invariants.is_assembly_row (main twice [run1]).1
  = map invariants.assembly_row (sorted by_coverage (all_results_of twice [run1]))
  /\ Permutation (sorted by_coverage (all_results_of twice [run1]))
       (all_results_of twice [run1])
  /\ Forall (fun x => 1 <= a_total x.2 /\ 0 <= a_covered x.2 <= a_total x.2)
       (all_results_of twice [run1]).
Proof.
  apply (overview_has_one_row_per_assembly twice [run1]).
  vm_compute. reflexivity.
Defined.

(** X6.  The report of analyze_all_coverage has one summary row, OVERALL;
    its counts are the sums of the covered and total counts of all
    assemblies and its percentage is the percentage of these sums (0 when
    there is no line). *)
Theorem overall_row_sums_the_assemblies
    (fs : filesystem) (coverage_files : list string)
    (all_results : dict assembly) :
  collect fs coverage_files [] = Ok all_results ->
  List.filter invariants.is_summary_row (main fs coverage_files).1
  = [SummaryRow "OVERALL"
       (pct (sum_of (fun x => a_covered x.2) all_results)
            (sum_of (fun x => a_total x.2) all_results))
       (sum_of (fun x => a_covered x.2) all_results)
       (sum_of (fun x => a_total x.2) all_results)].
Proof.
  intros Hc.
  pose proof (invariant_facts.collect_inv fs coverage_files [] all_results
                (List.Forall_nil _) Hc) as Hinv.
  rewrite (report_facts.main_ok _ _ _ Hc). cbn [fst].
  rewrite (report_shape.report_eq _ Hinv).
  rewrite !List.filter_app.
  rewrite report_shape.filter_map_none by done.
  rewrite report_shape.filter_concat_nil.
  - done.
  - apply Forall_map, Forall_forall. intros x _.
    rewrite report_shape.detail_block_rows by done.
    by destruct (_ || _).
Qed.

Lemma overall_row_sums_the_assemblies_two_runs :
  List.filter invariants.is_summary_row (main two_runs [run1; run2]).1
  = [SummaryRow "OVERALL"
       (pct (sum_of (fun x => a_covered x.2) (all_results_of two_runs [run1; run2]))
            (sum_of (fun x => a_total x.2) (all_results_of two_runs [run1; run2])))
       (sum_of (fun x => a_covered x.2) (all_results_of two_runs [run1; run2]))
       (sum_of (fun x => a_total x.2) (all_results_of two_runs [run1; run2]))].
Proof.
  apply (overall_row_sums_the_assemblies two_runs [run1; run2]).
  vm_compute. reflexivity.
Defined.

(** X7.  The overview of analyze_all_coverage lists the assemblies by
    ascending coverage percentage: the percentages of its rows never
    decrease from one row to a later one. *)
Theorem overview_is_ascending (fs : filesystem) (coverage_files : list string) :
  StronglySorted Qle (invariants.row_coverages (main fs coverage_files).1).
Proof.
  destruct (collect fs coverage_files []) as [all_results|e] eqn:Hc.
  2:{ rewrite (report_facts.main_raise _ _ _ Hc). constructor. }
  pose proof (invariant_facts.collect_inv fs coverage_files [] all_results
                (List.Forall_nil _) Hc) as Hinv.
  rewrite (report_facts.main_ok _ _ _ Hc). cbn [fst].
  rewrite (report_shape.report_eq _ Hinv).
  rewrite !report_shape.row_coverages_app.
  rewrite report_shape.row_coverages_details.
  rewrite report_shape.row_coverages_rows
    by (by rewrite (sorted_perm by_coverage)).
  cbn. rewrite app_nil_r.
  apply coverage_order.StronglySorted_map.
  eapply StronglySorted_weaken;
    [|apply sorted_ordered;
      [apply coverage_order.by_coverage_asym
      |apply coverage_order.by_coverage_trans]].
  intros x y. by rewrite coverage_order.by_coverage_le.
Qed.

(** X8.  The detail view of analyze_all_coverage is headed by exactly the
    assemblies strictly below 90%: a detail head is printed for an assembly
    if and only if the percentage of its counts is less than 90, and it
    shows that percentage. *)
Theorem detail_heads_are_the_assemblies_below_90
    (fs : filesystem) (coverage_files : list string)
    (all_results : dict assembly) (short_name : string) (coverage : Q) :
  collect fs coverage_files [] = Ok all_results ->
  DetailHead short_name coverage ∈ (main fs coverage_files).1
  <-> exists pkg_name data,
        (pkg_name, data) ∈ all_results
        /\ short_name = replace "KeenEyes." "" pkg_name
        /\ coverage = percent (a_covered data) (a_total data)
        /\ (coverage < 90)%Q.
Proof.
  intros Hc.
  pose proof (invariant_facts.collect_inv fs coverage_files [] all_results
                (List.Forall_nil _) Hc) as Hinv.
  rewrite (report_facts.main_ok _ _ _ Hc). cbn [fst].
  rewrite report_shape.elem_of_detail_heads.
  rewrite (report_shape.report_eq _ Hinv).
  rewrite !List.filter_app.
  rewrite report_shape.filter_map_none by done.
  cbn [invariants.report_head invariants.report_middle invariants.report_foot
       List.filter invariants.is_detail_head app].
  rewrite app_nil_r.
  assert (forall l : list (string * assembly),
            In (DetailHead short_name coverage)
               (List.filter invariants.is_detail_head (concat (map detail_block l)))
            <-> exists pkg_name data,
                  (pkg_name, data) ∈ l
                  /\ short_name = replace "KeenEyes." "" pkg_name
                  /\ coverage = percent (a_covered data) (a_total data)
                  /\ (coverage < 90)%Q /\ a_total data <> 0) as Hl.
  { induction l as [|[k data] l IH].
    - split; [done|]. by intros (? & ? & ?%elem_of_nil & _).
    - cbn [map concat]. rewrite List.filter_app, in_app_iff, IH.
      rewrite report_shape.detail_block_rows by done. cbn [fst snd].
      destruct (a_total data =? 0) eqn:Ez; cbn [orb].
      + split.
        * intros [[]|(k' & d' & Hin & H')]. exists k', d'. split; [by right|done].
        * intros (k' & d' & [[= -> ->]|Hin]%elem_of_cons & Hs & Hcv & Hlt & Hnz).
          -- lia.
          -- right. by exists k', d'.
      + destruct (Qle_bool 90 (percent (a_covered data) (a_total data))) eqn:E90.
        * split.
          -- intros [[]|(k' & d' & Hin & H')]. exists k', d'.
             split; [by right|done].
          -- intros (k' & d' & [[= -> ->]|Hin]%elem_of_cons & Hs & -> & Hlt & Hnz).
             ++ apply Qle_bool_iff in E90. lra.
             ++ right. by exists k', d'.
        * cbn [List.filter invariants.is_detail_head In].
          assert (percent (a_covered data) (a_total data) < 90)%Q as Hlt.
          { apply Qnot_le_lt. intros Hle%Qle_bool_iff. congruence. }
          split.
          -- intros [[[= <- <-]|[]]|(k' & d' & Hin & H')].
             ++ exists k, data. repeat split; try done; [left|lia].
             ++ exists k', d'. split; [by right|done].
          -- intros (k' & d' & [[= -> ->]|Hin]%elem_of_cons & Hs & Hcv & Hlt' & Hnz).
             ++ left. left. by rewrite Hs, Hcv.
             ++ right. by exists k', d'. }
  rewrite Hl. split.
  - intros (k & data & Hin & Hs & Hcv & Hlt & _). exists k, data.
    rewrite (sorted_perm by_coverage) in Hin. done.
  - intros (k & data & Hin & Hs & Hcv & Hlt). exists k, data.
    rewrite (sorted_perm by_coverage). repeat split; try done.
    rewrite Forall_forall in Hinv. destruct (Hinv _ Hin) as [H1 _].
    cbn [snd] in H1. lia.
Qed.

Lemma detail_heads_are_the_assemblies_below_90_twice :
  DetailHead "Sample" 65 ∈ (main twice [run1]).1
  <-> exists pkg_name data,
        (pkg_name, data) ∈ all_results_of twice [run1]
        /\ "Sample" = replace "KeenEyes." "" pkg_name
        /\ 65%Q = percent (a_covered data) (a_total data)
        /\ (65 < 90)%Q.
Proof.
  apply (detail_heads_are_the_assemblies_below_90 twice [run1]).
  vm_compute. reflexivity.
Defined.

(** ** analyze_project_coverage *)

Lemma sum_of_nonneg {E} (m : E -> Z) (l : list E) :
  Forall (fun e => 0 <= m e) l -> 0 <= sum_of m l.
Proof. induction 1; [done|]. rewrite sum_of_cons. lia. Qed.

Lemma sum_of_take_le {E} (m : E -> Z) (n : nat) (l : list E) :
  Forall (fun e => 0 <= m e) l -> sum_of m (take n l) <= sum_of m l.
Proof.
  intros Hl. rewrite <- (take_drop n l) at 2. rewrite sum_of_app.
  assert (0 <= sum_of m (drop n l)); [|lia].
  by apply sum_of_nonneg, Forall_drop.
Qed.

Module project_invariants.
Import analyze_project_coverage invariants.

Lemma add_class_counters acc cls :
  counters_inv acc -> counters_inv (add_class acc cls).
Proof.
  destruct acc as [[total covered] uncovered_files]. unfold add_class.
  destruct (lines cls) as [|l ls]; [done|].
  intros (Hc & Hs & Hf).
  pose proof (percentage_facts.count_covered_range (l :: ls)) as Hr.
  unfold counters_inv.
  destruct (0 <? count_total (l :: ls) - count_covered (l :: ls)) eqn:Hu.
  - split; [lia|]. split.
    + rewrite sum_of_app, sum_of_cons. cbn [sum_of foldr u_uncovered]. lia.
    + apply Forall_app. split; [done|]. apply Forall_singleton.
      cbn [u_name u_uncovered u_generated u_coverage].
      split; [apply basename_no_slash|]. split; [lia|]. split; [done|].
      by apply percentage_facts.pct_range.
  - split; [lia|]. split; [lia|done].
Qed.

Lemma add_package_counters target acc p :
  counters_inv acc -> counters_inv (add_package target acc p).
Proof.
  unfold add_package. destruct (_ || _); [done|].
  revert acc. induction (classes p) as [|cls cs IH]; intros acc Hacc; [done|].
  cbn [foldl]. by apply IH, add_class_counters.
Qed.

Lemma add_packages_counters target ps acc :
  counters_inv acc -> counters_inv (foldl (add_package target) acc ps).
Proof.
  revert acc. induction ps as [|p ps IH]; intros acc Hacc; [done|].
  cbn [foldl]. by apply IH, add_package_counters.
Qed.

Lemma project_more_uncovered_le x y :
  le_of more_uncovered x y <-> u_uncovered y <= u_uncovered x.
Proof. unfold le_of, more_uncovered. lia. Qed.

End project_invariants.

(** X9.  When analyze_project_coverage returns data, the target assembly
    has at least one line, covered lies between 0 and total, the percentage
    is that of these counts, and the list of uncovered files has at most
    five entries with pairwise distinct base names (no "/"), ordered
    descending by uncovered count, whose uncovered counts together do not
    exceed total - covered. *)
Theorem analyze_project_coverage_data
    (fs : filesystem) (coverage_file target_assembly : string)
    (data : analyze_project_coverage.project_data) :
  analyze_project_coverage.analyze_project_coverage
    fs coverage_file target_assembly = Ok (Some data) ->
  1 <= analyze_project_coverage.p_total data
  /\ 0 <= analyze_project_coverage.p_covered data
       <= analyze_project_coverage.p_total data
  /\ analyze_project_coverage.p_coverage data
     = pct (analyze_project_coverage.p_covered data)
           (analyze_project_coverage.p_total data)
  /\ (length (analyze_project_coverage.p_uncovered_files data) <= 5)%nat
  /\ NoDup (map analyze_project_coverage.u_name
              (analyze_project_coverage.p_uncovered_files data))
  /\ Forall (fun u => contains "/" (analyze_project_coverage.u_name u) = false)
       (analyze_project_coverage.p_uncovered_files data)
  /\ StronglySorted
       (fun x y => analyze_project_coverage.u_uncovered y
                   <= analyze_project_coverage.u_uncovered x)
       (analyze_project_coverage.p_uncovered_files data)
  /\ sum_of analyze_project_coverage.u_uncovered
       (analyze_project_coverage.p_uncovered_files data)
     <= analyze_project_coverage.p_total data
        - analyze_project_coverage.p_covered data.
Proof.
  unfold analyze_project_coverage.analyze_project_coverage.
  destruct (negb (path_exists fs coverage_file)); [done|].
  destruct (ET_parse fs coverage_file) as [root|e]; [|done].
  cbn [mbind result_mbind rbind].
  pose proof (project_invariants.add_packages_counters target_assembly
                (packages root) (0, 0, [])) as Hinv.
  destruct (foldl (analyze_project_coverage.add_package target_assembly)
              (0, 0, []) (packages root))
    as [[total covered] uncovered_files].
  destruct Hinv as (Hc & Hs & Hf); [by repeat split|].
  destruct (total =? 0) eqn:Ez; [done|]. intros [= <-].
  cbn [analyze_project_coverage.p_total analyze_project_coverage.p_covered
       analyze_project_coverage.p_coverage
       analyze_project_coverage.p_uncovered_files].
  rewrite project_facts.top_uncovered_eq.
  set (merged_files := merged analyze_project_coverage.u_name
                         analyze_project_coverage.add_uncovered uncovered_files).
  set (sorted_all := sorted analyze_project_coverage.more_uncovered merged_files).
  assert (Forall (fun u => contains "/" (analyze_project_coverage.u_name u) = false
                           /\ 1 <= analyze_project_coverage.u_uncovered u)
            sorted_all) as Hall.
  { apply Forall_forall. intros e He.
    unfold sorted_all in He.
    rewrite (sorted_perm analyze_project_coverage.more_uncovered) in He.
    split.
    - destruct (merged_entry_kept analyze_project_coverage.u_name
                  analyze_project_coverage.add_uncovered
                  project_facts.name_add_uncovered
                  analyze_project_coverage.u_name
                  (fun _ _ => eq_refl) _ e He) as (first & Hfirst & ->).
      apply head_Some_elem_of, elem_of_named in Hfirst as [Hfirst _].
      rewrite Forall_forall in Hf. by destruct (Hf _ Hfirst).
    - eapply (merged_entry_pos analyze_project_coverage.u_name
                analyze_project_coverage.add_uncovered
                analyze_project_coverage.u_uncovered); [done|done| |exact He].
      eapply Forall_impl; [exact Hf|]. by intros u (_ & ? & _). }
  assert (NoDup (map analyze_project_coverage.u_name sorted_all)) as Hnd.
  { unfold sorted_all.
    rewrite (sorted_perm analyze_project_coverage.more_uncovered).
    apply (merged_NoDup analyze_project_coverage.u_name
             analyze_project_coverage.add_uncovered
             project_facts.name_add_uncovered). }
  assert (StronglySorted
            (fun x y => analyze_project_coverage.u_uncovered y
                        <= analyze_project_coverage.u_uncovered x)
            sorted_all) as Hsorted.
  { eapply StronglySorted_weaken; [|apply sorted_ordered].
    - intros x y. by rewrite project_invariants.project_more_uncovered_le.
    - unfold analyze_project_coverage.more_uncovered. intros x y. lia.
    - intros x y z. rewrite !project_invariants.project_more_uncovered_le. lia. }
  split; [lia|]. split; [lia|]. split; [done|].
  split; [rewrite length_take; lia|]. split; [|split; [|split]].
  - change (map analyze_project_coverage.u_name)
      with (fmap (M:=list) analyze_project_coverage.u_name).
    rewrite fmap_take. eapply sublist_NoDup; [exact Hnd|apply sublist_take].
  - apply Forall_take.
    eapply Forall_impl; [exact Hall|]. by intros u [? _].
  - rewrite <- (take_drop 5 sorted_all) in Hsorted.
    clear -Hsorted. induction (take 5 sorted_all) as [|x l IH]; [constructor|].
    cbn [app] in Hsorted. apply StronglySorted_inv in Hsorted as [Hl Hx].
    constructor; [by apply IH|]. by apply Forall_app in Hx as [Hx _].
  - etransitivity; [apply sum_of_take_le|].
    + eapply Forall_impl; [exact Hall|]. intros u [_ ?]. lia.
    + unfold sorted_all.
      rewrite (sum_of_perm _ _ _
                 (sorted_perm analyze_project_coverage.more_uncovered _)).
      unfold merged_files.
      rewrite (merged_total analyze_project_coverage.u_name
                 analyze_project_coverage.add_uncovered) by done.
      lia.
Qed.

Lemma analyze_project_coverage_data_twice :
  1 <= analyze_project_coverage.p_total twice_data
  /\ 0 <= analyze_project_coverage.p_covered twice_data
       <= analyze_project_coverage.p_total twice_data
  /\ analyze_project_coverage.p_coverage twice_data
     = pct (analyze_project_coverage.p_covered twice_data)
           (analyze_project_coverage.p_total twice_data)
  /\ (length (analyze_project_coverage.p_uncovered_files twice_data) <= 5)%nat
  /\ NoDup (map analyze_project_coverage.u_name
              (analyze_project_coverage.p_uncovered_files twice_data))
  /\ Forall (fun u => contains "/" (analyze_project_coverage.u_name u) = false)
       (analyze_project_coverage.p_uncovered_files twice_data)
  /\ StronglySorted
       (fun x y => analyze_project_coverage.u_uncovered y
                   <= analyze_project_coverage.u_uncovered x)
       (analyze_project_coverage.p_uncovered_files twice_data)
  /\ sum_of analyze_project_coverage.u_uncovered
       (analyze_project_coverage.p_uncovered_files twice_data)
     <= analyze_project_coverage.p_total twice_data
        - analyze_project_coverage.p_covered twice_data.
Proof.
  apply (analyze_project_coverage_data twice run1 "Sample").
  vm_compute. reflexivity.
Defined.

(** ** analyze_project_coverage and analyze_coverage count alike *)

Lemma dict_set_sum {V} (m : V -> Z) (e : V) k v (d : dict V) :
  m e = 0 ->
  sum_of (fun x => m x.2) (dict_set k v d)
  = sum_of (fun x => m x.2) d + m v - m (default e (dict_get k d)).
Proof.
  intros He. induction d as [|[k0 v0] d IH]; cbn [dict_set dict_get].
  - rewrite sum_of_cons. cbn [sum_of foldr default snd]. lia.
  - destruct (String.eqb k k0); rewrite !sum_of_cons; cbn [snd default id]; lia.
Qed.

Lemma contains_empty s : contains "" s = true.
Proof. by destruct s. Qed.

Module counting_agrees.

Lemma same_packages_selected target name :
  negb (contains target name) || contains "Tests" name
  = contains "Tests" name || filtered_out (Some target) name.
Proof.
  unfold filtered_out. destruct (String.eqb target "") eqn:Et.
  - apply String.eqb_eq in Et as ->. rewrite contains_empty.
    by destruct (contains "Tests" name).
  - by destruct (contains target name), (contains "Tests" name).
Qed.

Lemma count_nil_total : count_total [] = 0.
Proof. done. Qed.

(** The totals over all assemblies of [results], next to the counters of
    analyze_project_coverage. *)
Lemma add_class_totals pn (results : dict assembly) cls acc :
  sum_of (fun x => a_total x.2) results = acc.1.1 ->
  sum_of (fun x => a_covered x.2) results = acc.1.2 ->
  sum_of (fun x => a_total x.2) (add_class pn results cls)
  = (analyze_project_coverage.add_class acc cls).1.1
  /\ sum_of (fun x => a_covered x.2) (add_class pn results cls)
     = (analyze_project_coverage.add_class acc cls).1.2.
Proof.
  destruct acc as [[total covered] uncovered_files]. cbn [fst snd].
  intros Ht Hc. unfold add_class, analyze_project_coverage.add_class.
  destruct (lines cls) as [|l ls]; [done|]. cbn [fst snd].
  rewrite (dict_set_sum a_total empty_assembly) by done.
  rewrite (dict_set_sum a_covered empty_assembly) by done.
  cbn [a_total a_covered]. lia.
Qed.

Lemma add_package_totals target (results : dict assembly) p acc :
  sum_of (fun x => a_total x.2) results = acc.1.1 ->
  sum_of (fun x => a_covered x.2) results = acc.1.2 ->
  sum_of (fun x => a_total x.2) (add_package (Some target) results p)
  = (analyze_project_coverage.add_package target acc p).1.1
  /\ sum_of (fun x => a_covered x.2) (add_package (Some target) results p)
     = (analyze_project_coverage.add_package target acc p).1.2.
Proof.
  intros Ht Hc. unfold add_package, analyze_project_coverage.add_package.
  rewrite same_packages_selected.
  destruct (contains "Tests" (pkg_name p)); cbn [orb]; [done|].
  destruct (filtered_out (Some target) (pkg_name p)); [done|].
  revert results acc Ht Hc. induction (classes p) as [|cls cs IH];
    intros results acc Ht Hc; [done|].
  cbn [foldl].
  destruct (add_class_totals (pkg_name p) results cls acc Ht Hc) as [Ht' Hc'].
  by apply IH.
Qed.

Lemma add_packages_totals target ps (results : dict assembly) acc :
  sum_of (fun x => a_total x.2) results = acc.1.1 ->
  sum_of (fun x => a_covered x.2) results = acc.1.2 ->
  sum_of (fun x => a_total x.2) (foldl (add_package (Some target)) results ps)
  = (foldl (analyze_project_coverage.add_package target) acc ps).1.1
  /\ sum_of (fun x => a_covered x.2)
       (foldl (add_package (Some target)) results ps)
     = (foldl (analyze_project_coverage.add_package target) acc ps).1.2.
Proof.
  revert results acc. induction ps as [|p ps IH]; intros results acc Ht Hc;
    [done|].
  cbn [foldl].
  destruct (add_package_totals target results p acc Ht Hc) as [Ht' Hc'].
  by apply IH.
Qed.

End counting_agrees.

(** X10.  The two loaders count alike.  On the same file,
    analyze_project_coverage with target assembly [t] returns data exactly
    when analyze_coverage with project filter [t] returns some assembly, and
    then its total and covered counts are the sums of the totals and covered
    counts of these assemblies. *)
Theorem project_counts_are_the_sums_of_the_filtered_assemblies
    (fs : filesystem) (coverage_file target_assembly : string)
    (results : dict assembly) :
  analyze_coverage fs coverage_file (Some target_assembly) = Ok (Some results) ->
  match analyze_project_coverage.analyze_project_coverage
          fs coverage_file target_assembly with
  | Ok (Some data) =>
      results <> []
      /\ analyze_project_coverage.p_total data
         = sum_of (fun x => a_total x.2) results
      /\ analyze_project_coverage.p_covered data
         = sum_of (fun x => a_covered x.2) results
  | Ok None => results = []
  | Raise _ => False
  end.
Proof.
  intros Ha. pose proof (invariant_facts.analyze_coverage_inv _ _ _ _ Ha) as Hinv.
  revert Ha. unfold analyze_coverage,
    analyze_project_coverage.analyze_project_coverage.
  destruct (negb (path_exists fs coverage_file)); [done|].
  destruct (ET_parse fs coverage_file) as [root|e]; [|done].
  cbn [mbind result_mbind rbind]. intros [= Hr].
  destruct (counting_agrees.add_packages_totals target_assembly
              (packages root) [] (0, 0, [])) as [Ht Hc]; [done|done|].
  rewrite Hr in Ht, Hc.
  destruct (foldl (analyze_project_coverage.add_package target_assembly)
              (0, 0, []) (packages root))
    as [[total covered] uncovered_files].
  cbn [fst snd] in Ht, Hc. subst total covered.
  destruct (sum_of (fun x => a_total x.2) results =? 0) eqn:Ez.
  - destruct results as [|[k data] results]; [done|].
    apply Forall_cons in Hinv as [[H1 _] Hinv]. cbn [snd] in H1.
    rewrite sum_of_cons in Ez. cbn [snd] in Ez.
    assert (0 <= sum_of (fun x => a_total x.2) results); [|lia].
    apply sum_of_nonneg. eapply Forall_impl; [exact Hinv|].
    intros x [? _]. lia.
  - cbn [analyze_project_coverage.p_total analyze_project_coverage.p_covered].
    split; [|done]. intros ->. done.
Qed.

Lemma project_counts_are_the_sums_of_the_filtered_assemblies_twice :
  match analyze_project_coverage.analyze_project_coverage twice run1 "Sample" with
  | Ok (Some data) =>
      all_results_of twice [run1] <> []
      /\ analyze_project_coverage.p_total data
         = sum_of (fun x => a_total x.2) (all_results_of twice [run1])
      /\ analyze_project_coverage.p_covered data
         = sum_of (fun x => a_covered x.2) (all_results_of twice [run1])
  | Ok None => all_results_of twice [run1] = []
  | Raise _ => False
  end.
Proof.
  apply (project_counts_are_the_sums_of_the_filtered_assemblies twice run1 "Sample").
  vm_compute. reflexivity.
Defined.

(** ** analyze_project_coverage.main *)

Module project_main.
Import analyze_project_coverage.

Lemma analyze_garbage fs f target :
  fs f = Garbage -> analyze_project_coverage fs f target = Raise ParseError.
Proof.
  intros Hf. unfold analyze_project_coverage, path_exists, ET_parse.
  by rewrite Hf.
Qed.

Lemma analyze_not_garbage fs f target :
  fs f <> Garbage -> exists data, analyze_project_coverage fs f target = Ok data.
Proof.
  intros Hf. unfold analyze_project_coverage, path_exists, ET_parse.
  destruct (fs f) as [| |root]; [by eexists|done|].
  cbn [negb mbind result_mbind rbind].
  destruct (foldl (add_package target) (0, 0, []) (packages root))
    as [[total covered] uncovered_files].
  destruct (total =? 0); by eexists.
Qed.

Lemma project_collect_garbage fs mapping results :
  Exists (fun x => fs (coverage_path x.1) = Garbage) mapping ->
  collect fs mapping results = Raise ParseError.
Proof.
  revert results. induction mapping as [|[test_project source] rest IH];
    intros results Hg.
  - by apply Exists_nil in Hg.
  - cbn [collect].
    assert (fs (coverage_path test_project) = Garbage
            \/ fs (coverage_path test_project) <> Garbage) as [Hf|Hf]
      by (destruct (fs (coverage_path test_project)); auto).
    + by rewrite analyze_garbage.
    + destruct (analyze_not_garbage fs _ source Hf) as [data ->].
      cbn [mbind result_mbind rbind].
      apply Exists_cons in Hg as [Hg|Hg]; [done|].
      destruct data; by apply IH.
Qed.

End project_main.

(** X11.  analyze_project_coverage.main prints its banner before it reads
    any file, and reads every file before it prints anything else.  The
    output always starts with the four banner lines; a run that raises has
    printed the banner and nothing else; a run that ends normally has
    printed the banner and then the report of the collected results.  If the
    coverage file of some project is not XML the run does not end
    normally. *)
Theorem project_main_prints_banner_first
    (fs : filesystem) (mapping : list (string * string)) :
  (exists rest,
     (analyze_project_coverage.main_with fs mapping).1
     = invariants.project_banner ++ rest)
  /\ (forall e,
        (analyze_project_coverage.main_with fs mapping).2 = Raise e ->
        (analyze_project_coverage.main_with fs mapping).1
        = invariants.project_banner)
  /\ ((analyze_project_coverage.main_with fs mapping).2 = Ok tt ->
      exists results,
        analyze_project_coverage.collect fs mapping [] = Ok results
        /\ (analyze_project_coverage.main_with fs mapping).1
           = invariants.project_banner
             ++ analyze_project_coverage.report results)
  /\ (Exists (fun x => fs (analyze_project_coverage.coverage_path x.1) = Garbage)
        mapping ->
      exists e, (analyze_project_coverage.main_with fs mapping).2 = Raise e).
Proof.
  assert (forall e,
            analyze_project_coverage.collect fs mapping [] = Raise e ->
            analyze_project_coverage.main_with fs mapping
            = (invariants.project_banner, Raise e)) as Hraise.
  { intros e He. unfold analyze_project_coverage.main_with.
    rewrite He, for_each_print. done. }
  assert (forall results,
            analyze_project_coverage.collect fs mapping [] = Ok results ->
            analyze_project_coverage.main_with fs mapping
            = (invariants.project_banner
               ++ analyze_project_coverage.report results, Ok tt)) as Hok.
  { intros results Hr. unfold analyze_project_coverage.main_with.
    rewrite Hr, for_each_print.
    unfold lift. cbn [mbind io_mbind io_bind]. by rewrite for_each_print. }
  destruct (analyze_project_coverage.collect fs mapping []) as [results|e]
    eqn:Hc.
  - rewrite (Hok results eq_refl). cbn [fst snd].
    split; [by eexists|]. split; [done|]. split; [by eexists|].
    intros Hg. by rewrite (project_main.project_collect_garbage _ _ _ Hg) in Hc.
  - rewrite (Hraise e eq_refl). cbn [fst snd].
    split; [exists []; by rewrite app_nil_r|]. split; [done|].
    split; [done|]. intros _. by eexists.
Qed.

Lemma project_main_prints_banner_first_one_bad :
  (exists e,
     (analyze_project_coverage.main_with
        (fun p => if String.eqb p
                       (analyze_project_coverage.coverage_path "One.Tests")
                  then Garbage else Absent)
        [("Zero.Tests", "Zero"); ("One.Tests", "One")]).2 = Raise e)
  /\ (analyze_project_coverage.main_with
        (fun p => if String.eqb p
                       (analyze_project_coverage.coverage_path "One.Tests")
                  then Garbage else Absent)
        [("Zero.Tests", "Zero"); ("One.Tests", "One")]).1
     = invariants.project_banner
  /\ exists results,
       analyze_project_coverage.collect nothing
         analyze_project_coverage.PROJECT_MAPPING [] = Ok results
       /\ (analyze_project_coverage.main nothing).1
          = invariants.project_banner
            ++ analyze_project_coverage.report results.
Proof.
  split; [|split].
  - apply (project_main_prints_banner_first
             (fun p => if String.eqb p
                            (analyze_project_coverage.coverage_path "One.Tests")
                       then Garbage else Absent)
             [("Zero.Tests", "Zero"); ("One.Tests", "One")]).
    right. left. vm_compute. reflexivity.
  - apply (project_main_prints_banner_first
             (fun p => if String.eqb p
                            (analyze_project_coverage.coverage_path "One.Tests")
                       then Garbage else Absent)
             [("Zero.Tests", "Zero"); ("One.Tests", "One")]) with ParseError.
    vm_compute. reflexivity.
  - apply (project_main_prints_banner_first nothing
             analyze_project_coverage.PROJECT_MAPPING).
    vm_compute. reflexivity.
Defined.

(** ** check_coverage and check_coverage_detailed *)

Module check_coverage_facts.
Import per_file.

Lemma loop_eq fs files results :
  Forall (fun f => exists part, second_part f = Ok part) files ->
  check_coverage.loop fs files results
  = (concat (map (error_line fs) files),
     Ok (results ++ concat (map (project_rate fs) files))).
Proof.
  intros Hp. revert results.
  induction Hp as [|f rest [part Hf] _ IH]; intros results.
  - cbn. by rewrite app_nil_r.
  - cbn [check_coverage.loop map concat].
    rewrite (parse_error_facts.check_coverage_step _ _ _ _ Hf).
    unfold error_line at 1, project_rate at 1. rewrite Hf.
    destruct (fs f) as [| |root]; cbn [mbind io_mbind io_bind];
      rewrite IH; cbn [app]; by rewrite <- ?app_assoc.
Qed.

Lemma by_pct_le x y :
  le_of check_coverage.by_pct x y <-> (x.2 <= y.2)%Q.
Proof.
  unfold le_of, check_coverage.by_pct.
  rewrite <- not_true_iff_false, order_facts.Qlt_bool_iff. split; lra.
Qed.

Lemma length_concat_singletons {A B} (f g : A -> list B) (l : list A) :
  (forall x, length (f x) + length (g x) = 1)%nat ->
  (length (concat (map f l)) + length (concat (map g l)) = length l)%nat.
Proof.
  intros Hone. induction l as [|x l IH]; [done|].
  cbn [map concat length]. rewrite !length_app. specialize (Hone x). lia.
Qed.

Lemma detailed_step_eq fs f part :
  second_part f = Ok part ->
  check_coverage_detailed.step fs f = (detailed_block fs f, Ok tt).
Proof.
  intros Hf. unfold check_coverage_detailed.step, detailed_block.
  rewrite Hf. unfold lift, print, ET_parse.
  destruct (fs f) as [| |root]; cbn [mbind io_mbind io_bind try_except app];
    [done|done|].
  rewrite for_each_print. cbn [try_except app]. by rewrite ?app_nil_r.
Qed.

Lemma package_rows_are_rows (ps : list Package) :
  Forall (fun p => is_package_row p = true)
    (concat (map check_coverage_detailed.package_rows ps)).
Proof.
  induction ps as [|package ps IH]; [constructor|].
  cbn [map concat]. apply Forall_app. split; [|exact IH].
  unfold check_coverage_detailed.package_rows.
  destruct (contains "KeenEyes" (pkg_name package)
            && negb (contains ".Tests" (pkg_name package))); [|constructor].
  destruct (check_coverage_detailed.count_package package)
    as [lines_valid lines_covered].
  destruct (0 <? lines_valid); repeat constructor.
Qed.

(** What a loop printed was printed by one of its iterations. *)
Lemma for_each_elem_of {A} (l : list A) (body : A -> io unit) (p : printed) :
  p ∈ (for_each l body).1 -> exists x, x ∈ l /\ p ∈ (body x).1.
Proof.
  induction l as [|x l IH]; cbn [for_each].
  - by intros ?%elem_of_nil.
  - unfold mbind, io_mbind, io_bind.
    destruct (body x) as [out [[]|e]] eqn:Hx.
    + destruct (for_each l body) as [out' r]. cbn [fst] in *.
      intros [Hin|Hin]%elem_of_app.
      * exists x. split; [left|]. by rewrite Hx.
      * destruct (IH Hin) as (y & Hy & Hp). exists y. split; [by right|done].
    + cbn [fst]. intros Hin. exists x. split; [left|]. by rewrite Hx.
Qed.

End check_coverage_facts.

(** X12.  check_coverage goes on after a file it cannot read.  For paths as
    [glob] returns them (with a project directory), and when every report it
    reads has a line-rate in [0, 1], it ends normally and prints first one
    error line for each file it cannot read, in the order of the files,
    then the header and one row for each file it read, ordered by ascending
    percentage, each percentage in [0, 100]; every file gets exactly one
    line. *)
Theorem check_coverage_reports_every_file
    (fs : filesystem) (files : list string) :
  Forall (fun f => exists part, second_part f = Ok part) files ->
  Forall (fun f => forall root,
            fs f = Xml root -> (0 <= line_rate root <= 1)%Q) files ->
  check_coverage.main fs files
  = (concat (map (per_file.error_line fs) files)
     ++ [Text "Coverage by Project (lowest first):"; Rule "=" 50]
     ++ map check_coverage.bar_row
          (sorted check_coverage.by_pct
             (concat (map (per_file.project_rate fs) files)))
     ++ [Rule "=" 50], Ok tt)
  /\ StronglySorted (fun x y => (x.2 <= y.2)%Q)
       (sorted check_coverage.by_pct
          (concat (map (per_file.project_rate fs) files)))
  /\ Forall (fun x => in_range x.2)
       (sorted check_coverage.by_pct
          (concat (map (per_file.project_rate fs) files)))
  /\ (length (concat (map (per_file.error_line fs) files))
      + length (sorted check_coverage.by_pct
                  (concat (map (per_file.project_rate fs) files)))
      = length files)%nat.
Proof.
  intros Hp Hrate. split; [|split; [|split]].
  - unfold check_coverage.main.
    rewrite (check_coverage_facts.loop_eq _ _ _ Hp). cbn [app].
    cbn [mbind io_mbind io_bind].
    rewrite for_each_rows.
    unfold print. cbn [mbind io_mbind io_bind app].
    by rewrite <- ?app_assoc.
  - eapply StronglySorted_weaken; [|apply sorted_ordered].
    + intros x y. by rewrite check_coverage_facts.by_pct_le.
    + intros x y Hxy%order_facts.Qlt_bool_iff.
      apply check_coverage_facts.by_pct_le. lra.
    + intros x y z. rewrite !check_coverage_facts.by_pct_le. lra.
  - apply Forall_forall. intros x Hx.
    rewrite (sorted_perm check_coverage.by_pct) in Hx.
    apply list_elem_of_In, in_concat in Hx as (l & Hl & Hx).
    apply in_map_iff in Hl as (f & <- & Hf).
    apply list_elem_of_In in Hf.
    rewrite Forall_forall in Hrate. specialize (Hrate f Hf).
    unfold per_file.project_rate in Hx.
    destruct (fs f) as [| |root]; [done|done|].
    destruct (second_part f) as [part|e]; [|done].
    destruct Hx as [<-|[]]. cbn [snd]. specialize (Hrate root eq_refl).
    unfold in_range. lra.
  - rewrite sorted_length.
    assert (Forall (fun f => length (per_file.error_line fs f)
                             + length (per_file.project_rate fs f) = 1)%nat
              files) as Hone.
    { eapply Forall_impl; [exact Hp|]. intros f [part Hf].
      unfold per_file.error_line, per_file.project_rate. rewrite Hf.
      by destruct (fs f). }
    clear Hp Hrate. induction Hone as [|f rest Hf _ IH]; [done|].
    cbn [map concat length]. rewrite !length_app. lia.
Qed.

Lemma check_coverage_reports_every_file_one_bad :
  check_coverage.main one_bad [run1; run2]
  = (concat (map (per_file.error_line one_bad) [run1; run2])
     ++ [Text "Coverage by Project (lowest first):"; Rule "=" 50]
     ++ map check_coverage.bar_row
          (sorted check_coverage.by_pct
             (concat (map (per_file.project_rate one_bad) [run1; run2])))
     ++ [Rule "=" 50], Ok tt)
  /\ StronglySorted (fun x y => (x.2 <= y.2)%Q)
       (sorted check_coverage.by_pct
          (concat (map (per_file.project_rate one_bad) [run1; run2])))
  /\ Forall (fun x => in_range x.2)
       (sorted check_coverage.by_pct
          (concat (map (per_file.project_rate one_bad) [run1; run2])))
  /\ (length (concat (map (per_file.error_line one_bad) [run1; run2]))
      + length (sorted check_coverage.by_pct
                  (concat (map (per_file.project_rate one_bad) [run1; run2])))
      = length [run1; run2])%nat.
Proof.
  apply (check_coverage_reports_every_file one_bad [run1; run2]).
  - repeat constructor; eexists; vm_compute; reflexivity.
  - apply List.Forall_cons; [|apply List.Forall_cons; [|apply List.Forall_nil]].
    + intros root. vm_compute. discriminate.
    + intros root. vm_compute. intros [= <-]. split; discriminate.
Defined.

(** X13.  check_coverage_detailed never stops on a file: for paths with a
    project directory it ends normally, and what it prints is one block per
    file, in the order of the files.  A block is the head of the project and
    a rule, then package rows, then at most one error line, which ends the
    block; for a file that is not XML the block is the head, the rule and
    the error line. *)
Theorem check_coverage_detailed_reports_every_file
    (fs : filesystem) (files : list string) :
  Forall (fun f => exists part, second_part f = Ok part) files ->
  exists blocks,
    check_coverage_detailed.main fs files = (concat blocks, Ok tt)
    /\ Forall2
         (fun f block =>
            exists part rows err,
              second_part f = Ok part
              /\ block = [ProjectHead part; Rule "-" 60] ++ rows ++ err
              /\ Forall (fun p => per_file.is_package_row p = true) rows
              /\ (err = [] \/ exists e, err = [ErrorOnly e])
              /\ (fs f = Garbage -> rows = [] /\ err = [ErrorOnly ParseError]))
         files blocks.
Proof.
  intros Hp. exists (map (per_file.detailed_block fs) files). split.
  - unfold check_coverage_detailed.main.
    induction Hp as [|f rest [part Hf] _ IH]; [done|].
    cbn [for_each map concat].
    rewrite (check_coverage_facts.detailed_step_eq _ _ _ Hf), IH. done.
  - induction Hp as [|f rest [part Hf] _ IH]; [constructor|].
    cbn [map]. constructor; [|exact IH].
    unfold per_file.detailed_block. rewrite Hf.
    destruct (fs f) as [| |root].
    + exists part, [], [ErrorOnly FileNotFoundError].
      split; [done|]. split; [done|]. split; [apply List.Forall_nil|].
      split; [right; by eexists|done].
    + exists part, [], [ErrorOnly ParseError].
      split; [done|]. split; [done|]. split; [apply List.Forall_nil|].
      split; [right; by eexists|done].
    + exists part,
        (concat (map check_coverage_detailed.package_rows (packages root))), [].
      split; [done|]. split; [by rewrite app_nil_r|].
      split; [|split; [by left|done]].
      apply check_coverage_facts.package_rows_are_rows.
Qed.

Lemma check_coverage_detailed_reports_every_file_one_bad :
  exists blocks,
    check_coverage_detailed.main one_bad [run1; run2] = (concat blocks, Ok tt)
    /\ Forall2
         (fun f block =>
            exists part rows err,
              second_part f = Ok part
              /\ block = [ProjectHead part; Rule "-" 60] ++ rows ++ err
              /\ Forall (fun p => per_file.is_package_row p = true) rows
              /\ (err = [] \/ exists e, err = [ErrorOnly e])
              /\ (one_bad f = Garbage
                  -> rows = [] /\ err = [ErrorOnly ParseError]))
         [run1; run2] blocks.
Proof.
  apply (check_coverage_detailed_reports_every_file one_bad [run1; run2]).
  repeat constructor; eexists; vm_compute; reflexivity.
Defined.

(** ** The counting loops *)

Module counting_loops.

Lemma count_lines_fold (ls : list Line) (acc : Z * Z) :
  foldl (fun acc line =>
           (acc.1 + 1, if is_hit line then acc.2 + 1 else acc.2)) acc ls
  = (acc.1 + count_total ls, acc.2 + count_covered ls).
Proof.
  revert acc. induction ls as [|l ls IH]; intros [t c].
  - cbn [foldl fst snd]. unfold count_total, count_covered. cbn.
    f_equal; lia.
  - cbn [foldl]. rewrite IH. cbn [fst snd].
    unfold count_total, count_covered. cbn [List.filter length].
    destruct (is_hit l); cbn [length]; f_equal; lia.
Qed.

Lemma count_classes_fold (cs : list Class) (acc : Z * Z) :
  foldl (fun acc cls =>
           foldl (fun acc line =>
                    (acc.1 + 1, if is_hit line then acc.2 + 1 else acc.2))
                 acc (lines cls)) acc cs
  = (acc.1 + sum_of (fun cls => count_total (lines cls)) cs,
     acc.2 + sum_of (fun cls => count_covered (lines cls)) cs).
Proof.
  revert acc. induction cs as [|cls cs IH]; intros [t c].
  - cbn [foldl fst snd sum_of foldr]. f_equal; lia.
  - cbn [foldl]. rewrite count_lines_fold, IH. cbn [fst snd].
    rewrite !sum_of_cons. f_equal; lia.
Qed.

Lemma count_class_fold (ls : list Line) (acc : Z * Z * list string) :
  foldl (fun acc line =>
           let '(total, covered, uncovered_lines) := acc in
           if is_hit line then (total + 1, covered + 1, uncovered_lines)
           else (total + 1, covered, uncovered_lines ++ [number line]))
        acc ls
  = (acc.1.1 + count_total ls, acc.1.2 + count_covered ls,
     acc.2 ++ per_file.unhit_numbers ls).
Proof.
  revert acc. induction ls as [|l ls IH]; intros [[t c] u].
  - cbn [foldl fst snd]. unfold count_total, count_covered. cbn.
    rewrite app_nil_r. do 2 f_equal; lia.
  - cbn [foldl]. unfold per_file.unhit_numbers, count_total, count_covered.
    cbn [List.filter length map].
    destruct (is_hit l) eqn:Hl; rewrite IH; cbn [fst snd negb length map];
      unfold per_file.unhit_numbers, count_total, count_covered;
      rewrite <- ?app_assoc; cbn [app]; do 2 f_equal; lia.
Qed.

Lemma unhit_length (ls : list Line) :
  count_covered ls + Z.of_nat (length (per_file.unhit_numbers ls))
  = count_total ls.
Proof.
  unfold count_covered, count_total, per_file.unhit_numbers.
  rewrite length_map.
  induction ls as [|l ls IH]; [done|]. cbn [List.filter length].
  destruct (is_hit l); cbn [negb length]; lia.
Qed.

Lemma count_package_eq package :
  check_coverage_detailed.count_package package
  = (sum_of (fun cls => count_total (lines cls)) (classes package),
     sum_of (fun cls => count_covered (lines cls)) (classes package)).
Proof.
  unfold check_coverage_detailed.count_package.
  by rewrite count_classes_fold.
Qed.

Lemma count_class_eq cls :
  find_uncovered.count_class cls
  = (count_total (lines cls), count_covered (lines cls),
     per_file.unhit_numbers (lines cls)).
Proof. unfold find_uncovered.count_class. by rewrite count_class_fold. Qed.

Lemma overall_counts_gen (packages : list Package) (acc : Z * Z) :
  foldl (fun acc pkg =>
           if analyze_core_detailed.selected (pkg_name pkg)
           then foldl (fun acc cls =>
                         foldl (fun acc line =>
                                  (acc.1 + 1,
                                   if is_hit line then acc.2 + 1 else acc.2))
                               acc (lines cls))
                      acc (classes pkg)
           else acc) acc packages
  = (acc.1 + sum_of (fun pkg =>
                       if analyze_core_detailed.selected (pkg_name pkg)
                       then sum_of (fun cls => count_total (lines cls))
                              (classes pkg)
                       else 0) packages,
     acc.2 + sum_of (fun pkg =>
                       if analyze_core_detailed.selected (pkg_name pkg)
                       then sum_of (fun cls => count_covered (lines cls))
                              (classes pkg)
                       else 0) packages).
Proof.
  revert acc. induction packages as [|pkg ps IH]; intros [t c].
  - cbn [foldl fst snd sum_of foldr]. f_equal; lia.
  - cbn [foldl]. rewrite !sum_of_cons.
    destruct (analyze_core_detailed.selected (pkg_name pkg));
      rewrite ?count_classes_fold, IH; cbn [fst snd]; f_equal; lia.
Qed.

Lemma overall_counts_eq (packages : list Package) :
  analyze_core_detailed.overall_counts packages
  = (sum_of (fun pkg =>
               if analyze_core_detailed.selected (pkg_name pkg)
               then sum_of (fun cls => count_total (lines cls)) (classes pkg)
               else 0) packages,
     sum_of (fun pkg =>
               if analyze_core_detailed.selected (pkg_name pkg)
               then sum_of (fun cls => count_covered (lines cls)) (classes pkg)
               else 0) packages).
Proof.
  unfold analyze_core_detailed.overall_counts. by rewrite overall_counts_gen.
Qed.

End counting_loops.

(** X14.  The scripts that count line by line agree with [len(lines)] and
    [sum(1 for l in lines if hits > 0)]: check_coverage_detailed counts, for
    a package, the sums over its classes; find_uncovered counts, for a
    class, its lines and its hit lines and collects the numbers of the
    lines that were not hit, in order, so that covered plus the number of
    collected lines is the total; analyze_core_detailed counts the sums over
    the classes of the selected packages. *)
Theorem line_by_line_counts_agree :
  (forall package,
     check_coverage_detailed.count_package package
     = (sum_of (fun cls => count_total (lines cls)) (classes package),
        sum_of (fun cls => count_covered (lines cls)) (classes package)))
  /\ (forall cls,
        find_uncovered.count_class cls
        = (count_total (lines cls), count_covered (lines cls),
           per_file.unhit_numbers (lines cls))
        /\ count_covered (lines cls)
           + Z.of_nat (length (per_file.unhit_numbers (lines cls)))
           = count_total (lines cls))
  /\ (forall packages,
        analyze_core_detailed.overall_counts packages
        = (sum_of (fun pkg =>
                     if analyze_core_detailed.selected (pkg_name pkg)
                     then sum_of (fun cls => count_total (lines cls))
                            (classes pkg)
                     else 0) packages,
           sum_of (fun pkg =>
                     if analyze_core_detailed.selected (pkg_name pkg)
                     then sum_of (fun cls => count_covered (lines cls))
                            (classes pkg)
                     else 0) packages)).
Proof.
  split; [|split].
  - apply counting_loops.count_package_eq.
  - intros cls. split; [apply counting_loops.count_class_eq|].
    apply counting_loops.unhit_length.
  - apply counting_loops.overall_counts_eq.
Qed.

(** ** Rows that show a percentage below 100 *)

Lemma percent_below_100 covered total :
  0 < total -> (percent covered total < 100)%Q <-> covered < total.
Proof.
  intros Ht. rewrite percentage_facts.percent_eq.
  assert (0 < inject_Z total)%Q as Hpos.
  { change 0%Q with (inject_Z 0). by rewrite <- Zlt_Qlt. }
  split.
  - intros Hlt. apply Z.lt_nge. intros Hle.
    assert (1 <= inject_Z covered / inject_Z total)%Q; [|lra].
    apply Qle_shift_div_l; [done|]. rewrite Zle_Qle in Hle. lra.
  - intros Hlt. rewrite Zlt_Qlt in Hlt.
    assert (inject_Z covered / inject_Z total < 1)%Q; [|lra].
    apply Qlt_shift_div_r; [done|]. lra.
Qed.

Lemma class_sums_range (cs : list Class) :
  0 <= sum_of (fun cls => count_covered (lines cls)) cs
  <= sum_of (fun cls => count_total (lines cls)) cs.
Proof.
  induction cs as [|cls cs IH]; [done|]. rewrite !sum_of_cons.
  pose proof (percentage_facts.count_covered_range (lines cls)). lia.
Qed.

Module package_row_facts.

Lemma package_rows_eq (package : Package) :
  check_coverage_detailed.package_rows package
  = if contains "KeenEyes" (pkg_name package)
       && negb (contains ".Tests" (pkg_name package))
       && (0 <? sum_of (fun cls => count_total (lines cls)) (classes package))
    then [PackageRow (pkg_name package)
            (percent (sum_of (fun cls => count_covered (lines cls))
                        (classes package))
                     (sum_of (fun cls => count_total (lines cls))
                        (classes package)))
            (sum_of (fun cls => count_covered (lines cls)) (classes package))
            (sum_of (fun cls => count_total (lines cls)) (classes package))]
    else [].
Proof.
  unfold check_coverage_detailed.package_rows.
  rewrite counting_loops.count_package_eq.
  destruct (contains "KeenEyes" (pkg_name package)
            && negb (contains ".Tests" (pkg_name package))); [|done].
  cbn [andb]. by destruct (0 <? _).
Qed.

(** The rows of one pass of the loop over the files come from a package of
    the file. *)
Lemma step_row fs f p :
  per_file.is_package_row p = true ->
  p ∈ (check_coverage_detailed.step fs f).1 ->
  exists root package,
    fs f = Xml root /\ package ∈ packages root
    /\ p ∈ check_coverage_detailed.package_rows package.
Proof.
  intros Hrow. destruct (second_part f) as [part|e] eqn:Hf.
  - rewrite (check_coverage_facts.detailed_step_eq _ _ _ Hf). cbn [fst].
    unfold per_file.detailed_block. rewrite Hf.
    intros [Hin|Hin]%elem_of_app.
    { repeat (apply elem_of_cons in Hin as [->|Hin]; [discriminate|]).
      by apply elem_of_nil in Hin. }
    destruct (fs f) as [| |root].
    + apply list_elem_of_singleton in Hin as ->. discriminate.
    + apply list_elem_of_singleton in Hin as ->. discriminate.
    + apply list_elem_of_In, in_concat in Hin as (l & Hl & Hin).
      apply in_map_iff in Hl as (package & <- & Hpkg).
      exists root, package. split; [done|].
      split; by apply list_elem_of_In.
  - unfold check_coverage_detailed.step. rewrite Hf. cbn.
    by intros ?%elem_of_nil.
Qed.

End package_row_facts.

(** X15.  Every package row that check_coverage_detailed prints stands for a
    package of one of the files whose name contains "KeenEyes" and not
    ".Tests" and which has at least one line; it shows the package's own
    counts, with 0 <= covered <= valid, and their percentage, which lies in
    [0, 100].  In a block without an error line every such package of the
    file has its row. *)
Theorem package_row_shows_the_counts
    (fs : filesystem) (files : list string) :
  (forall name rate lines_covered lines_valid,
     PackageRow name rate lines_covered lines_valid
     ∈ (check_coverage_detailed.main fs files).1 ->
     exists f root package,
       f ∈ files /\ fs f = Xml root /\ package ∈ packages root
       /\ name = pkg_name package
       /\ contains "KeenEyes" name = true
       /\ contains ".Tests" name = false
       /\ lines_valid
          = sum_of (fun cls => count_total (lines cls)) (classes package)
       /\ lines_covered
          = sum_of (fun cls => count_covered (lines cls)) (classes package)
       /\ 1 <= lines_valid
       /\ 0 <= lines_covered <= lines_valid
       /\ rate = percent lines_covered lines_valid
       /\ in_range rate)
  /\ (forall f part root package,
        second_part f = Ok part ->
        fs f = Xml root ->
        (forall e, ErrorOnly e ∉ (check_coverage_detailed.step fs f).1) ->
        package ∈ packages root ->
        contains "KeenEyes" (pkg_name package) = true ->
        contains ".Tests" (pkg_name package) = false ->
        1 <= sum_of (fun cls => count_total (lines cls)) (classes package) ->
        PackageRow (pkg_name package)
          (percent (sum_of (fun cls => count_covered (lines cls))
                      (classes package))
                   (sum_of (fun cls => count_total (lines cls))
                      (classes package)))
          (sum_of (fun cls => count_covered (lines cls)) (classes package))
          (sum_of (fun cls => count_total (lines cls)) (classes package))
        ∈ (check_coverage_detailed.step fs f).1).
Proof.
  split.
  - intros name rate c v Hin. unfold check_coverage_detailed.main in Hin.
    apply check_coverage_facts.for_each_elem_of in Hin as (f & Hf & Hin).
    apply package_row_facts.step_row in Hin as (root & package & Hroot & Hpkg & Hin);
      [|done].
    exists f, root, package. do 3 (split; [done|]).
    rewrite package_row_facts.package_rows_eq in Hin.
    destruct (contains "KeenEyes" (pkg_name package)) eqn:Hk;
      [|by apply elem_of_nil in Hin].
    destruct (contains ".Tests" (pkg_name package)) eqn:Ht;
      [by apply elem_of_nil in Hin|].
    cbn [andb negb] in Hin.
    destruct (0 <? sum_of (fun cls => count_total (lines cls))
                     (classes package)) eqn:Hpos;
      [|by apply elem_of_nil in Hin].
    apply list_elem_of_singleton in Hin. injection Hin as -> -> -> ->.
    apply Z.ltb_lt in Hpos.
    pose proof (class_sums_range (classes package)) as Hr.
    repeat split; try done; try lia.
    all: rewrite range_facts.percent_pct by lia;
      by apply percentage_facts.pct_range.
  - intros f part root package Hf Hroot _ Hpkg Hk Ht Hpos.
    rewrite (check_coverage_facts.detailed_step_eq _ _ _ Hf). cbn [fst].
    unfold per_file.detailed_block. rewrite Hf, Hroot.
    apply elem_of_app. right.
    apply list_elem_of_In, in_concat.
    exists (check_coverage_detailed.package_rows package). split.
    + apply in_map. by apply list_elem_of_In.
    + rewrite package_row_facts.package_rows_eq, Hk, Ht. cbn [andb negb].
      assert ((0 <? sum_of (fun cls => count_total (lines cls))
                      (classes package)) = true) as -> by lia.
      by left.
Qed.

Lemma package_row_shows_the_counts_integration :
  (exists f root package,
     f ∈ [run1] /\ integration_tests f = Xml root /\ package ∈ packages root
     /\ "KeenEyes.IntegrationTests" = pkg_name package
     /\ contains "KeenEyes" "KeenEyes.IntegrationTests" = true
     /\ contains ".Tests" "KeenEyes.IntegrationTests" = false
     /\ 2 = sum_of (fun cls => count_total (lines cls)) (classes package)
     /\ 1 = sum_of (fun cls => count_covered (lines cls)) (classes package)
     /\ 1 <= 2
     /\ 0 <= 1 <= 2
     /\ 50%Q = percent 1 2
     /\ in_range 50)
  /\ PackageRow "KeenEyes.IntegrationTests" (percent 1 2) 1 2
     ∈ (check_coverage_detailed.step integration_tests run1).1.
Proof.
  destruct (package_row_shows_the_counts integration_tests [run1])
    as [Hsound Hcomplete].
  split.
  - apply Hsound. apply list_elem_of_In. vm_compute. tauto.
  - apply (Hcomplete run1 "One.Tests"
             (one_package "KeenEyes.IntegrationTests"
                [one_class "test/T.cs" 1 1])
             {| pkg_name := "KeenEyes.IntegrationTests"; pkg_line_rate := 1;
                classes := [one_class "test/T.cs" 1 1] |}).
    + vm_compute. reflexivity.
    + vm_compute. reflexivity.
    + intros e Hin. apply list_elem_of_In in Hin. vm_compute in Hin.
      repeat (destruct Hin as [Hin|Hin]; [discriminate|]). done.
    + left.
    + vm_compute. reflexivity.
    + vm_compute. reflexivity.
    + vm_compute. discriminate.
Defined.

(** X16.  find_uncovered reports a class exactly when one of its lines was
    not hit.  The report shows the class's counts, the number of lines that
    were not hit (at least 1, and equal to total - covered), and, when there
    are at most 20 of them, exactly the numbers of these lines in order. *)
Theorem class_is_reported_iff_a_line_is_unhit (cls : Class) :
  (find_uncovered.class_rows cls = []
   <-> count_covered (lines cls) = count_total (lines cls))
  /\ (count_covered (lines cls) < count_total (lines cls) ->
      find_uncovered.class_rows cls
      = [ClassHead (cls_name cls)
           (find_uncovered.short_file (replace backslash "/" (filename cls)));
         ClassCoverageRow
           (percent (count_covered (lines cls)) (count_total (lines cls)))
           (count_covered (lines cls)) (count_total (lines cls))
           (count_total (lines cls) - count_covered (lines cls))]
        ++ (if (length (per_file.unhit_numbers (lines cls)) <=? 20)%nat
            then [UncoveredLines (per_file.unhit_numbers (lines cls))]
            else [])
      /\ count_total (lines cls) - count_covered (lines cls)
         = Z.of_nat (length (per_file.unhit_numbers (lines cls)))
      /\ 1 <= count_total (lines cls) - count_covered (lines cls)).
Proof.
  pose proof (counting_loops.count_class_eq cls) as Hc.
  pose proof (counting_loops.unhit_length (lines cls)) as Hlen.
  pose proof (percentage_facts.count_covered_range (lines cls)) as Hr.
  unfold find_uncovered.class_rows. rewrite Hc.
  destruct (0 <? count_total (lines cls)) eqn:Hpos.
  - apply Z.ltb_lt in Hpos.
    pose proof (percent_below_100 (count_covered (lines cls))
                  (count_total (lines cls)) Hpos) as Hbelow.
    destruct (Qlt_bool (percent (count_covered (lines cls))
                          (count_total (lines cls))) 100) eqn:Hq.
    + apply order_facts.Qlt_bool_iff, Hbelow in Hq. split.
      * split; [done|lia].
      * intros _. split; [|split; lia].
        do 2 f_equal.
        destruct (per_file.unhit_numbers (lines cls)) as [|n ns] eqn:Hu.
        -- cbn [length] in Hlen. lia.
        -- destruct (length (n :: ns) <=? 20)%nat eqn:H20; [|done].
           apply Nat.leb_le in H20. by rewrite take_ge by lia.
    + assert (~ count_covered (lines cls) < count_total (lines cls)) as Hn.
      { intros Hlt%Hbelow%order_facts.Qlt_bool_iff. congruence. }
      split; [split; [lia|done]|]. intros Hlt. done.
  - split; [split; [lia|done]|]. lia.
Qed.

Lemma class_is_reported_iff_a_line_is_unhit_one :
  find_uncovered.class_rows (one_class "test/T.cs" 1 1)
  = [ClassHead "C" "T.cs"; ClassCoverageRow 50 1 2 1; UncoveredLines ["2"]]
  /\ 2 - 1 = 1 /\ 1 <= 2 - 1.
Proof.
  destruct (class_is_reported_iff_a_line_is_unhit (one_class "test/T.cs" 1 1))
    as [_ Hrows].
  destruct Hrows as (Hrows & _); [vm_compute; reflexivity|].
  rewrite Hrows. vm_compute. repeat split; discriminate.
Defined.

(** ** analyze_core_detailed *)

Lemma Qtrunc_nonneg (q : Q) : (0 <= q)%Q -> Qtrunc q = Qfloor q.
Proof.
  destruct q as [n d]. unfold Qle, Qtrunc, Qfloor. cbn [Qnum Qden].
  intros Hn. apply Z.quot_div_nonneg; lia.
Qed.

Lemma target_lines_range total :
  0 <= total -> 0 <= analyze_core_detailed.target_lines total <= total.
Proof.
  intros Ht. unfold analyze_core_detailed.target_lines.
  assert (0 <= inject_Z total)%Q as Hq.
  { change 0%Q with (inject_Z 0). by rewrite <- Zle_Qle. }
  rewrite Qtrunc_nonneg by lra. split.
  - change 0 with (Qfloor 0). apply Qfloor_resp_le. lra.
  - rewrite <- (Qfloor_Z total) at 2. apply Qfloor_resp_le. lra.
Qed.

Lemma sum_of_nil {E} (m : E -> Z) : sum_of m [] = 0.
Proof. done. Qed.

Lemma selected_sums_range (ps : list Package) :
  0 <= sum_of (fun pkg =>
                 if analyze_core_detailed.selected (pkg_name pkg)
                 then sum_of (fun cls => count_covered (lines cls)) (classes pkg)
                 else 0) ps
  <= sum_of (fun pkg =>
               if analyze_core_detailed.selected (pkg_name pkg)
               then sum_of (fun cls => count_total (lines cls)) (classes pkg)
               else 0) ps.
Proof.
  induction ps as [|pkg ps IH]; [done|]. rewrite !sum_of_cons.
  destruct (analyze_core_detailed.selected (pkg_name pkg)); [|lia].
  pose proof (class_sums_range (classes pkg)). lia.
Qed.

(** X17.  When the report of analyze_core_detailed holds at least one line
    of a selected package (named with "KeenEyes.Core", without "Tests"), the
    division of line 44 cannot fail: the run does not end with
    [ZeroDivisionError].  A run that ends normally prints, after the class
    lists, the overall line, whose counts satisfy 0 <= covered <= total and
    whose percentage is that of the counts and lies in [0, 100], and then
    the number of lines still needed for 95%, computed from a target
    between 0 and the total. *)
Theorem overall_line_with_a_selected_line
    (fs : filesystem) (root : CoverageReport) (total_lines covered_lines : Z) :
  fs analyze_core_detailed.coverage_path = Xml root ->
  analyze_core_detailed.overall_counts (packages root)
  = (total_lines, covered_lines) ->
  total_lines <> 0 ->
  (analyze_core_detailed.main fs).2 <> Raise ZeroDivisionError
  /\ ((analyze_core_detailed.main fs).2 = Ok tt ->
      (analyze_core_detailed.main fs).1
      = concat (map analyze_core_detailed.package_rows (packages root))
        ++ [OverallLine covered_lines total_lines
              (percent covered_lines total_lines);
            NeedLine (analyze_core_detailed.target_lines total_lines
                      - covered_lines)])
  /\ 0 <= covered_lines <= total_lines
  /\ in_range (percent covered_lines total_lines)
  /\ 0 <= analyze_core_detailed.target_lines total_lines <= total_lines.
Proof.
  intros Hf Hcount Hnz.
  assert (0 <= covered_lines <= total_lines) as Hr.
  { rewrite counting_loops.overall_counts_eq in Hcount.
    injection Hcount as <- <-. apply selected_sums_range. }
  assert (analyze_core_detailed.main fs
          = (concat (map analyze_core_detailed.package_rows (packages root))
             ++ [OverallLine covered_lines total_lines
                   (percent covered_lines total_lines);
                 NeedLine (analyze_core_detailed.target_lines total_lines
                           - covered_lines)], Ok tt)) as ->.
  { unfold analyze_core_detailed.main, ET_parse. rewrite Hf.
    unfold lift. cbn [mbind io_mbind io_bind]. rewrite for_each_print.
    rewrite Hcount. unfold pct_unguarded.
    assert ((total_lines =? 0) = false) as -> by lia.
    unfold print. cbn [mbind io_mbind io_bind app]. by rewrite ?app_nil_r. }
  cbn [fst snd]. split; [done|]. split; [done|]. split; [done|]. split.
  - rewrite range_facts.percent_pct by lia.
    by apply percentage_facts.pct_range.
  - apply target_lines_range. lia.
Qed.

Lemma overall_line_with_a_selected_line_core :
  (analyze_core_detailed.main
     (fun p => if String.eqb p analyze_core_detailed.coverage_path
               then Xml (one_package "KeenEyes.Core"
                           [one_class "src/A.cs" 5 5])
               else Absent)).2 <> Raise ZeroDivisionError
  /\ 0 <= 5 <= 10
  /\ in_range (percent 5 10)
  /\ 0 <= analyze_core_detailed.target_lines 10 <= 10.
Proof.
  destruct (overall_line_with_a_selected_line
              (fun p => if String.eqb p analyze_core_detailed.coverage_path
                        then Xml (one_package "KeenEyes.Core"
                                    [one_class "src/A.cs" 5 5])
                        else Absent)
              (one_package "KeenEyes.Core" [one_class "src/A.cs" 5 5]) 10 5)
    as (Hsafe & _ & Hrange).
  - vm_compute. reflexivity.
  - vm_compute. reflexivity.
  - discriminate.
  - split; [exact Hsafe|exact Hrange].
Defined.

(** X18.  The overall counts of analyze_core_detailed are the counts that
    analyze_coverage gives with the project filter "KeenEyes.Core": on the
    same report, total_lines and covered_lines are the sums of the totals
    and covered counts of the assemblies analyze_coverage returns. *)
Theorem overall_counts_are_the_filtered_assemblies
    (fs : filesystem) (coverage_file : string) (root : CoverageReport)
    (results : dict assembly) :
  fs coverage_file = Xml root ->
  analyze_coverage fs coverage_file (Some "KeenEyes.Core") = Ok (Some results) ->
  analyze_core_detailed.overall_counts (packages root)
  = (sum_of (fun x => a_total x.2) results,
     sum_of (fun x => a_covered x.2) results).
Proof.
  intros Hf. unfold analyze_coverage, path_exists, ET_parse. rewrite Hf.
  cbn [negb mbind result_mbind rbind]. intros [= <-].
  rewrite counting_loops.overall_counts_eq.
  assert (forall (ps : list Package) (r : dict assembly),
            sum_of (fun x => a_total x.2)
              (foldl (add_package (Some "KeenEyes.Core")) r ps)
            = sum_of (fun x => a_total x.2) r
              + sum_of (fun pkg =>
                          if analyze_core_detailed.selected (pkg_name pkg)
                          then sum_of (fun cls => count_total (lines cls))
                                 (classes pkg)
                          else 0) ps
            /\ sum_of (fun x => a_covered x.2)
                 (foldl (add_package (Some "KeenEyes.Core")) r ps)
               = sum_of (fun x => a_covered x.2) r
                 + sum_of (fun pkg =>
                             if analyze_core_detailed.selected (pkg_name pkg)
                             then sum_of (fun cls => count_covered (lines cls))
                                    (classes pkg)
                             else 0) ps) as Hgen.
  { induction ps as [|p ps IH]; intros r.
    - cbn [foldl]. rewrite !sum_of_nil. lia.
    - cbn [foldl]. destruct (IH (add_package (Some "KeenEyes.Core") r p))
        as [-> ->].
      rewrite !sum_of_cons.
      assert (sum_of (fun x => a_total x.2)
                (add_package (Some "KeenEyes.Core") r p)
              = sum_of (fun x => a_total x.2) r
                + (if analyze_core_detailed.selected (pkg_name p)
                   then sum_of (fun cls => count_total (lines cls)) (classes p)
                   else 0)
              /\ sum_of (fun x => a_covered x.2)
                   (add_package (Some "KeenEyes.Core") r p)
                 = sum_of (fun x => a_covered x.2) r
                   + (if analyze_core_detailed.selected (pkg_name p)
                      then sum_of (fun cls => count_covered (lines cls))
                             (classes p)
                      else 0)) as [-> ->]; [|lia].
      unfold add_package, analyze_core_detailed.selected, filtered_out.
      cbn [String.eqb Ascii.eqb Bool.eqb negb andb].
      destruct (contains "Tests" (pkg_name p)); cbn [negb].
      { rewrite andb_false_r. lia. }
      destruct (contains "KeenEyes.Core" (pkg_name p)); cbn [negb andb];
        [|lia].
      generalize r. induction (classes p) as [|cls cs IHc]; intros r0.
      + cbn [foldl]. rewrite !sum_of_nil. lia.
      + cbn [foldl]. destruct (IHc (add_class (pkg_name p) r0 cls)) as [-> ->].
        rewrite !sum_of_cons.
        destruct (counting_agrees.add_class_totals (pkg_name p) r0 cls
                    (sum_of (fun x => a_total x.2) r0,
                     sum_of (fun x => a_covered x.2) r0, [])) as [-> ->];
          [done|done|].
        unfold analyze_project_coverage.add_class.
        destruct (lines cls) as [|l ls]; cbn [fst snd]; [|lia].
        unfold count_total, count_covered. cbn. lia. }
  destruct (Hgen (packages root) []) as [-> ->].
  rewrite !sum_of_nil. f_equal; lia.
Qed.

Lemma overall_counts_are_the_filtered_assemblies_core :
  analyze_core_detailed.overall_counts
    (packages (one_package "KeenEyes.Core" [one_class "src/A.cs" 5 5]))
  = (sum_of (fun x => a_total x.2)
       [("KeenEyes.Core",
         {| a_total := 10; a_covered := 5;
            a_files := [class_entry "src/A.cs" 10 5] |})],
     sum_of (fun x => a_covered x.2)
       [("KeenEyes.Core",
         {| a_total := 10; a_covered := 5;
            a_files := [class_entry "src/A.cs" 10 5] |})]).
Proof.
  apply (overall_counts_are_the_filtered_assemblies
           (fun p => if String.eqb p run1
                     then Xml (one_package "KeenEyes.Core"
                                 [one_class "src/A.cs" 5 5])
                     else Absent) run1).
  - vm_compute. reflexivity.
  - vm_compute. reflexivity.
Defined.

(** ** The bars of check_coverage *)

(** X19.  For a report whose line-rate lies in [0, 1], the row of
    check_coverage shows a percentage in [0, 100] and a bar of between 0 and
    20 marks, one mark for every full 5%. *)
Theorem bar_has_one_mark_per_five_percent
    (fs : filesystem) (f : string) (root : CoverageReport) (x : string * Q) :
  fs f = Xml root ->
  (0 <= line_rate root <= 1)%Q ->
  x ∈ per_file.project_rate fs f ->
  exists bar,
    check_coverage.bar_row x = BarRow x.1 x.2 bar
    /\ in_range x.2
    /\ 0 <= bar <= 20
    /\ (inject_Z bar * 5 <= x.2 < (inject_Z bar + 1) * 5)%Q.
Proof.
  intros Hf Hrate. unfold per_file.project_rate. rewrite Hf.
  destruct (second_part f) as [part|e]; [|by intros ?%elem_of_nil].
  intros ->%list_elem_of_singleton. cbn [fst snd].
  unfold check_coverage.bar_row. cbn [fst snd]. eexists. split; [done|].
  set (q := (line_rate root * 100)%Q).
  assert (0 <= q <= 100)%Q as Hq by (unfold q; lra).
  assert (0 <= q / 5 <= 20)%Q as Hq5.
  { split; [apply Qle_shift_div_l|apply Qle_shift_div_r]; lra. }
  rewrite Qtrunc_nonneg by lra.
  split; [done|]. split.
  - split.
    + change 0 with (Qfloor 0). apply Qfloor_resp_le. lra.
    + change 20 with (Qfloor 20). apply Qfloor_resp_le. lra.
  - pose proof (Qfloor_le (q / 5)) as Hlo.
    pose proof (Qlt_floor (q / 5)) as Hhi.
    rewrite inject_Z_plus in Hhi.
    set (b := inject_Z (Qfloor (q / 5))) in *.
    change (inject_Z 1) with 1%Q in Hhi. clearbody b q.
    unfold Qdiv in Hlo, Hhi. change (/ 5)%Q with (1 # 5)%Q in Hlo, Hhi.
    split; lra.
Qed.

Lemma bar_has_one_mark_per_five_percent_two :
  exists bar,
    check_coverage.bar_row ("Two", 100%Q) = BarRow "Two" 100 bar
    /\ in_range 100
    /\ 0 <= bar <= 20
    /\ (inject_Z bar * 5 <= 100 < (inject_Z bar + 1) * 5)%Q.
Proof.
  apply (bar_has_one_mark_per_five_percent one_bad run2
           (one_package "Sample" [one_class "src/A.cs" 5 5]) ("Two", 100%Q)).
  - vm_compute. reflexivity.
  - vm_compute. split; discriminate.
  - apply list_elem_of_In. vm_compute. tauto.
Defined.

(** ** The project filter of analyze_coverage *)

Module filter_facts.
Import aggregates_facts.

Lemma package_occurrences_other pkg p :
  String.eqb pkg (pkg_name p) = false -> package_occurrences pkg p = [].
Proof.
  intros Hne. unfold package_occurrences. rewrite Hne.
  by rewrite andb_false_r.
Qed.

Lemma asm_of_add_package_filtered pf pkg results p :
  asm_of pkg (add_package pf results p)
  = asm_app (asm_of pkg results)
      (if filtered_out pf pkg then empty_assembly
       else asm_spec (package_occurrences pkg p)).
Proof.
  destruct (String.eqb pkg (pkg_name p)) eqn:Ep.
  - apply String.eqb_eq in Ep as ->.
    unfold add_package, package_occurrences.
    destruct (contains "Tests" (pkg_name p)); cbn [negb andb].
    { destruct (filtered_out pf (pkg_name p)); by rewrite asm_app_empty_r. }
    destruct (filtered_out pf (pkg_name p)); [by rewrite asm_app_empty_r|].
    rewrite asm_of_add_classes. by rewrite String.eqb_refl.
  - rewrite (package_occurrences_other _ _ Ep).
    assert (asm_of pkg (add_package pf results p) = asm_of pkg results) as ->.
    { unfold add_package.
      destruct (contains "Tests" (pkg_name p)); [done|].
      destruct (filtered_out pf (pkg_name p)); [done|].
      rewrite asm_of_add_classes, Ep. by rewrite asm_app_empty_r. }
    destruct (filtered_out pf pkg); by rewrite asm_app_empty_r.
Qed.

Lemma asm_of_add_packages_filtered pf pkg ps results :
  asm_of pkg (foldl (add_package pf) results ps)
  = asm_app (asm_of pkg results)
      (if filtered_out pf pkg then empty_assembly
       else asm_spec (concat (map (package_occurrences pkg) ps))).
Proof.
  revert results. induction ps as [|p ps IH]; intros results.
  - cbn [foldl map concat]. destruct (filtered_out pf pkg);
      by rewrite asm_app_empty_r.
  - cbn [foldl map concat]. rewrite IH, asm_of_add_package_filtered.
    rewrite asm_app_assoc. destruct (filtered_out pf pkg).
    + by rewrite !asm_app_empty_r.
    + by rewrite asm_spec_app.
Qed.

End filter_facts.

(** X20.  The project filter of analyze_coverage only selects assemblies: on
    the same file, an assembly whose name contains the filter has with the
    filter exactly the counts and file entries it has without it, and an
    assembly whose name does not contain a non-empty filter has none; an
    empty filter selects everything. *)
Theorem project_filter_only_selects
    (fs : filesystem) (coverage_file : string) (project_filter : option string)
    (filtered unfiltered : dict assembly) (pkg : string) :
  analyze_coverage fs coverage_file project_filter = Ok (Some filtered) ->
  analyze_coverage fs coverage_file None = Ok (Some unfiltered) ->
  asm_of pkg filtered
  = if filtered_out project_filter pkg then empty_assembly
    else asm_of pkg unfiltered.
Proof.
  unfold analyze_coverage. destruct (negb (path_exists fs coverage_file)); [done|].
  destruct (ET_parse fs coverage_file) as [root|e]; [|done].
  cbn [mbind result_mbind rbind]. intros [= <-] [= <-].
  rewrite !filter_facts.asm_of_add_packages_filtered.
  rewrite aggregates_facts.asm_of_nil, !aggregates_facts.asm_app_empty_l.
  done.
Qed.

Lemma project_filter_only_selects_twice :
  asm_of "Sample" (all_results_of twice [run1])
  = if filtered_out (Some "Sam") "Sample" then empty_assembly
    else asm_of "Sample" (all_results_of twice [run1]).
Proof.
  apply (project_filter_only_selects twice run1 (Some "Sam")).
  - vm_compute. reflexivity.
  - vm_compute. reflexivity.
Defined.

(** X21.  analyze_core_detailed lists a class exactly when one of its lines
    was not hit: the second test of line 23 ([coverage < 100]) never
    excludes a class that passed the first ([uncovered > 0]).  The listed
    tuple holds the percentage of the class's counts, total - covered and
    the base name of the file. *)
Theorem class_is_listed_iff_a_line_is_unhit (cls : Class) :
  (analyze_core_detailed.class_tuple cls = []
   <-> count_covered (lines cls) = count_total (lines cls))
  /\ (count_covered (lines cls) < count_total (lines cls) ->
      analyze_core_detailed.class_tuple cls
      = [(pct (count_covered (lines cls)) (count_total (lines cls)),
          count_total (lines cls) - count_covered (lines cls),
          basename (filename cls))]).
Proof.
  pose proof (percentage_facts.count_covered_range (lines cls)) as Hr.
  unfold analyze_core_detailed.class_tuple.
  destruct (lines cls) as [|l ls] eqn:Hl.
  { split; [done|]. unfold count_covered, count_total. cbn. lia. }
  destruct (0 <? count_total (l :: ls) - count_covered (l :: ls)) eqn:Hu;
    cbn [andb].
  - assert (0 < count_total (l :: ls)) as Hpos by lia.
    assert (Qlt_bool (pct (count_covered (l :: ls)) (count_total (l :: ls)))
              100 = true) as ->.
    { apply order_facts.Qlt_bool_iff.
      rewrite <- range_facts.percent_pct by done.
      apply percent_below_100; lia. }
    split; [split; [done|lia]|done].
  - split; [split; [lia|done]|lia].
Qed.

Lemma class_is_listed_iff_a_line_is_unhit_one :
  analyze_core_detailed.class_tuple (one_class "src/A.cs" 5 5)
  = [(pct 5 10, 10 - 5, "A.cs")].
Proof.
  destruct (class_is_listed_iff_a_line_is_unhit (one_class "src/A.cs" 5 5))
    as [_ Hlisted].
  rewrite Hlisted; vm_compute; reflexivity.
Defined.

(** X22.  analyze_all_coverage.main reads every file before it prints: a
    run that raises has printed nothing, and a run that ends normally has
    printed the report of [all_results].  If some coverage file is not XML
    the run does not end normally, whatever the other files hold.  Files
    that do not exist are skipped: the run is the run over the files that
    exist. *)
Theorem main_prints_all_or_nothing
    (fs : filesystem) (coverage_files : list string) :
  (forall e,
     (main fs coverage_files).2 = Raise e -> (main fs coverage_files).1 = [])
  /\ ((main fs coverage_files).2 = Ok tt ->
      exists all_results,
        collect fs coverage_files [] = Ok all_results
        /\ (main fs coverage_files).1 = report all_results)
  /\ (Exists (fun f => fs f = Garbage) coverage_files ->
      exists e, (main fs coverage_files).2 = Raise e)
  /\ main fs (List.filter (path_exists fs) coverage_files)
     = main fs coverage_files.
Proof.
  split; [|split; [|split]].
  - intros e. destruct (collect fs coverage_files []) as [all_results|e'] eqn:Hc.
    + by rewrite (report_facts.main_ok _ _ _ Hc).
    + by rewrite (report_facts.main_raise _ _ _ Hc).
  - destruct (collect fs coverage_files []) as [all_results|e'] eqn:Hc.
    + rewrite (report_facts.main_ok _ _ _ Hc). by eexists.
    + by rewrite (report_facts.main_raise _ _ _ Hc).
  - intros Hg. rewrite (parse_error_facts.main_aborts _ _ Hg). by eexists.
  - unfold main. f_equal. f_equal. generalize (@nil (string * assembly)).
    induction coverage_files as [|f rest IH]; intros all; [done|].
    cbn [List.filter]. unfold path_exists at 1.
    destruct (fs f) as [| |root] eqn:Hf.
    + rewrite (missing_file_facts.collect_skips_absent _ _ _ _ Hf). apply IH.
    + cbn [collect].
      by rewrite aggregates_facts.analyze_coverage_garbage.
    + cbn [collect].
      destruct (analyze_coverage fs f None) as [[[|x r]|]|e];
        cbn [mbind result_mbind rbind]; [apply IH|apply IH|apply IH|done].
Qed.

Lemma main_prints_all_or_nothing_one_bad :
  (main one_bad [run2; run1]).1 = []
  /\ (exists e, (main one_bad [run2; run1]).2 = Raise e)
  /\ exists all_results,
       collect two_runs ["tests/Missing/coverage.xml"; run1; run2] []
       = Ok all_results
       /\ (main two_runs ["tests/Missing/coverage.xml"; run1; run2]).1
          = report all_results.
Proof.
  destruct (main_prints_all_or_nothing one_bad [run2; run1])
    as (Hraise & _ & Hgarbage & _).
  destruct (main_prints_all_or_nothing two_runs
              ["tests/Missing/coverage.xml"; run1; run2]) as (_ & Hok & _).
  split; [|split].
  - apply (Hraise ParseError). vm_compute. reflexivity.
  - apply Hgarbage. right. left. vm_compute. reflexivity.
  - apply Hok. vm_compute. reflexivity.
Defined.
